(** * Case Battle ledger (start.py): a shallow embedding and its properties

    The development follows [start.py]:

    - [PyStr]     the [str] operations used by [parse_amount]
                  ([replace], [strip]);
    - [PyDecimal] [decimal.Decimal] under the default context
                  (precision 28, ROUND_HALF_EVEN);
    - [PyFloat]   binary64 [float], [float(Decimal)] and
                  [Decimal(str(float))];
    - [Ledger]    class [LedgerStorage] over a two-sheet workbook;
    - [parse_amount], the amount gate of the chat handlers;
    - [Bot]       the chat handlers, over the stored workbook and
                  [context.user_data].

    Modelling conventions.
    - A [str] is a [string] whose characters are the code points below 256.
    - A finite [Decimal] is a signed coefficient and an exponent; Python's
      negative zero is identified with zero (Python's [==] identifies them
      as well).
    - The exponent limits of the decimal context (Emax = 999999) and the
      overflow threshold of binary64 (2^1024) are not represented: amounts
      that pass [parse_amount] are below 10^26.
    - [openpyxl] is a store of cell values: [load_workbook] after [save]
      gives the cell values back; a raised exception leaves the file as it
      was, since [_save_wb] is the last statement of each mutation.
    - [datetime.now()] is an explicit argument of each mutation. *)

From stdpp Require Import gmap list sorting.
From Stdlib Require Import ZArith QArith Qpower Qabs Qround Ascii String Lia Lra Psatz.

Local Open Scope Z_scope.

(** ** Exceptions *)

Inductive exn : Type :=
  | InvalidOperation   (* decimal.InvalidOperation *)
  | ValueError.        (* ValueError("amount must be positive") *)

Inductive result (A : Type) : Type :=
  | Ok (a : A)
  | Raise (e : exn).
Arguments Ok {A} a.
Arguments Raise {A} e.

Definition rbind {A B : Type} (m : result A) (k : A -> result B) : result B :=
  match m with
  | Ok a => k a
  | Raise e => Raise e
  end.

#[global] Instance result_bind : MBind result := fun A B k m => rbind m k.
#[global] Instance result_ret : MRet result := @Ok.

Fixpoint rmap {A B : Type} (f : A -> result B) (l : list A) : result (list B) :=
  match l with
  | [] => Ok []
  | x :: l' => y ← f x; ys ← rmap f l'; Ok (y :: ys)
  end.

Definition is_ok {A : Type} (m : result A) : bool :=
  match m with Ok _ => true | Raise _ => false end.

(** ** [str] *)

Module PyStr.

Definition code (c : ascii) : Z := Z.of_N (N_of_ascii c).

(** [str.isspace] on the code points below 256. *)
Definition isspace (c : ascii) : bool :=
  let n := code c in
  ((9 <=? n) && (n <=? 13)) || ((28 <=? n) && (n <=? 32))
  || (n =? 133) || (n =? 160).

(** [\d] on the code points below 256: the ASCII digits. *)
Definition isdigit (c : ascii) : bool :=
  let n := code c in (48 <=? n) && (n <=? 57).

Definition digit_value (c : ascii) : Z := code c - 48.

(** [s.replace(",", ".")] *)
Definition replace_comma (s : list ascii) : list ascii :=
  map (fun c => if Ascii.eqb c "," then "."%char else c) s.

Fixpoint lstrip (s : list ascii) : list ascii :=
  match s with
  | c :: s' => if isspace c then lstrip s' else s
  | [] => []
  end.

Definition rstrip (s : list ascii) : list ascii := rev (lstrip (rev s)).

(** [s.strip()] *)
Definition strip (s : list ascii) : list ascii := rstrip (lstrip s).

(** ASCII lower case, for the case-insensitive words of [Decimal]. *)
Definition lower (c : ascii) : ascii :=
  let n := code c in
  if (65 <=? n) && (n <=? 90) then ascii_of_N (Z.to_N (n + 32)) else c.

End PyStr.

(** ** [decimal.Decimal] *)

Module PyDecimal.

(** A finite Decimal: [dcoeff * 10 ^ dexp]. *)
Record dec : Type := mkdec { dcoeff : Z; dexp : Z }.

(** What [Decimal(text)] can build. *)
Inductive pydecimal : Type :=
  | Finite (d : dec)
  | Infinity (negative : bool)
  | NaN.

Definition prec : Z := 28.

Definition dec_zero : dec := mkdec 0 0.          (* Decimal("0") *)
Definition dec_hundred : dec := mkdec 100 0.     (* Decimal("100") *)

(** The value of a Decimal, as a rational. *)
Definition dval (d : dec) : Q := (inject_Z (dcoeff d) * (10 # 1) ^ dexp d)%Q.

(** [len(self._int)]: the number of decimal digits of [|n|]; 1 for 0. *)
Fixpoint digits_aux (fuel : nat) (n : Z) : Z :=
  match fuel with
  | O => 1
  | S f => if n <? 10 then 1 else 1 + digits_aux f (n / 10)
  end.

Definition ndigits (n : Z) : Z :=
  digits_aux (Z.to_nat (Z.log2 (Z.abs n))) (Z.abs n).

(** [self.adjusted()] *)
Definition adjusted (d : dec) : Z := dexp d + ndigits (dcoeff d) - 1.

(** Nearest integer to [n / d], ties to even, for [0 <= n] and [0 < d]. *)
Definition div_half_even (n d : Z) : Z :=
  let q := n / d in
  let r := n mod d in
  if (d <? 2 * r) || ((d =? 2 * r) && Z.odd q) then q + 1 else q.

(** [self._rescale(exp, ROUND_HALF_EVEN)] *)
Definition rescale (a : dec) (exp : Z) : dec :=
  if exp <=? dexp a
  then mkdec (dcoeff a * 10 ^ (dexp a - exp)) exp
  else mkdec (Z.sgn (dcoeff a)
              * div_half_even (Z.abs (dcoeff a)) (10 ^ (exp - dexp a))) exp.

(** [self._fix(context)]: round to the context precision. *)
Definition fix_ (a : dec) : dec :=
  if ndigits (dcoeff a) <=? prec then a
  else
    let r := rescale a (dexp a + ndigits (dcoeff a) - prec) in
    if ndigits (dcoeff r) <=? prec then r
    else mkdec (dcoeff r / 10) (dexp r + 1).

Definition dneg (a : dec) : dec := mkdec (- dcoeff a) (dexp a).

(** [self + other] *)
Definition dadd (a b : dec) : dec :=
  let exp := Z.min (dexp a) (dexp b) in
  if (dcoeff a =? 0) && (dcoeff b =? 0) then fix_ (mkdec 0 exp)
  else if dcoeff a =? 0 then
    fix_ (rescale b (Z.max exp (dexp b - prec - 1)))
  else if dcoeff b =? 0 then
    fix_ (rescale a (Z.max exp (dexp a - prec - 1)))
  else
    fix_ (mkdec (dcoeff a * 10 ^ (dexp a - exp)
                 + dcoeff b * 10 ^ (dexp b - exp)) exp).

(** [self - other] *)
Definition dsub (a b : dec) : dec := dadd a (dneg b).

(** [self * other] *)
Definition dmul (a b : dec) : dec :=
  fix_ (mkdec (dcoeff a * dcoeff b) (dexp a + dexp b)).

(** The loop of [__truediv__] that brings an exact quotient towards its
    ideal exponent. *)
Fixpoint strip_zeros (fuel : nat) (coeff exp ideal : Z) : Z * Z :=
  match fuel with
  | O => (coeff, exp)
  | S f =>
      if (exp <? ideal) && (coeff mod 10 =? 0)
      then strip_zeros f (coeff / 10) (exp + 1) ideal
      else (coeff, exp)
  end.

(** [self / other] for a non-zero divisor. *)
Definition ddiv (a b : dec) : dec :=
  let sign := Z.sgn (dcoeff a) * Z.sgn (dcoeff b) in
  if dcoeff a =? 0 then fix_ (mkdec 0 (dexp a - dexp b))
  else
    let shift := ndigits (dcoeff b) - ndigits (dcoeff a) + prec + 1 in
    let exp := dexp a - dexp b - shift in
    let n := if 0 <=? shift then Z.abs (dcoeff a) * 10 ^ shift
             else Z.abs (dcoeff a) in
    let d := if 0 <=? shift then Z.abs (dcoeff b)
             else Z.abs (dcoeff b) * 10 ^ (- shift) in
    let coeff := n / d in
    let remainder := n mod d in
    if negb (remainder =? 0) then
      let coeff' := if coeff mod 5 =? 0 then coeff + 1 else coeff in
      fix_ (mkdec (sign * coeff') exp)
    else
      let '(c, e) := strip_zeros (Z.to_nat (ndigits coeff)) coeff exp
                                 (dexp a - dexp b) in
      fix_ (mkdec (sign * c) e).

(** Comparisons of [self] with [other]. *)
Definition dcompare (a b : dec) : comparison :=
  let exp := Z.min (dexp a) (dexp b) in
  Z.compare (dcoeff a * 10 ^ (dexp a - exp)) (dcoeff b * 10 ^ (dexp b - exp)).

Definition dec_eqb (a b : dec) : bool :=
  match dcompare a b with Eq => true | _ => false end.
Definition dec_ltb (a b : dec) : bool :=
  match dcompare a b with Lt => true | _ => false end.
Definition dec_leb (a b : dec) : bool :=
  match dcompare a b with Gt => false | _ => true end.

(** [self.quantize(Decimal(1).scaleb(exp))] for a finite [self]. *)
Definition quantize (a : dec) (exp : Z) : result dec :=
  if dcoeff a =? 0 then Ok (fix_ (mkdec 0 exp))
  else if prec <? adjusted a - exp + 1 then Raise InvalidOperation
  else
    let ans := rescale a exp in
    if prec <? ndigits (dcoeff ans) then Raise InvalidOperation
    else Ok (fix_ ans).

(** [round(self, n)] *)
Definition round_ (a : dec) (n : Z) : result dec := quantize a (- n).

(** *** [Decimal(text)] *)

Import PyStr.

Fixpoint span_digits (s : list ascii) : list ascii * list ascii :=
  match s with
  | c :: s' =>
      if isdigit c
      then let '(ds, rest) := span_digits s' in (c :: ds, rest)
      else ([], s)
  | [] => ([], [])
  end.

(** [int(digits)] *)
Definition int_of_digits (ds : list ascii) : Z :=
  fold_left (fun acc c => 10 * acc + digit_value c) ds 0.

Definition split_sign (s : list ascii) : bool * list ascii :=
  match s with
  | c :: s' =>
      if Ascii.eqb c "-" then (true, s')
      else if Ascii.eqb c "+" then (false, s')
      else (false, s)
  | [] => (false, [])
  end.

(** The exponent part after [E]: an optional sign and at least one digit,
    up to the end of the text. *)
Definition parse_exponent (s : list ascii) : option Z :=
  let '(neg, s1) := split_sign s in
  let '(ds, rest) := span_digits s1 in
  match ds, rest with
  | _ :: _, [] => Some (if neg : bool then - int_of_digits ds else int_of_digits ds)
  | _, _ => None
  end.

(** A number: digits with an optional fractional part (at least one digit
    in all) and an optional exponent.  Returns coefficient and exponent. *)
Definition parse_number (s : list ascii) : option (Z * Z) :=
  let '(ip, s1) := span_digits s in
  let '(fp, s2) :=
    match s1 with
    | c :: r => if Ascii.eqb c "." then span_digits r else ([], s1)
    | [] => ([], s1)
    end in
  match ip ++ fp with
  | [] => None
  | ds =>
      let frac := Z.of_nat (List.length fp) in
      match s2 with
      | [] => Some (int_of_digits ds, - frac)
      | c :: r =>
          if Ascii.eqb (lower c) "e"
          then e ← parse_exponent r; Some (int_of_digits ds, e - frac)
          else None
      end
  end.

Definition word_inf : list ascii := list_ascii_of_string "inf".
Definition word_infinity : list ascii := list_ascii_of_string "infinity".
Definition word_nan : list ascii := list_ascii_of_string "nan".
Definition word_snan : list ascii := list_ascii_of_string "snan".

Definition list_ascii_eqb (a b : list ascii) : bool :=
  bool_decide (a = b).

(** [NaN] or [sNaN], followed by diagnostic digits only. *)
Definition is_nan_word (s : list ascii) : bool :=
  let low := map lower s in
  let tail k := forallb isdigit (drop k low) in
  (list_ascii_eqb (take 3 low) word_nan && tail 3%nat)
  || (list_ascii_eqb (take 4 low) word_snan && tail 4%nat).

Definition is_inf_word (s : list ascii) : bool :=
  let low := map lower s in
  list_ascii_eqb low word_inf || list_ascii_eqb low word_infinity.

(** [Decimal(text)]: [None] when the constructor raises
    [InvalidOperation] (the text is no numeric string). *)
Definition Decimal (text : list ascii) : option pydecimal :=
  let s := filter (fun c => c <> "_"%char) (strip text) in
  let '(neg, body) := split_sign s in
  match parse_number body with
  | Some (c, e) => Some (Finite (mkdec (if neg then - c else c) e))
  | None =>
      if is_inf_word body then Some (Infinity neg)
      else if is_nan_word body then Some NaN
      else None
  end.

End PyDecimal.

(** ** binary64 [float] *)

Module PyFloat.

Import PyDecimal.

(** A finite double: [fmant * 2 ^ fexp], with [|fmant| < 2^53] and
    [emin <= fexp]; [2^52 <= |fmant|] unless [fexp = emin]. *)
Record float : Type := mkfloat { fmant : Z; fexp : Z }.

Definition emin : Z := -1074.
Definition float_zero : float := mkfloat 0 0.

Definition float_eqb (f g : float) : bool :=
  (fmant f =? fmant g) && (fexp f =? fexp g).

(** The exact value as a fraction [num / den]. *)
Definition fnum (f : float) : Z := Z.abs (fmant f) * 2 ^ Z.max (fexp f) 0.
Definition fden (f : float) : Z := 2 ^ Z.max (- fexp f) 0.
Definition fval (f : float) : Q :=
  (inject_Z (fmant f) * (2 # 1) ^ fexp f)%Q.

(** The double nearest to [sign * n / d] (ties to even), [0 < n], [0 < d]. *)
Definition nearest_double (sign n d : Z) : float :=
  let p0 := Z.log2 n - Z.log2 d - 52 in
  let quo := if 0 <=? p0 then n / (d * 2 ^ p0) else (n * 2 ^ (- p0)) / d in
  let p := if 2 ^ 52 <=? quo then p0 else p0 - 1 in
  let p := Z.max p emin in
  let m := div_half_even (n * 2 ^ Z.max (- p) 0) (d * 2 ^ Z.max p 0) in
  if m =? 0 then float_zero
  else if m =? 2 ^ 53 then mkfloat (sign * 2 ^ 52) (p + 1)
  else mkfloat (sign * m) p.

(** [float(d)] for a Decimal [d]: the correctly rounded conversion. *)
Definition float_of_dec (a : dec) : float :=
  if dcoeff a =? 0 then float_zero
  else
    let c := Z.abs (dcoeff a) in
    if 0 <=? dexp a
    then nearest_double (Z.sgn (dcoeff a)) (c * 10 ^ dexp a) 1
    else nearest_double (Z.sgn (dcoeff a)) c (10 ^ (- dexp a)).

(** [floor (n / d / 10^s)] *)
Definition scaled_floor (n d s : Z) : Z :=
  if 0 <=? s then n / (d * 10 ^ s) else (n * 10 ^ (- s)) / d.

(** The decimal exponent of the leading digit of [n / d]. *)
Definition decimal_exponent (n d : Z) : Z :=
  if d <=? n then ndigits (n / d) - 1 else - ndigits (d / n).

(** The shortest digit string that converts back to [f], the nearest to
    [f] among those of that length: [(digits, exponent)]. *)
Fixpoint shortest_digits (fuel : nat) (k : Z) (f : float) (e10 : Z) : Z * Z :=
  let n := fnum f in
  let d := fden f in
  let s := e10 - k + 1 in
  let lo := scaled_floor n d s in
  (* twice the remainder against the unit, both scaled to integers *)
  let num2 := if 0 <=? s then 2 * (n - lo * d * 10 ^ s)
              else 2 * (n * 10 ^ (- s) - lo * d) in
  let unit := if 0 <=? s then d * 10 ^ s else d in
  let up := (unit <? num2) || ((unit =? num2) && Z.odd lo) in
  let first := if up then lo + 1 else lo in
  let second := if up then lo else lo + 1 in
  let back c := float_eqb (float_of_dec (mkdec c s))
                          (mkfloat (Z.abs (fmant f)) (fexp f)) in
  match fuel with
  | O => (first, s)
  | S fuel' =>
      if back first then (first, s)
      else if back second then (second, s)
      else shortest_digits fuel' (k + 1) f e10
  end.

Fixpoint drop_zeros (fuel : nat) (c e : Z) : Z * Z :=
  match fuel with
  | O => (c, e)
  | S f => if (c mod 10 =? 0) && negb (c =? 0)
           then drop_zeros f (c / 10) (e + 1) else (c, e)
  end.

(** [Decimal(str(f))]: [repr] prints the shortest digits, in positional
    notation with at least one fractional digit when the decimal exponent
    is in [-4, 16), in exponent notation otherwise. *)
Definition dec_of_float (f : float) : dec :=
  if fmant f =? 0 then mkdec 0 (-1)
  else
    let e10 := decimal_exponent (fnum f) (fden f) in
    let '(c0, s0) := shortest_digits 16 1 f e10 in
    let '(c, s) := drop_zeros 17 c0 s0 in
    let lead := s + ndigits c - 1 in
    let sign := Z.sgn (fmant f) in
    if (-4 <=? lead) && (lead <? 16) && (0 <=? s)
    then mkdec (sign * c * 10 ^ (s + 1)) (-1)
    else mkdec (sign * c) s.

(** What an amount becomes once stored as a float cell and read back. *)
Definition float_roundtrip (a : dec) : dec := dec_of_float (float_of_dec a).

End PyFloat.


(** ** [parse_amount] *)

Import PyStr PyDecimal PyFloat.

(** [parse_amount(raw)].  [value <= 0] raises [InvalidOperation] on a NaN;
    [quantize] raises it on an infinity. *)
Definition parse_amount (raw : string) : result dec :=
  let normalized := strip (replace_comma (list_ascii_of_string raw)) in
  match Decimal normalized with
  | None => Raise InvalidOperation
  | Some NaN => Raise InvalidOperation
  | Some (Infinity true) => Raise ValueError
  | Some (Infinity false) => Raise InvalidOperation
  | Some (Finite value) =>
      if dec_leb value dec_zero then Raise ValueError
      else quantize value (-2)
  end.

(** ** class [LedgerStorage] *)

Module Ledger.

(** The two values of [tx_type] the handlers pass. *)
Inductive tx_type : Type := deposit | withdraw.

#[global] Instance tx_type_eq_dec : EqDecision tx_type.
Proof. solve_decision. Defined.

(** A row of the sheet "Transactions" (after the header). *)
Record tx_row : Type := mk_tx {
  tx_user : Z;
  tx_kind : tx_type;
  tx_amount : float;
  tx_timestamp : string
}.

(** A row of the sheet "Summary" (after the header). *)
Record summary_row : Type := mk_summary {
  s_user : Z;
  s_deposits : float;
  s_withdrawals : float;
  s_balance : float;
  s_roi : float;
  s_updated_at : string
}.

Record workbook : Type := mk_wb {
  Transactions : list tx_row;
  Summary : list summary_row
}.

(** [_init_workbook] on a fresh path: two sheets with their headers. *)
Definition init_workbook : workbook := mk_wb [] [].

(** [Decimal(str(row[2]))] *)
Definition row_amount (row : tx_row) : dec := dec_of_float (tx_amount row).

(** One iteration of the first loop of [_rebuild_summary]; the pair is
    [(stats["deposit"], stats["withdraw"])]. *)
Definition accumulate (user_stats : gmap Z (dec * dec)) (row : tx_row)
  : gmap Z (dec * dec) :=
  if tx_user row =? 0 then user_stats
  else
    let uid := tx_user row in
    let amount := row_amount row in
    let stats := default (dec_zero, dec_zero) (user_stats !! uid) in
    match tx_kind row with
    | deposit => <[uid := (dadd stats.1 amount, stats.2)]> user_stats
    | withdraw => <[uid := (stats.1, dadd stats.2 amount)]> user_stats
    end.

Definition collect (rows : list tx_row) : gmap Z (dec * dec) :=
  fold_left accumulate rows ∅.

Definition key_le (a b : Z * (dec * dec)) : Prop := a.1 <= b.1.

#[global] Instance key_le_dec : RelDecision key_le.
Proof. intros a b. unfold key_le. apply _. Defined.

(** [sorted(user_stats.items())] *)
Definition sorted_items (user_stats : gmap Z (dec * dec))
  : list (Z * (dec * dec)) :=
  merge_sort key_le (map_to_list user_stats).

(** The ROI expression of [_rebuild_summary]. *)
Definition roi_of (deposits withdrawals : dec) : dec :=
  if dec_ltb dec_zero deposits
  then dmul (ddiv (dsub withdrawals deposits) deposits) dec_hundred
  else dec_zero.

(** The body of the second loop of [_rebuild_summary]. *)
Definition summary_of (now : string) (item : Z * (dec * dec))
  : result summary_row :=
  let uid := item.1 in
  let deposits := item.2.1 in
  let withdrawals := item.2.2 in
  let balance := dsub deposits withdrawals in
  let roi := roi_of deposits withdrawals in
  rounded ← round_ roi 2;
  Ok (mk_summary uid (float_of_dec deposits) (float_of_dec withdrawals)
                 (float_of_dec balance) (float_of_dec rounded) now).

Definition _rebuild_summary (now : string) (wb : workbook) : result workbook :=
  rows ← rmap (summary_of now) (sorted_items (collect (Transactions wb)));
  Ok (mk_wb (Transactions wb) rows).

(** [add_transaction]; [timestamp] and [now] are the two clock readings. *)
Definition add_transaction (timestamp now : string)
    (user_id : Z) (kind : tx_type) (amount : dec) (wb : workbook)
  : result workbook :=
  let row := mk_tx user_id kind (float_of_dec amount) timestamp in
  _rebuild_summary now (mk_wb (Transactions wb ++ [row]) (Summary wb)).

Definition reset_user (now : string) (user_id : Z) (wb : workbook)
  : result workbook :=
  let kept_rows := filter (fun row => tx_user row <> user_id) (Transactions wb) in
  _rebuild_summary now (mk_wb kept_rows (Summary wb)).

Definition get_user_stats (user_id : Z) (wb : workbook)
  : dec * dec * dec * dec :=
  match find (fun row => negb (s_user row =? 0) && (s_user row =? user_id))
             (Summary wb) with
  | Some row =>
      (dec_of_float (s_deposits row), dec_of_float (s_withdrawals row),
       dec_of_float (s_balance row), dec_of_float (s_roi row))
  | None => (dec_zero, dec_zero, dec_zero, dec_zero)
  end.

(** [rows[start:]] *)
Definition slice_from {A : Type} (start : Z) (rows : list A) : list A :=
  let len := Z.of_nat (List.length rows) in
  let start := if start <? 0 then Z.max (start + len) 0 else start in
  drop (Z.to_nat start) rows.

Definition get_user_history (user_id : Z) (limit : Z) (wb : workbook)
  : list (tx_type * dec * string) :=
  let rows :=
    map (fun row => (tx_kind row, row_amount row, tx_timestamp row))
        (filter (fun row => tx_user row <> 0 /\ tx_user row = user_id)
                (Transactions wb)) in
  rev (slice_from (- limit) rows).

Definition default_limit : Z := 10.

(** *** The ledger as a state machine over the stored file *)

Inductive mutation : Type :=
  | AddTransaction (timestamp now : string) (user_id : Z)
                   (kind : tx_type) (amount : dec)
  | ResetUser (now : string) (user_id : Z).

Definition apply_mutation (m : mutation) (wb : workbook) : result workbook :=
  match m with
  | AddTransaction ts now u k a => add_transaction ts now u k a wb
  | ResetUser now u => reset_user now u wb
  end.

(** The stored file after a call: a call that raises saves nothing. *)
Definition step (wb : workbook) (m : mutation) : workbook :=
  match apply_mutation m wb with
  | Ok wb' => wb'
  | Raise _ => wb
  end.

Definition run (ms : list mutation) (wb : workbook) : workbook :=
  fold_left step ms wb.

End Ledger.

(** ** Vocabulary of the statements *)

Module Spec.

Import Ledger.

(** The coefficient of [a] at exponent [m], for [m <= dexp a]; at
    [m = -2] the amount in hundredths. *)
Definition units (m : Z) (a : dec) : Z := dcoeff a * 10 ^ (dexp a - m).

(** The largest value [quantize(Decimal("0.01"))] can round within the
    28 digits of the context: 10^26 - 0.005, excluded. *)
Definition amount_bound : Q := inject_Z (2 * 10 ^ 28 - 1) * (1 # 200).

(** Half a hundredth. *)
Definition half_cent : Q := 1 # 200.

(** The user ids of a list of log rows. *)
Definition users (rows : list tx_row) : list Z := map tx_user rows.

(** The amounts of the rows of user [u] with kind [k], as
    [_rebuild_summary] reads them, in log order. *)
Definition amounts_of (k : tx_type) (u : Z) (rows : list tx_row) : list dec :=
  map row_amount (filter (fun r => tx_user r = u /\ tx_kind r = k) rows).

(** The Decimal sum of a list, added up from [Decimal("0")] in order. *)
Definition total (l : list dec) : dec := fold_left dadd l dec_zero.

(** The exact sum of the values of a list. *)
Definition exact_sum (l : list dec) : Q :=
  fold_right (fun a s => (dval a + s)%Q) 0%Q l.

(** The full history of user [u] in log order, oldest first. *)
Definition history_rows (u : Z) (rows : list tx_row)
  : list (tx_type * dec * string) :=
  map (fun row => (tx_kind row, row_amount row, tx_timestamp row))
      (filter (fun row => tx_user row = u) rows).

(** What the first loop of [_rebuild_summary] holds for user [u]. *)
Definition stats_of (u : Z) (rows : list tx_row) : option (dec * dec) :=
  if decide (u <> 0 /\ u ∈ users rows)
  then Some (total (amounts_of deposit u rows),
             total (amounts_of withdraw u rows))
  else None.

(** A stored workbook whose summary sheet is the one [_rebuild_summary]
    writes for its transactions sheet. *)
Definition consistent (wb : workbook) : Prop :=
  exists now, _rebuild_summary now wb = Ok wb.

(** A summary row with another [updated_at]. *)
Definition restamp (now : string) (row : summary_row) : summary_row :=
  mk_summary (s_user row) (s_deposits row) (s_withdrawals row)
             (s_balance row) (s_roi row) now.

(** An amount that reads back from a float cell with its value. *)
Definition float_stable (a : dec) : Prop :=
  (dval (float_roundtrip a) == dval a)%Q.

(** The sum of the coefficients of a list at exponent [m]. *)
Definition sum_units (m : Z) (l : list dec) : Z :=
  fold_right (fun a s => units m a + s) 0 l.

(** Amounts as [parse_amount] makes them, read back with at most two
    fractional digits, that add up to less than 10^26. *)
Definition hundredths (l : list dec) : Prop :=
  Forall (fun a => 0 <= dcoeff a /\ -2 <= dexp a) l
  /\ (exact_sum l < inject_Z (10 ^ 26))%Q.

(** The return on investment of the spec, on the exact sums:
    (withdrawals - deposits) / deposits * 100. *)
Definition roi_exact (deposits withdrawals : list dec) : Q :=
  ((exact_sum withdrawals - exact_sum deposits) / exact_sum deposits * 100)%Q.

(** [r] has two decimal places and no hundredth is nearer to [x]. *)
Definition nearest_hundredth (x : Q) (r : dec) : Prop :=
  dexp r = -2 /\ (x - half_cent <= dval r <= x + half_cent)%Q.

(** The four fields of the tuple of [get_user_stats]. *)
Definition stats_deposits (t : dec * dec * dec * dec) : dec := t.1.1.1.
Definition stats_withdrawals (t : dec * dec * dec * dec) : dec := t.1.1.2.
Definition stats_balance (t : dec * dec * dec * dec) : dec := t.1.2.
Definition stats_roi (t : dec * dec * dec * dec) : dec := t.2.

(** A session: user 42 deposits 1000.00 and withdraws 300.00, user 7
    deposits 5.00. *)
Definition sample_log : list mutation :=
  [AddTransaction "2024-01-01 10:00:00"%string "2024-01-01 10:00:00"%string
                  42 deposit (mkdec 100000 (-2));
   AddTransaction "2024-01-01 10:05:00"%string "2024-01-01 10:05:00"%string
                  42 withdraw (mkdec 30000 (-2));
   AddTransaction "2024-01-01 10:06:00"%string "2024-01-01 10:06:00"%string
                  7 deposit (mkdec 500 (-2))].


Definition mutation_now (m : mutation) : string :=
  match m with
  | AddTransaction _ now _ _ _ => now
  | ResetUser now _ => now
  end.

(** An amount as [parse_amount] returns it for a text below 10^13:
    exponent -2, not negative, at most 15 digits. *)
Definition two_decimals (a : dec) : Prop :=
  dexp a = -2 /\ 0 <= dcoeff a < 10 ^ 15.

(** A sequence of mutations whose added amounts all satisfy [P]. *)
Definition fed_with (P : dec -> Prop) (ms : list mutation) : Prop :=
  Forall (fun m => match m with
                   | AddTransaction _ _ _ _ a => P a
                   | ResetUser _ _ => True
                   end) ms.

(** A session of amounts that [parse_amount] returns. *)
Definition sample_amounts : list mutation :=
  [AddTransaction "2024-01-01 10:00:00"%string "2024-01-01 10:00:00"%string
                  42 deposit (mkdec 100000 (-2));
   AddTransaction "2024-01-01 10:05:00"%string "2024-01-01 10:05:00"%string
                  42 withdraw (mkdec 30000 (-2));
   ResetUser "2024-01-01 10:06:00"%string 7;
   AddTransaction "2024-01-01 10:07:00"%string "2024-01-01 10:07:00"%string
                  42 deposit (mkdec 1999 (-2))].

(** The number of occurrences of a character in a text. *)
Fixpoint count (c : ascii) (s : list ascii) : nat :=
  match s with
  | [] => O
  | x :: s' => ((if Ascii.eqb x c then 1 else 0) + count c s')%nat
  end.

End Spec.

(** ** The chat handlers *)

(** The handlers are functions of the stored workbook and of
    [context.user_data], the per-user dictionary in which [menu_router]
    leaves the pending choice ["awaiting_amount"].  A message sent back
    is recorded by its template and by the values that the f-string
    formats into it; the text of the templates, the [:,.2f] formatting
    and the keyboards are not represented.  [menu_router] receives the
    label that [text.strip()] equals, if any.

    Conventions.
    - Every update has a sender ([effective_user], [query.from_user])
      and, for the message handlers, a text.
    - The calls of the Telegram API ([reply_text], [reply_document],
      [answer], [edit_message_text]) return; the only exceptions are
      those of [parse_amount], which the handlers catch, and of the
      ledger, which they do not.
    - A handler that raises keeps what it changed before raising.
    - Handler calls do not interleave. *)
Module Bot.

Import PyDecimal PyFloat Ledger Spec.

(** The seven labels of [MENU_KEYBOARD]. *)
Inductive menu_button : Type :=
  | BtnDeposit | BtnWithdraw | BtnBalance | BtnStats | BtnHistory
  | BtnExport | BtnReset.

Inductive reply : Type :=
  | StartReply
  | UsageReply (kind : tx_type)
  | InvalidReply (kind : tx_type)
  | RecordedReply (kind : tx_type) (amount balance : dec)
  | BalanceReply (balance roi : dec)
  | StatsReply (deposits withdrawals balance roi : dec)
               (profit : bool) (pnl : dec)
  | HistoryEmptyReply
  | HistoryReply (rows : list (tx_type * dec * string))
  | ExportReply (document : workbook)
  | ResetQuestion
  | DeletedReply
  | CancelledReply
  | PromptReply (kind : tx_type)
  | MenuInvalidReply
  | MenuRecordedReply (kind : tx_type) (amount balance : dec).

(** The file [EXCEL_PATH] and [context.user_data["awaiting_amount"]] of
    each user. *)
Record chat : Type := mk_chat {
  file : workbook;
  user_data : gmap Z tx_type
}.

(** After [ledger = LedgerStorage(EXCEL_PATH)] on a fresh path. *)
Definition init_chat : chat := mk_chat init_workbook ∅.

(** The state a handler leaves, and its replies or the exception it
    raised. *)
Definition handled : Type := (chat * result (list reply))%type.

(** [abs(pnl)] *)
Definition dabs (a : dec) : dec := fix_ (mkdec (Z.abs (dcoeff a)) (dexp a)).

Definition start (st : chat) : handled := (st, Ok [StartReply]).

Definition add_deposit (timestamp now : string) (user_id : Z)
    (args : list string) (st : chat) : handled :=
  match args with
  | [] => (st, Ok [UsageReply deposit])
  | raw :: _ =>
      match parse_amount raw with
      | Raise _ => (st, Ok [InvalidReply deposit])
      | Ok amount =>
          match add_transaction timestamp now user_id deposit amount (file st) with
          | Raise e => (st, Raise e)
          | Ok wb =>
              let balance := stats_balance (get_user_stats user_id wb) in
              (mk_chat wb (user_data st),
               Ok [RecordedReply deposit amount balance])
          end
      end
  end.

(** [withdraw]; the name is taken by the kind of transaction. *)
Definition withdraw_ (timestamp now : string) (user_id : Z)
    (args : list string) (st : chat) : handled :=
  match args with
  | [] => (st, Ok [UsageReply withdraw])
  | raw :: _ =>
      match parse_amount raw with
      | Raise _ => (st, Ok [InvalidReply withdraw])
      | Ok amount =>
          match add_transaction timestamp now user_id withdraw amount (file st) with
          | Raise e => (st, Raise e)
          | Ok wb =>
              let balance := stats_balance (get_user_stats user_id wb) in
              (mk_chat wb (user_data st),
               Ok [RecordedReply withdraw amount balance])
          end
      end
  end.

Definition balance (user_id : Z) (st : chat) : handled :=
  let t := get_user_stats user_id (file st) in
  (st, Ok [BalanceReply (stats_balance t) (stats_roi t)]).

Definition stats (user_id : Z) (st : chat) : handled :=
  let t := get_user_stats user_id (file st) in
  let pnl := dsub (stats_withdrawals t) (stats_deposits t) in
  (st, Ok [StatsReply (stats_deposits t) (stats_withdrawals t)
                      (stats_balance t) (stats_roi t)
                      (dec_leb dec_zero pnl) (dabs pnl)]).

Definition history (user_id : Z) (st : chat) : handled :=
  match get_user_history user_id default_limit (file st) with
  | [] => (st, Ok [HistoryEmptyReply])
  | history_rows => (st, Ok [HistoryReply history_rows])
  end.

(** [EXCEL_PATH] exists from [_init_workbook] on. *)
Definition export_file (st : chat) : handled :=
  (st, Ok [ExportReply (file st)]).

Definition reset (st : chat) : handled := (st, Ok [ResetQuestion]).

Definition button_callback (now : string) (user_id : Z) (data : string)
    (st : chat) : handled :=
  if String.eqb data "reset_confirm" then
    match reset_user now user_id (file st) with
    | Raise e => (st, Raise e)
    | Ok wb => (mk_chat wb (user_data st), Ok [DeletedReply])
    end
  else (st, Ok [CancelledReply]).

Definition menu_router (user_id : Z) (label : option menu_button)
    (st : chat) : handled :=
  match label with
  | Some BtnDeposit =>
      (mk_chat (file st) (<[user_id := deposit]> (user_data st)),
       Ok [PromptReply deposit])
  | Some BtnWithdraw =>
      (mk_chat (file st) (<[user_id := withdraw]> (user_data st)),
       Ok [PromptReply withdraw])
  | Some BtnBalance => balance user_id st
  | Some BtnStats => stats user_id st
  | Some BtnHistory => history user_id st
  | Some BtnExport => export_file st
  | Some BtnReset => reset st
  | None => (st, Ok [])
  end.

Definition amount_from_menu (timestamp now : string) (user_id : Z)
    (text : string) (st : chat) : handled :=
  match user_data st !! user_id with
  | None => (st, Ok [])
  | Some mode =>
      let popped := mk_chat (file st) (delete user_id (user_data st)) in
      match parse_amount text with
      | Raise _ => (popped, Ok [MenuInvalidReply])
      | Ok amount =>
          match add_transaction timestamp now user_id mode amount (file st) with
          | Raise e => (popped, Raise e)
          | Ok wb =>
              let user_balance := stats_balance (get_user_stats user_id wb) in
              (mk_chat wb (user_data popped),
               Ok [MenuRecordedReply mode amount user_balance])
          end
      end
  end.

(** *** The chat as a state machine *)

(** A call of a handler, with the sender of the update, the clock
    readings it takes and the part of the update it reads. *)
Inductive event : Type :=
  | Start (user_id : Z)
  | AddDeposit (timestamp now : string) (user_id : Z) (args : list string)
  | Withdraw (timestamp now : string) (user_id : Z) (args : list string)
  | Balance (user_id : Z)
  | Stats (user_id : Z)
  | History (user_id : Z)
  | ExportFile (user_id : Z)
  | Reset (user_id : Z)
  | ButtonCallback (now : string) (user_id : Z) (data : string)
  | MenuRouter (user_id : Z) (label : option menu_button)
  | AmountFromMenu (timestamp now : string) (user_id : Z) (text : string).

Definition handle (ev : event) (st : chat) : handled :=
  match ev with
  | Start _ => start st
  | AddDeposit ts now u args => add_deposit ts now u args st
  | Withdraw ts now u args => withdraw_ ts now u args st
  | Balance u => balance u st
  | Stats u => stats u st
  | History u => history u st
  | ExportFile _ => export_file st
  | Reset _ => reset st
  | ButtonCallback now u data => button_callback now u data st
  | MenuRouter u label => menu_router u label st
  | AmountFromMenu ts now u text => amount_from_menu ts now u text st
  end.

Definition sender (ev : event) : Z :=
  match ev with
  | Start u | Balance u | Stats u | History u | ExportFile u | Reset u => u
  | AddDeposit _ _ u _ | Withdraw _ _ u _ => u
  | ButtonCallback _ u _ => u
  | MenuRouter u _ => u
  | AmountFromMenu _ _ u _ => u
  end.

(** The state after a sequence of handler calls. *)
Definition play (evs : list event) (st : chat) : chat :=
  fold_left (fun st ev => fst (handle ev st)) evs st.

(** A chat: user 42 adds 1000 by command, picks "withdraw" in the menu
    and types 300,50, asks for a reset and cancels it. *)
Definition sample_chat : list event :=
  [AddDeposit "2024-01-01 10:00:00"%string "2024-01-01 10:00:00"%string
              42 ["1000"%string];
   MenuRouter 42 (Some BtnWithdraw);
   AmountFromMenu "2024-01-01 10:05:00"%string "2024-01-01 10:05:00"%string
                  42 "300,50"%string;
   Reset 42;
   ButtonCallback "2024-01-01 10:06:00"%string 42 "reset_cancel"%string].

(** The amount texts a handler call passes to [parse_amount], and the
    amounts typed in a chat: what [parse_amount] returns for them. *)
Definition amount_texts (ev : event) : list string :=
  match ev with
  | AddDeposit _ _ _ (raw :: _) => [raw]
  | Withdraw _ _ _ (raw :: _) => [raw]
  | AmountFromMenu _ _ _ text => [text]
  | _ => []
  end.

Definition typed (evs : list event) (a : dec) : Prop :=
  exists ev raw,
    ev ∈ evs /\ raw ∈ amount_texts ev /\ parse_amount raw = Ok a.

(** The menu button of a kind of transaction. *)
Definition button_of (kind : tx_type) : menu_button :=
  match kind with
  | deposit => BtnDeposit
  | withdraw => BtnWithdraw
  end.

End Bot.

(** * Properties *)

(** ** Decimal arithmetic *)

Module DecimalFacts.

Import PyDecimal Spec.

Lemma digits_aux_pos fuel n : 1 <= digits_aux fuel n.
Proof.
  revert n. induction fuel as [|f IH]; intros n; simpl; [lia|].
  destruct (n <? 10); [lia|]. specialize (IH (n / 10)). lia.
Qed.

Lemma digits_aux_bounds fuel n :
  0 < n -> n < 2 ^ (Z.of_nat fuel + 1) ->
  10 ^ (digits_aux fuel n - 1) <= n < 10 ^ digits_aux fuel n.
Proof.
  revert n. induction fuel as [|f IH]; intros n Hpos Hlt.
  - simpl in *. lia.
  - cbn [digits_aux]. destruct (Z.ltb_spec n 10) as [Hs|Hb].
    + simpl. lia.
    + assert (Hq : 0 < n / 10) by (apply Z.div_str_pos; lia).
      assert (Hq2 : n / 10 < 2 ^ (Z.of_nat f + 1)).
      { apply Z.div_lt_upper_bound; [lia|].
        replace (Z.of_nat (S f) + 1) with (Z.succ (Z.of_nat f + 1)) in Hlt by lia.
        rewrite Z.pow_succ_r in Hlt by lia. lia. }
      specialize (IH _ Hq Hq2).
      pose proof (digits_aux_pos f (n / 10)) as Hd.
      replace (1 + digits_aux f (n / 10) - 1)
        with (Z.succ (digits_aux f (n / 10) - 1)) by lia.
      replace (1 + digits_aux f (n / 10))
        with (Z.succ (digits_aux f (n / 10))) by lia.
      rewrite !Z.pow_succ_r by lia.
      pose proof (Z.div_mod n 10 ltac:(lia)) as Hdm.
      pose proof (Z.mod_pos_bound n 10 ltac:(lia)) as Hm.
      lia.
Qed.

Lemma ndigits_pos n : 1 <= ndigits n.
Proof. apply digits_aux_pos. Qed.

Lemma ndigits_bounds n :
  n <> 0 -> 10 ^ (ndigits n - 1) <= Z.abs n < 10 ^ ndigits n.
Proof.
  intros Hn. unfold ndigits. apply digits_aux_bounds; [lia|].
  rewrite Z2Nat.id by apply Z.log2_nonneg.
  pose proof (Z.log2_spec (Z.abs n) ltac:(lia)) as H.
  replace (Z.log2 (Z.abs n) + 1) with (Z.succ (Z.log2 (Z.abs n))) by lia.
  lia.
Qed.

Lemma ndigits_le_iff n k : 1 <= k -> ndigits n <= k <-> Z.abs n < 10 ^ k.
Proof.
  intros Hk. destruct (Z.eq_dec n 0) as [->|Hn].
  - change (ndigits 0) with 1. simpl Z.abs.
    pose proof (Z.pow_pos_nonneg 10 k ltac:(lia) ltac:(lia)). lia.
  - pose proof (ndigits_bounds n Hn) as [Hlo Hhi].
    pose proof (ndigits_pos n) as Hp. split; intros H.
    + eapply Z.lt_le_trans; [exact Hhi|].
      apply Z.pow_le_mono_r; lia.
    + assert (10 ^ (ndigits n - 1) < 10 ^ k) as Hlt by lia.
      apply Z.pow_lt_mono_r_iff in Hlt; lia.
Qed.

(** *** Values *)

Lemma inject_Z_minus x y : inject_Z (x - y) = (inject_Z x - inject_Z y)%Q.
Proof.
  unfold Z.sub, Qminus. rewrite inject_Z_plus, inject_Z_opp. reflexivity.
Qed.

Lemma pow10_pos e : (0 < (10 # 1) ^ e)%Q.
Proof. apply Qpower_0_lt. reflexivity. Qed.

Lemma pow10_nonzero e : ~ ((10 # 1) ^ e == 0)%Q.
Proof. pose proof (pow10_pos e). lra. Qed.

Lemma pow10_inject k : 0 <= k -> (inject_Z (10 ^ k) == (10 # 1) ^ k)%Q.
Proof. intros Hk. rewrite Zpower_Qpower by exact Hk. reflexivity. Qed.

Lemma dval_shift c e k :
  0 <= k -> (dval (mkdec (c * 10 ^ k) e) == dval (mkdec c (e + k)))%Q.
Proof.
  intros Hk. unfold dval; simpl.
  rewrite inject_Z_mult, (pow10_inject k Hk).
  rewrite (Qpower_plus (10 # 1) e k) by (intros H; discriminate H).
  ring.
Qed.

Lemma dval_pos_iff a : (0 < dval a)%Q <-> 0 < dcoeff a.
Proof.
  unfold dval. pose proof (pow10_pos (dexp a)) as Hp.
  rewrite Zlt_Qlt. change (inject_Z 0) with 0%Q. split; intros H; nra.
Qed.

Lemma dval_nonneg_iff a : (0 <= dval a)%Q <-> 0 <= dcoeff a.
Proof.
  unfold dval. pose proof (pow10_pos (dexp a)) as Hp.
  rewrite Zle_Qle. change (inject_Z 0) with 0%Q. split; intros H; nra.
Qed.

Lemma dval_zero_iff a : (dval a == 0)%Q <-> dcoeff a = 0.
Proof.
  unfold dval. pose proof (pow10_pos (dexp a)) as Hp.
  rewrite <- (inject_Z_injective (dcoeff a) 0). change (inject_Z 0) with 0%Q.
  split; intros H; nra.
Qed.

(** *** Rounding to an integer quotient *)

Lemma div_half_even_near n d :
  0 <= n -> 0 < d ->
  Z.abs (2 * (div_half_even n d * d - n)) <= d /\ 0 <= div_half_even n d.
Proof.
  intros Hn Hd. unfold div_half_even.
  pose proof (Z.div_mod n d ltac:(lia)) as Hdm.
  pose proof (Z.mod_pos_bound n d Hd) as Hm.
  assert (0 <= n / d) by (apply Z.div_pos; lia).
  destruct (Z.ltb_spec d (2 * (n mod d)));
    destruct (Z.eqb_spec d (2 * (n mod d))); destruct (Z.odd (n / d));
    simpl; split; nia.
Qed.

Lemma div_half_even_exact n d :
  0 < d -> div_half_even (n * d) d = n.
Proof.
  intros Hd. unfold div_half_even.
  rewrite Z.div_mul, Z.mod_mul by lia.
  destruct (Z.ltb_spec d (2 * 0)); [lia|].
  destruct (Z.eqb_spec d (2 * 0)); [lia|]. reflexivity.
Qed.

(** Below an even bound [K]: the quotient stays under [K - 1/2]. *)
Lemma div_half_even_lt n d K :
  0 <= n -> 0 < d -> Z.even K = true ->
  div_half_even n d < K <-> 2 * n < (2 * K - 1) * d.
Proof.
  intros Hn Hd HK. unfold div_half_even.
  pose proof (Z.div_mod n d ltac:(lia)) as Hdm.
  pose proof (Z.mod_pos_bound n d Hd) as Hm.
  set (q := n / d) in *. set (r := n mod d) in *.
  assert (Hcases : q <= K - 2 \/ q = K - 1 \/ K <= q) by lia.
  destruct Hcases as [Hq|[Hq|Hq]].
  - destruct ((d <? 2 * r) || (d =? 2 * r) && Z.odd q); split; intros _; nia.
  - assert (Hodd : Z.odd q = true).
    { subst q. rewrite Hq. rewrite Z.sub_1_r, Z.odd_pred. exact HK. }
    rewrite Hodd, andb_true_r.
    destruct (Z.ltb_spec d (2 * r)); destruct (Z.eqb_spec d (2 * r));
      simpl; split; intros; nia.
  - destruct ((d <? 2 * r) || (d =? 2 * r) && Z.odd q); split; intros; nia.
Qed.

Lemma div_half_even_pos_iff n d :
  0 <= n -> 0 < d -> 0 < div_half_even n d <-> d < 2 * n.
Proof.
  intros Hn Hd. unfold div_half_even.
  pose proof (Z.div_mod n d ltac:(lia)) as Hdm.
  pose proof (Z.mod_pos_bound n d Hd) as Hm.
  assert (Hq : 0 <= n / d) by (apply Z.div_pos; lia).
  destruct (Z.eq_dec (n / d) 0) as [H0|H0].
  - rewrite H0 in *. simpl Z.odd. rewrite andb_false_r, orb_false_r.
    destruct (Z.ltb_spec d (2 * (n mod d))); split; intros; nia.
  - destruct ((d <? 2 * (n mod d)) || (d =? 2 * (n mod d)) && Z.odd (n / d));
      split; intros; nia.
Qed.

(** *** Coefficients on a common exponent *)

Lemma dval_units m a :
  m <= dexp a -> (dval a == inject_Z (units m a) * (10 # 1) ^ m)%Q.
Proof.
  intros Hm. unfold units.
  transitivity (dval (mkdec (dcoeff a * 10 ^ (dexp a - m)) m)).
  - rewrite dval_shift by lia. destruct a as [c e]; simpl.
    replace (m + (e - m)) with e by lia. reflexivity.
  - reflexivity.
Qed.

Lemma units_abs_ge m a : m <= dexp a -> Z.abs (dcoeff a) <= Z.abs (units m a).
Proof.
  intros Hm. unfold units. rewrite Z.abs_mul.
  pose proof (Z.pow_pos_nonneg 10 (dexp a - m) ltac:(lia) ltac:(lia)).
  rewrite (Z.abs_eq (10 ^ _)) by lia. nia.
Qed.

Lemma fix_small a : ndigits (dcoeff a) <= prec -> fix_ a = a.
Proof.
  intros H. unfold fix_. destruct (Z.leb_spec (ndigits (dcoeff a)) prec); [reflexivity|lia].
Qed.

Lemma fix_units m a :
  m <= dexp a -> Z.abs (units m a) < 10 ^ prec -> fix_ a = a.
Proof.
  intros Hm Hb. apply fix_small. apply ndigits_le_iff; [unfold prec; lia|].
  pose proof (units_abs_ge m a Hm). lia.
Qed.

Lemma rescale_down a exp :
  exp <= dexp a -> rescale a exp = mkdec (dcoeff a * 10 ^ (dexp a - exp)) exp.
Proof.
  intros H. unfold rescale. destruct (Z.leb_spec exp (dexp a)); [reflexivity|lia].
Qed.

Lemma units_rescale m a exp :
  m <= exp -> exp <= dexp a -> units m (rescale a exp) = units m a.
Proof.
  intros H1 H2. rewrite rescale_down by exact H2. unfold units; simpl.
  rewrite <- Z.mul_assoc, <- Z.pow_add_r by lia.
  f_equal. f_equal. lia.
Qed.

(** Addition is exact as long as the sum has at most 28 digits at the
    exponent [m]. *)
Lemma dadd_units m a b :
  m <= dexp a -> m <= dexp b ->
  Z.abs (units m a + units m b) < 10 ^ prec ->
  m <= dexp (dadd a b) /\ units m (dadd a b) = units m a + units m b.
Proof.
  intros Ha Hb Hsum. unfold dadd.
  destruct (Z.eqb_spec (dcoeff a) 0) as [Ea|Ea];
    destruct (Z.eqb_spec (dcoeff b) 0) as [Eb|Eb]; cbn [andb].
  - rewrite fix_small by (simpl; change (ndigits 0) with 1; unfold prec; lia).
    simpl. unfold units; simpl. rewrite Ea, Eb. split; lia.
  - set (e := Z.max (Z.min (dexp a) (dexp b)) (dexp b - prec - 1)).
    assert (He1 : m <= e) by (unfold e; lia).
    assert (He2 : e <= dexp b) by (unfold e, prec; lia).
    assert (Hu : units m (rescale b e) = units m a + units m b).
    { rewrite units_rescale by lia. unfold units at 2. rewrite Ea. lia. }
    assert (He3 : dexp (rescale b e) = e) by (rewrite rescale_down by lia; reflexivity).
    rewrite (fix_units m) by (rewrite ?He3, ?Hu; lia).
    rewrite He3. split; [lia|exact Hu].
  - set (e := Z.max (Z.min (dexp a) (dexp b)) (dexp a - prec - 1)).
    assert (He1 : m <= e) by (unfold e; lia).
    assert (He2 : e <= dexp a) by (unfold e, prec; lia).
    assert (Hu : units m (rescale a e) = units m a + units m b).
    { rewrite units_rescale by lia. unfold units at 3. rewrite Eb. lia. }
    assert (He3 : dexp (rescale a e) = e) by (rewrite rescale_down by lia; reflexivity).
    rewrite (fix_units m) by (rewrite ?He3, ?Hu; lia).
    rewrite He3. split; [lia|exact Hu].
  - set (e := Z.min (dexp a) (dexp b)).
    set (s := mkdec (dcoeff a * 10 ^ (dexp a - e) + dcoeff b * 10 ^ (dexp b - e)) e).
    assert (He1 : m <= e) by (unfold e; lia).
    assert (Hu : units m s = units m a + units m b).
    { unfold units, s; simpl. rewrite Z.mul_add_distr_r.
      rewrite <- !Z.mul_assoc, <- !Z.pow_add_r by (unfold e; lia).
      f_equal; f_equal; f_equal; lia. }
    rewrite (fix_units m) by (rewrite ?Hu; simpl; lia).
    simpl. split; [lia|exact Hu].
Qed.

Lemma units_dneg m a : units m (dneg a) = - units m a.
Proof. unfold units, dneg; simpl. lia. Qed.

Lemma dsub_units m a b :
  m <= dexp a -> m <= dexp b ->
  Z.abs (units m a - units m b) < 10 ^ prec ->
  m <= dexp (dsub a b) /\ units m (dsub a b) = units m a - units m b.
Proof.
  intros Ha Hb Hsum. unfold dsub.
  destruct (dadd_units m a (dneg b)) as [H1 H2]; simpl; try lia.
  - rewrite units_dneg. replace (units m a + - units m b) with (units m a - units m b) by lia. exact Hsum.
  - rewrite units_dneg in H2. split; lia.
Qed.

(** *** [quantize] *)

Lemma dexp_rescale a exp : dexp (rescale a exp) = exp.
Proof. unfold rescale. destruct (exp <=? dexp a); reflexivity. Qed.

Lemma rescale_zero e exp : rescale (mkdec 0 e) exp = mkdec 0 exp.
Proof. unfold rescale; simpl. destruct (exp <=? e); reflexivity. Qed.

Lemma quantize_ok a exp r :
  quantize a exp = Ok r ->
  r = rescale a exp /\ dexp r = exp /\ ndigits (dcoeff r) <= prec.
Proof.
  unfold quantize. destruct (Z.eqb_spec (dcoeff a) 0) as [E|E].
  - rewrite fix_small by (simpl; change (ndigits 0) with 1; unfold prec; lia).
    intros [= <-]. destruct a as [c e]; simpl in E; subst c.
    rewrite rescale_zero. simpl. change (ndigits 0) with 1. unfold prec.
    split; [reflexivity|split; [reflexivity|lia]].
  - destruct (prec <? adjusted a - exp + 1); [discriminate|].
    destruct (Z.ltb_spec prec (ndigits (dcoeff (rescale a exp)))); [discriminate|].
    rewrite fix_small by lia. intros [= <-].
    rewrite dexp_rescale. auto.
Qed.

Lemma pow10_neg2 : ((10 # 1) ^ (-2) == 1 # 100)%Q.
Proof. reflexivity. Qed.

(** The value against [amount_bound], on integers. *)
Lemma dval_lt_bound_hi a :
  -2 <= dexp a ->
  (dval a < amount_bound)%Q <-> units (-2) a < 10 ^ 28.
Proof.
  intros He. rewrite (dval_units (-2) a He), pow10_neg2. unfold amount_bound.
  assert (Hz : units (-2) a < 10 ^ 28 <-> 2 * units (-2) a < 2 * 10 ^ 28 - 1) by lia.
  rewrite Hz, Zlt_Qlt, inject_Z_mult. change (inject_Z 2) with 2%Q.
  split; intros H; lra.
Qed.

Lemma pow10_split e k :
  0 <= k -> ((10 # 1) ^ e * inject_Z (10 ^ k) == (10 # 1) ^ (e + k))%Q.
Proof.
  intros Hk. rewrite (pow10_inject k Hk).
  rewrite (Qpower_plus (10 # 1) e k) by (intros H; discriminate H). reflexivity.
Qed.

Lemma dval_lt_bound_lo a :
  dexp a < -2 ->
  (dval a < amount_bound)%Q
  <-> 2 * dcoeff a < (2 * 10 ^ 28 - 1) * 10 ^ (-2 - dexp a).
Proof.
  intros He. unfold dval, amount_bound.
  set (k := -2 - dexp a).
  pose proof (pow10_split (dexp a) k ltac:(lia)) as Hs.
  replace (dexp a + k) with (-2) in Hs by lia. rewrite pow10_neg2 in Hs.
  assert (HP : (0 < inject_Z (10 ^ k))%Q).
  { change 0%Q with (inject_Z 0). rewrite <- Zlt_Qlt.
    apply Z.pow_pos_nonneg; lia. }
  pose proof (pow10_pos (dexp a)) as Hx.
  rewrite Zlt_Qlt, !inject_Z_mult. change (inject_Z 2) with 2%Q.
  set (x := ((10 # 1) ^ dexp a)%Q) in *.
  set (P := inject_Z (10 ^ k)) in *.
  set (c := inject_Z (dcoeff a)). set (N := inject_Z (2 * 10 ^ 28 - 1)).
  assert (Hc : (c * x * P == c * (1 # 100))%Q) by (rewrite <- Hs; ring).
  split; intros H.
  - assert (H1 : (c * x * P < N * (1 # 200) * P)%Q).
    { apply Qmult_lt_compat_r; assumption. }
    rewrite Hc in H1. lra.
  - assert (H1 : (c * x * P < N * (1 # 200) * P)%Q) by (rewrite Hc; lra).
    apply Qmult_lt_r in H1; assumption.
Qed.

Lemma quantize_cents_ok_iff a :
  0 < dcoeff a ->
  is_ok (quantize a (-2)) = true <-> (dval a < amount_bound)%Q.
Proof.
  intros Hc. unfold quantize.
  destruct (Z.eqb_spec (dcoeff a) 0) as [E|_]; [lia|].
  pose proof (ndigits_bounds (dcoeff a) ltac:(lia)) as [Hlo Hhi].
  pose proof (ndigits_pos (dcoeff a)) as Hnd.
  rewrite Z.abs_eq in Hlo, Hhi by lia.
  unfold adjusted.
  destruct (Z.le_gt_cases (-2) (dexp a)) as [He|He].
  - rewrite (dval_lt_bound_hi a He). unfold units.
    rewrite rescale_down by lia. cbn [dcoeff].
    replace (dexp a - -2) with (dexp a + 2) by lia.
    set (j := dexp a + 2). assert (Hj : 0 <= j) by (unfold j; lia).
    pose proof (Z.pow_pos_nonneg 10 j ltac:(lia) Hj) as Hpj.
    destruct (Z.ltb_spec prec (dexp a + ndigits (dcoeff a) - 1 - -2 + 1)) as [H1|H1].
    + simpl. split; [discriminate|]. intros H. exfalso.
      assert (10 ^ (ndigits (dcoeff a) - 1 + j) <= dcoeff a * 10 ^ j).
      { rewrite Z.pow_add_r by lia. nia. }
      assert (10 ^ 28 <= 10 ^ (ndigits (dcoeff a) - 1 + j)).
      { apply Z.pow_le_mono_r; unfold prec, j in *; lia. }
      lia.
    + destruct (Z.ltb_spec prec (ndigits (dcoeff a * 10 ^ j))) as [H2|H2].
      * simpl. split; [discriminate|]. intros H. exfalso.
        assert (ndigits (dcoeff a * 10 ^ j) <= 28).
        { apply ndigits_le_iff; [lia|]. rewrite Z.abs_eq by nia. exact H. }
        unfold prec in H2. lia.
      * simpl. split; [|reflexivity]. intros _.
        apply (ndigits_le_iff (dcoeff a * 10 ^ j) 28 ltac:(lia)) in H2.
        rewrite Z.abs_eq in H2 by nia. exact H2.
  - rewrite (dval_lt_bound_lo a He).
    set (k := -2 - dexp a). assert (Hk : 0 < k) by (unfold k; lia).
    pose proof (Z.pow_pos_nonneg 10 k ltac:(lia) ltac:(lia)) as Hpk.
    assert (Hres : dcoeff (rescale a (-2))
                   = div_half_even (dcoeff a) (10 ^ k)).
    { unfold rescale. destruct (Z.leb_spec (-2) (dexp a)); [lia|].
      cbn [dcoeff]. rewrite Z.sgn_pos, Z.abs_eq by lia.
      unfold k. lia. }
    rewrite Hres.
    pose proof (div_half_even_lt (dcoeff a) (10 ^ k) (10 ^ 28)
                  ltac:(lia) Hpk eq_refl) as Hlt.
    pose proof (div_half_even_near (dcoeff a) (10 ^ k) ltac:(lia) Hpk) as [_ Hnn].
    destruct (Z.ltb_spec prec (dexp a + ndigits (dcoeff a) - 1 - -2 + 1)) as [H1|H1].
    + simpl. split; [discriminate|]. intros H. exfalso.
      assert (10 ^ (28 + k) <= 10 ^ (ndigits (dcoeff a) - 1)).
      { apply Z.pow_le_mono_r; unfold prec, k in *; lia. }
      rewrite Z.pow_add_r in H0 by lia. nia.
    + destruct (Z.ltb_spec prec (ndigits (div_half_even (dcoeff a) (10 ^ k)))) as [H2|H2].
      * simpl. split; [discriminate|]. intros H. exfalso.
        apply Hlt in H.
        assert (ndigits (div_half_even (dcoeff a) (10 ^ k)) <= 28).
        { apply ndigits_le_iff; [lia|]. rewrite Z.abs_eq by lia. exact H. }
        unfold prec in H2. lia.
      * simpl. split; [|reflexivity]. intros _. apply Hlt.
        apply (ndigits_le_iff _ 28 ltac:(lia)) in H2.
        rewrite Z.abs_eq in H2 by lia. exact H2.
Qed.

(** [quantize] to hundredths: the nearest hundredth, never negative,
    positive above half a hundredth. *)
Lemma rescale_cents_near a :
  0 < dcoeff a ->
  (dval a - half_cent <= dval (rescale a (-2)) <= dval a + half_cent)%Q
  /\ 0 <= dcoeff (rescale a (-2))
  /\ ((half_cent < dval a)%Q -> 0 < dcoeff (rescale a (-2))).
Proof.
  intros Hc. unfold half_cent.
  destruct (Z.le_gt_cases (-2) (dexp a)) as [He|He].
  - rewrite rescale_down by lia. cbn [dcoeff].
    pose proof (Z.pow_pos_nonneg 10 (dexp a - -2) ltac:(lia) ltac:(lia)) as Hp.
    assert (Hv : (dval (mkdec (dcoeff a * 10 ^ (dexp a - -2)) (-2)) == dval a)%Q).
    { rewrite dval_shift by lia. destruct a as [c e]; simpl.
      replace (-2 + (e - -2)) with e by lia. reflexivity. }
    rewrite Hv. split; [lra|]. split; [nia|]. intros _. nia.
  - set (k := -2 - dexp a). assert (Hk : 0 < k) by (unfold k; lia).
    pose proof (Z.pow_pos_nonneg 10 k ltac:(lia) ltac:(lia)) as Hpk.
    assert (Hres : rescale a (-2)
                   = mkdec (div_half_even (dcoeff a) (10 ^ k)) (-2)).
    { unfold rescale. destruct (Z.leb_spec (-2) (dexp a)); [lia|].
      rewrite Z.sgn_pos, Z.abs_eq by lia. f_equal. unfold k. lia. }
    rewrite Hres. cbn [dcoeff].
    pose proof (div_half_even_near (dcoeff a) (10 ^ k) ltac:(lia) Hpk) as [Hnear Hnn].
    pose proof (div_half_even_pos_iff (dcoeff a) (10 ^ k) ltac:(lia) Hpk) as Hpos.
    set (r := div_half_even (dcoeff a) (10 ^ k)) in *.
    pose proof (pow10_split (dexp a) k ltac:(lia)) as Hs.
    replace (dexp a + k) with (-2) in Hs by lia. rewrite pow10_neg2 in Hs.
    pose proof (pow10_pos (dexp a)) as Hx.
    assert (HP : (0 < inject_Z (10 ^ k))%Q).
    { change 0%Q with (inject_Z 0). rewrite <- Zlt_Qlt. exact Hpk. }
    assert (Hlow : (- inject_Z (10 ^ k)
                    <= 2 * (inject_Z r * inject_Z (10 ^ k) - inject_Z (dcoeff a)))%Q).
    { rewrite <- inject_Z_mult, <- inject_Z_opp, <- inject_Z_minus.
      change 2%Q with (inject_Z 2).
      rewrite <- inject_Z_mult, <- Zle_Qle. lia. }
    assert (Hupp : (2 * (inject_Z r * inject_Z (10 ^ k) - inject_Z (dcoeff a))
                    <= inject_Z (10 ^ k))%Q).
    { rewrite <- inject_Z_mult, <- inject_Z_minus.
      change 2%Q with (inject_Z 2).
      rewrite <- inject_Z_mult, <- Zle_Qle. lia. }
    unfold dval; cbn [dcoeff dexp]. rewrite pow10_neg2.
    set (x := ((10 # 1) ^ dexp a)%Q) in *.
    set (P := inject_Z (10 ^ k)) in *.
    set (c := inject_Z (dcoeff a)) in *. set (q := inject_Z r) in *.
    assert (Hq : (q * (1 # 100) == q * P * x)%Q) by (rewrite <- Hs; ring).
    assert (Hh : ((1 # 200) == (1 # 2) * P * x)%Q).
    { transitivity ((1 # 2) * (x * P))%Q; [rewrite Hs; reflexivity | ring]. }
    split; [|split; [exact Hnn|]].
    + rewrite Hq, Hh. split; nra.
    + intros Hgt. apply Hpos.
      rewrite Hh in Hgt.
      assert (H2 : (P < 2 * c)%Q) by nra.
      unfold P, c in H2. change 2%Q with (inject_Z 2) in H2.
      rewrite <- inject_Z_mult, <- Zlt_Qlt in H2. exact H2.
Qed.




(** *** Sums *)

Lemma units_nonneg m a : 0 <= dcoeff a -> m <= dexp a -> 0 <= units m a.
Proof.
  intros Hc He. unfold units.
  pose proof (Z.pow_pos_nonneg 10 (dexp a - m) ltac:(lia) ltac:(lia)). nia.
Qed.

Lemma units_nonneg_inv m a : 0 <= units m a -> m <= dexp a -> 0 <= dcoeff a.
Proof.
  unfold units. intros Hu He.
  pose proof (Z.pow_pos_nonneg 10 (dexp a - m) ltac:(lia) ltac:(lia)). nia.
Qed.

Lemma sum_units_nonneg m l :
  Forall (fun a => 0 <= dcoeff a /\ m <= dexp a) l -> 0 <= sum_units m l.
Proof.
  induction 1 as [|a l [Hc He] _ IH]; simpl; [lia|].
  pose proof (units_nonneg m a Hc He). lia.
Qed.

(** Adding up non-negative amounts is exact while the sum has at most 28
    digits at the exponent [m]. *)
Lemma fold_dadd_units m l acc :
  Forall (fun a => 0 <= dcoeff a /\ m <= dexp a) l ->
  0 <= dcoeff acc -> m <= dexp acc ->
  units m acc + sum_units m l < 10 ^ prec ->
  m <= dexp (fold_left dadd l acc)
  /\ units m (fold_left dadd l acc) = units m acc + sum_units m l.
Proof.
  intros Hl. revert acc. induction Hl as [|a l [Hc He] Hl IH]; intros acc Hacc Hea Hb.
  - simpl in *. split; [exact Hea|lia].
  - simpl in Hb |- *.
    pose proof (units_nonneg m a Hc He) as Ha.
    pose proof (units_nonneg m acc Hacc Hea) as Hu.
    pose proof (sum_units_nonneg m l Hl) as Hs.
    destruct (dadd_units m acc a Hea He) as [He' Hu']; [lia|].
    destruct (IH (dadd acc a)) as [H1 H2].
    + apply (units_nonneg_inv m); [lia|exact He'].
    + exact He'.
    + lia.
    + split; [exact H1|lia].
Qed.

Lemma total_units m l :
  m <= 0 ->
  Forall (fun a => 0 <= dcoeff a /\ m <= dexp a) l ->
  sum_units m l < 10 ^ prec ->
  m <= dexp (total l) /\ units m (total l) = sum_units m l.
Proof.
  intros Hm Hl Hb. unfold total.
  assert (H0 : units m dec_zero = 0) by (unfold units; simpl; lia).
  destruct (fold_dadd_units m l dec_zero Hl) as [H1 H2]; simpl; lia.
Qed.

Lemma exact_sum_units m l :
  Forall (fun a => 0 <= dcoeff a /\ m <= dexp a) l ->
  (exact_sum l == inject_Z (sum_units m l) * (10 # 1) ^ m)%Q.
Proof.
  induction 1 as [|a l [Hc He] _ IH]; simpl.
  - ring.
  - rewrite IH, (dval_units m a He), inject_Z_plus. ring.
Qed.

End DecimalFacts.

(** ** Division, and rounding twice *)

Module DivisionFacts.

Import PyDecimal Spec DecimalFacts.

Lemma div_half_even_spec n d :
  0 <= n -> 0 < d ->
  Z.abs (2 * (div_half_even n d * d - n)) <= d
  /\ (Z.abs (2 * (div_half_even n d * d - n)) = d -> Z.even (div_half_even n d) = true).
Proof.
  intros Hn Hd. unfold div_half_even.
  pose proof (Z.div_mod n d ltac:(lia)) as Hdm.
  pose proof (Z.mod_pos_bound n d Hd) as Hm.
  set (q := n / d) in *. set (r := n mod d) in *.
  destruct (Z.ltb_spec d (2 * r)) as [H1|H1]; simpl.
  - split; [nia|]. intros H. exfalso. nia.
  - destruct (Z.eqb_spec d (2 * r)) as [H2|H2]; simpl.
    + destruct (Z.odd q) eqn:Ho.
      * split; [nia|]. intros _. rewrite Z.even_add. 
        rewrite <- Z.negb_odd, Ho. reflexivity.
      * split; [nia|]. intros _. rewrite <- Z.negb_odd, Ho. reflexivity.
    + split; [nia|]. intros H. exfalso. nia.
Qed.

Lemma div_half_even_unique n d k :
  0 <= n -> 0 < d ->
  Z.abs (2 * (k * d - n)) <= d ->
  (Z.abs (2 * (k * d - n)) = d -> Z.even k = true) ->
  div_half_even n d = k.
Proof.
  intros Hn Hd Hk Hke.
  destruct (div_half_even_spec n d Hn Hd) as [Hq Hqe].
  set (q := div_half_even n d) in *.
  destruct (Z.eq_dec q k) as [E|E]; [exact E|exfalso].
  assert (Hcase : q = k + 1 \/ k = q + 1) by nia.
  destruct Hcase as [Hc|Hc].
  - assert (Z.abs (2 * (k * d - n)) = d) by nia.
    assert (Z.abs (2 * (q * d - n)) = d) by nia.
    specialize (Hke H). specialize (Hqe H0).
    rewrite Hc, Z.even_add, Hke in Hqe. discriminate.
  - assert (Z.abs (2 * (k * d - n)) = d) by nia.
    assert (Z.abs (2 * (q * d - n)) = d) by nia.
    specialize (Hke H). specialize (Hqe H0).
    rewrite Hc, Z.even_add, Hqe in Hke. discriminate.
Qed.

Lemma div_half_even_scale n d c :
  0 <= n -> 0 < d -> 0 < c -> div_half_even (n * c) (d * c) = div_half_even n d.
Proof.
  intros Hn Hd Hc. apply div_half_even_unique; try nia.
  - destruct (div_half_even_spec n d Hn Hd) as [Hq _]. nia.
  - destruct (div_half_even_spec n d Hn Hd) as [Hq Hqe]. intros H. apply Hqe. nia.
Qed.

Lemma div_half_even_ratio n1 d1 n2 d2 :
  0 <= n1 -> 0 < d1 -> 0 <= n2 -> 0 < d2 -> n1 * d2 = n2 * d1 ->
  div_half_even n1 d1 = div_half_even n2 d2.
Proof.
  intros H1 H2 H3 H4 He.
  rewrite <- (div_half_even_scale n1 d1 d2) by lia.
  rewrite <- (div_half_even_scale n2 d2 d1) by lia.
  rewrite He. f_equal. lia.
Qed.

(** Rounding [n / (P * K)] in two steps, first to a multiple [u * P] of [P]
    and then to a multiple of [P * K], is rounding once, as long as [n] is
    a midpoint of the coarse grid or farther than [P / 2] from each. *)
Lemma double_rounding n P K u :
  0 <= n -> 0 < P -> 0 < K -> Z.even K = true -> 0 <= u ->
  Z.abs (2 * (u * P - n)) <= P ->
  (forall t, 2 * n <> (2 * t + 1) * (P * K) ->
             P < Z.abs (2 * n - (2 * t + 1) * (P * K))) ->
  div_half_even n (P * K) = div_half_even u K.
Proof.
  intros Hn HP HK Hev Hu Hnear Hfar.
  destruct (div_half_even_spec u K Hu HK) as [Hq Hqe].
  set (k := div_half_even u K) in *.
  apply Z.even_spec in Hev as [K2 HK2].
  assert (Hin : Z.abs (2 * (k * (P * K) - n)) <= P * K).
  { destruct (Z_le_gt_dec (Z.abs (2 * (k * (P * K) - n))) (P * K)) as [H|H]; [exact H|].
    exfalso.
    destruct (Z_le_gt_dec 0 (2 * (k * (P * K) - n))) as [Hs|Hs].
    - assert (Hne : 2 * n <> (2 * (k - 1) + 1) * (P * K)) by nia.
      specialize (Hfar (k - 1) Hne). nia.
    - assert (Hne : 2 * n <> (2 * k + 1) * (P * K)) by nia.
      specialize (Hfar k Hne). nia. }
  apply div_half_even_unique; try nia.
  intros Htie. apply Hqe.
  assert (Hmid : 2 * n = (2 * k - 1) * (P * K) \/ 2 * n = (2 * k + 1) * (P * K)) by nia.
  assert (HuP : u * P = n).
  { destruct Hmid as [Hm|Hm].
    - assert (exists z, u * P - n = z * P) as [z Hz].
      { exists (u - (2 * k - 1) * K2). nia. }
      assert (z = 0) by nia. nia.
    - assert (exists z, u * P - n = z * P) as [z Hz].
      { exists (u - (2 * k + 1) * K2). nia. }
      assert (z = 0) by nia. nia. }
  nia.
Qed.

Lemma ndigits_unique n d :
  1 <= d -> 10 ^ (d - 1) <= Z.abs n < 10 ^ d -> ndigits n = d.
Proof.
  intros Hd [Hlo Hhi].
  assert (Hn : n <> 0).
  { intros ->. simpl in Hlo. pose proof (Z.pow_pos_nonneg 10 (d - 1) ltac:(lia) ltac:(lia)). lia. }
  pose proof (ndigits_bounds n Hn) as [Blo Bhi].
  pose proof (ndigits_pos n) as Hp.
  assert (H1 : 10 ^ (d - 1) < 10 ^ ndigits n) by lia.
  assert (H2 : 10 ^ (ndigits n - 1) < 10 ^ d) by lia.
  apply Z.pow_lt_mono_r_iff in H1; [|lia|lia].
  apply Z.pow_lt_mono_r_iff in H2; [|lia|lia].
  lia.
Qed.

Lemma ndigits_mul_pow10 c k :
  c <> 0 -> 0 <= k -> ndigits (c * 10 ^ k) = ndigits c + k.
Proof.
  intros Hc Hk. pose proof (ndigits_bounds c Hc) as [Blo Bhi].
  pose proof (ndigits_pos c) as Hp.
  pose proof (Z.pow_pos_nonneg 10 k ltac:(lia) Hk) as Hpk.
  apply ndigits_unique; [lia|].
  rewrite Z.abs_mul, (Z.abs_eq (10 ^ k)) by lia.
  replace (ndigits c + k - 1) with ((ndigits c - 1) + k) by lia.
  rewrite !Z.pow_add_r by lia. nia.
Qed.

Lemma div_half_even_le n d B :
  0 <= n -> 0 < d -> n <= B * d -> div_half_even n d <= B.
Proof.
  intros Hn Hd Hb. destruct (div_half_even_spec n d Hn Hd) as [Hq _]. nia.
Qed.

Lemma div_half_even_ge n d B :
  0 <= n -> 0 < d -> B * d <= n -> B <= div_half_even n d.
Proof.
  intros Hn Hd Hb. destruct (div_half_even_spec n d Hn Hd) as [Hq _]. nia.
Qed.

Lemma abs_sgn_mul c m : c <> 0 -> 0 <= m -> Z.abs (Z.sgn c * m) = m.
Proof. intros Hc Hm. destruct c; simpl; lia. Qed.

(** [_fix] on a coefficient of [28 + j] digits: the coefficient at the
    exponent raised by [j] is the rounded quotient by [10^j]. *)
Lemma fix_round a j :
  0 < j -> ndigits (dcoeff a) = prec + j ->
  let E := dexp a + j in
  let m := div_half_even (Z.abs (dcoeff a)) (10 ^ j) in
  E <= dexp (fix_ a)
  /\ units E (fix_ a) = Z.sgn (dcoeff a) * m
  /\ 10 ^ 27 <= m <= 10 ^ 28
  /\ ndigits (dcoeff (fix_ a)) <= prec.
Proof.
  intros Hj Hnd E m.
  assert (Hc : dcoeff a <> 0).
  { intros H0. rewrite H0 in Hnd. change (ndigits 0) with 1 in Hnd. unfold prec in Hnd. lia. }
  pose proof (ndigits_bounds (dcoeff a) Hc) as [Blo Bhi]. rewrite Hnd in Blo, Bhi.
  pose proof (Z.pow_pos_nonneg 10 j ltac:(lia) ltac:(lia)) as Hpj.
  assert (Hm : 10 ^ 27 <= m <= 10 ^ 28).
  { unfold m. split.
    - apply div_half_even_ge; [lia|lia|].
      replace (prec + j - 1) with (27 + j) in Blo by (unfold prec; lia).
      rewrite Z.pow_add_r in Blo by lia. lia.
    - apply div_half_even_le; [lia|lia|].
      replace (prec + j) with (28 + j) in Bhi by (unfold prec; lia).
      rewrite Z.pow_add_r in Bhi by lia. lia. }
  unfold fix_. destruct (Z.leb_spec (ndigits (dcoeff a)) prec) as [H|H]; [lia|].
  rewrite Hnd. replace (dexp a + (prec + j) - prec) with E by (unfold E; lia).
  assert (Hr : rescale a E = mkdec (Z.sgn (dcoeff a) * m) E).
  { unfold rescale. destruct (Z.leb_spec E (dexp a)); [unfold E in *; lia|].
    unfold m. replace (E - dexp a) with j by (unfold E; lia). reflexivity. }
  rewrite Hr. cbn [dcoeff dexp].
  destruct (Z.leb_spec (ndigits (Z.sgn (dcoeff a) * m)) prec) as [H1|H1].
  - cbn [dcoeff dexp]. unfold units; cbn [dcoeff dexp].
    rewrite Z.sub_diag, Z.pow_0_r. repeat split; try lia.
  - assert (Hm28 : m = 10 ^ 28).
    { destruct (Z.eq_dec m (10 ^ 28)) as [e|ne]; [exact e|exfalso].
      assert (ndigits (Z.sgn (dcoeff a) * m) <= 28).
      { apply ndigits_le_iff; [lia|]. rewrite abs_sgn_mul by lia. lia. }
      unfold prec in H1. lia. }
    cbn [dcoeff dexp]. rewrite Hm28.
    assert (Hdiv : Z.sgn (dcoeff a) * 10 ^ 28 / 10 = Z.sgn (dcoeff a) * 10 ^ 27).
    { replace (Z.sgn (dcoeff a) * 10 ^ 28) with (Z.sgn (dcoeff a) * 10 ^ 27 * 10) by lia.
      apply Z.div_mul. lia. }
    rewrite Hdiv. unfold units; cbn [dcoeff dexp].
    replace (E + 1 - E) with 1 by lia.
    split; [lia|]. split; [lia|]. split; [lia|].
    apply ndigits_le_iff; [unfold prec; lia|].
    rewrite abs_sgn_mul by lia. unfold prec. lia.
Qed.

Lemma fix_digits a : ndigits (dcoeff (fix_ a)) <= prec.
Proof.
  destruct (Z.le_gt_cases (ndigits (dcoeff a)) prec) as [H|H].
  - rewrite fix_small by exact H. exact H.
  - destruct (fix_round a (ndigits (dcoeff a) - prec)) as (_ & _ & _ & Hd); lia.
Qed.

Lemma strip_zeros_spec fuel coeff exp ideal :
  let r := strip_zeros fuel coeff exp ideal in
  exp <= r.2 /\ coeff = r.1 * 10 ^ (r.2 - exp).
Proof.
  revert coeff exp. induction fuel as [|f IH]; intros coeff exp; simpl.
  - rewrite Z.sub_diag. lia.
  - destruct (Z.ltb_spec exp ideal) as [H1|H1]; simpl; [|rewrite Z.sub_diag; lia].
    destruct (Z.eqb_spec (coeff mod 10) 0) as [H2|H2]; simpl; [|rewrite Z.sub_diag; lia].
    destruct (IH (coeff / 10) (exp + 1)) as [He Hc]. split; [lia|].
    replace (((strip_zeros f (coeff / 10) (exp + 1) ideal).2) - exp)
      with (Z.succ ((strip_zeros f (coeff / 10) (exp + 1) ideal).2 - (exp + 1))) by lia.
    rewrite Z.pow_succ_r by lia.
    pose proof (Z.div_mod coeff 10 ltac:(lia)) as Hdm. rewrite H2 in Hdm. nia.
Qed.

Lemma ndigits_abs_eq c : ndigits (Z.abs c) = ndigits c.
Proof. unfold ndigits. rewrite Z.abs_idemp. reflexivity. Qed.

Lemma ndigits_sgn_mul a c : a <> 0 -> ndigits (Z.sgn a * c) = ndigits c.
Proof.
  intros Ha. unfold ndigits.
  replace (Z.abs (Z.sgn a * c)) with (Z.abs c) by (destruct a; simpl; lia).
  reflexivity.
Qed.

Lemma sgn_sgn_mul a c : 0 < c -> Z.sgn (Z.sgn a * c) = Z.sgn a.
Proof. intros Hc. destruct a; simpl; lia. Qed.

Lemma ddiv_digits a d : ndigits (dcoeff (ddiv a d)) <= prec.
Proof.
  unfold ddiv. destruct (dcoeff a =? 0); [apply fix_digits|].
  match goal with |- context [negb ?b] => destruct b end; simpl.
  - destruct (strip_zeros _ _ _ _) as [c e]. apply fix_digits.
  - apply fix_digits.
Qed.

Lemma pow10_j j : 1 <= j <= 2 -> 10 ^ j = 10 \/ 10 ^ j = 100.
Proof. intros H. assert (j = 1 \/ j = 2) as [->| ->] by lia; auto. Qed.

Lemma near_exact q P coeff B n :
  n = coeff * B -> 0 < B ->
  Z.abs (2 * (q * P - coeff)) <= P ->
  Z.abs (2 * (q * (P * B) - n)) <= P * B.
Proof.
  intros -> HB H.
  replace (2 * (q * (P * B) - coeff * B)) with (2 * (q * P - coeff) * B) by ring.
  rewrite Z.abs_mul, (Z.abs_eq B) by lia.
  apply Z.mul_le_mono_nonneg_r; lia.
Qed.

Lemma near_sticky q P coeff c' r B n :
  n = coeff * B + r -> 0 < r < B -> coeff <= c' <= coeff + 1 ->
  Z.abs (2 * (q * P - c')) <= P - 2 ->
  Z.abs (2 * (q * (P * B) - n)) <= P * B.
Proof.
  intros -> Hr Hc H.
  set (x := q * P - c') in *.
  replace (2 * (q * (P * B) - (coeff * B + r)))
    with (2 * x * B + 2 * ((c' - coeff) * B - r)) by (unfold x; ring).
  assert (Hx : Z.abs (2 * x * B) <= (P - 2) * B).
  { rewrite Z.abs_mul, (Z.abs_eq B) by lia. apply Z.mul_le_mono_nonneg_r; lia. }
  assert (Hy : Z.abs (2 * ((c' - coeff) * B - r)) <= 2 * B).
  { assert (c' - coeff = 0 \/ c' - coeff = 1) as [-> | ->] by lia; lia. }
  clearbody x. lia.
Qed.

(** The quotient of [__truediv__]: at the exponent [E] it is the
    coefficient [m], within half a unit of the exact quotient. *)
Lemma ddiv_round a d shift :
  dcoeff a <> 0 -> 0 < dcoeff d ->
  shift = ndigits (dcoeff d) - ndigits (dcoeff a) + prec + 1 ->
  0 <= shift ->
  exists j m,
    1 <= j <= 2
    /\ dexp a - dexp d - shift + j <= dexp (ddiv a d)
    /\ units (dexp a - dexp d - shift + j) (ddiv a d) = Z.sgn (dcoeff a) * m
    /\ 10 ^ 27 <= m <= 10 ^ 28
    /\ Z.abs (2 * (m * (10 ^ j * dcoeff d) - Z.abs (dcoeff a) * 10 ^ shift))
       <= 10 ^ j * dcoeff d
    /\ 10 ^ (27 + j) * dcoeff d <= Z.abs (dcoeff a) * 10 ^ shift.
Proof.
  intros Ha Hd Hsh Hshift.
  assert (Hcode : ndigits (dcoeff d) - ndigits (dcoeff a) + prec + 1 = shift)
    by (symmetry; exact Hsh).
  unfold ddiv. rewrite Hcode. clear Hcode.
  set (B := dcoeff d) in *. set (A := Z.abs (dcoeff a)) in *.
  pose proof (ndigits_bounds (dcoeff a) Ha) as [Alo Ahi]. fold A in Alo, Ahi.
  pose proof (ndigits_bounds B ltac:(lia)) as [Blo Bhi].
  rewrite (Z.abs_eq B) in Blo, Bhi by lia.
  pose proof (ndigits_pos (dcoeff a)) as HnA. pose proof (ndigits_pos B) as HnB.
  assert (HA : 0 < A) by (unfold A; lia).
  set (n := A * 10 ^ shift).
  pose proof (Z.pow_pos_nonneg 10 shift ltac:(lia) Hshift) as Hps.
  assert (Hnlo : 10 ^ 28 * B < n).
  { unfold n.
    assert (10 ^ (ndigits (dcoeff a) - 1) * 10 ^ shift <= A * 10 ^ shift) by nia.
    rewrite <- Z.pow_add_r in H by lia.
    replace (ndigits (dcoeff a) - 1 + shift) with (28 + ndigits B)
      in H by (unfold prec in Hsh; lia).
    rewrite Z.pow_add_r in H by lia.
    assert (10 ^ 28 * B < 10 ^ 28 * 10 ^ ndigits B)
      by (apply Z.mul_lt_mono_pos_l; lia).
    lia. }
  assert (Hnhi : n < 10 ^ 30 * B).
  { unfold n.
    assert (A * 10 ^ shift < 10 ^ ndigits (dcoeff a) * 10 ^ shift) by nia.
    rewrite <- Z.pow_add_r in H by lia.
    replace (ndigits (dcoeff a) + shift) with (30 + (ndigits B - 1))
      in H by (unfold prec in Hsh; lia).
    rewrite Z.pow_add_r in H by lia.
    assert (10 ^ 30 * 10 ^ (ndigits B - 1) <= 10 ^ 30 * B)
      by (apply Z.mul_le_mono_nonneg_l; lia).
    lia. }
  pose proof (Z.div_mod n B ltac:(lia)) as Hdm.
  pose proof (Z.mod_pos_bound n B ltac:(lia)) as Hmod.
  set (coeff := n / B) in *. set (r := n mod B) in *.
  assert (Hclo : 10 ^ 28 <= coeff) by nia.
  assert (Hchi : coeff < 10 ^ 30) by nia.
  set (j := ndigits coeff - 28).
  pose proof (ndigits_bounds coeff ltac:(lia)) as [Clo Chi].
  rewrite Z.abs_eq in Clo, Chi by lia.
  assert (Hj : 1 <= j <= 2).
  { unfold j. split.
    - assert (~ ndigits coeff <= 28); [|lia]. intros H.
      apply ndigits_le_iff in H; [|lia]. lia.
    - assert (ndigits coeff <= 30); [|lia].
      apply ndigits_le_iff; [lia|]. lia. }
  assert (Hndc : ndigits coeff = 28 + j) by (unfold j; lia).
  rewrite Hndc in Clo, Chi.
  replace (28 + j - 1) with (27 + j) in Clo by lia.
  pose proof (Z.pow_pos_nonneg 10 j ltac:(lia) ltac:(lia)) as Hpj.
  assert (Hsgn : Z.sgn (dcoeff a) * Z.sgn B = Z.sgn (dcoeff a)).
  { rewrite (Z.sgn_pos B) by lia. lia. }
  assert (Hlow : 10 ^ (27 + j) * B <= n) by nia.
  exists j.
  rewrite Hsgn.
  destruct (Z.eqb_spec (dcoeff a) 0) as [?|_]; [contradiction|].
  destruct (Z.leb_spec 0 shift) as [_|?]; [|lia].
  rewrite (Z.abs_eq B) by lia. fold n. fold coeff. fold r.
  set (exp := dexp a - dexp d - shift).
  destruct (Z.eqb_spec r 0) as [Hr|Hr]; cbn [negb].
  - (* exact quotient *)
    pose proof (strip_zeros_spec (Z.to_nat (ndigits coeff)) coeff exp (dexp a - dexp d)) as Hs.
    destruct (strip_zeros _ coeff exp _) as [c e]. cbn [fst snd] in Hs. destruct Hs as [He Hc].
    assert (Hcpos : 0 < c).
    { pose proof (Z.pow_pos_nonneg 10 (e - exp) ltac:(lia) ltac:(lia)). nia. }
    assert (Hnd : ndigits coeff = ndigits c + (e - exp)).
    { rewrite Hc at 1. apply ndigits_mul_pow10; lia. }
    destruct (Z.le_gt_cases (ndigits c) prec) as [Hsmall|Hbig].
    + rewrite fix_small by (cbn [dcoeff]; rewrite ndigits_sgn_mul; lia).
      cbn [dexp dcoeff]. unfold prec in Hsmall.
      assert (Hej : exp + j <= e) by lia.
      exists (c * 10 ^ (e - (exp + j))).
      assert (Hm : c * 10 ^ (e - (exp + j)) * 10 ^ j = coeff).
      { rewrite <- Z.mul_assoc, <- Z.pow_add_r by lia.
        replace (e - (exp + j) + j) with (e - exp) by lia. symmetry. exact Hc. }
      pose proof (Z.pow_pos_nonneg 10 (e - (exp + j)) ltac:(lia) ltac:(lia)) as Hpe.
      split; [exact Hj|]. split; [lia|]. split.
      { unfold units; cbn [dcoeff dexp]. lia. }
      split.
      { rewrite Z.pow_add_r in Clo by lia.
        replace (10 ^ (28 + j)) with (10 ^ 28 * 10 ^ j) in Chi by (rewrite <- Z.pow_add_r by lia; reflexivity).
        nia. }
      split; [|exact Hlow].
      replace (c * 10 ^ (e - (exp + j)) * (10 ^ j * B)) with (coeff * B) by nia.
      nia.
    + set (j' := ndigits c - prec).
      destruct (fix_round (mkdec (Z.sgn (dcoeff a) * c) e) j') as (H1 & H2 & H3 & _).
      * unfold j'. lia.
      * cbn [dcoeff]. rewrite ndigits_sgn_mul by lia. unfold j'. lia.
      * cbn [dcoeff dexp] in H1, H2, H3.
        rewrite abs_sgn_mul in H2, H3 by lia.
        rewrite sgn_sgn_mul in H2 by lia.
        assert (Hjj : e + j' = exp + j) by (unfold j', prec in *; lia).
        rewrite Hjj in H1, H2.
        exists (div_half_even c (10 ^ j')).
        split; [exact Hj|]. split; [exact H1|]. split; [exact H2|]. split; [exact H3|].
        split; [|exact Hlow].
        assert (Hsc : div_half_even c (10 ^ j') = div_half_even coeff (10 ^ j)).
        { rewrite Hc. replace j with (j' + (e - exp)) by lia.
          rewrite Z.pow_add_r by (unfold j'; lia).
          symmetry. apply div_half_even_scale; try lia.
          all: apply Z.pow_pos_nonneg; unfold j'; lia. }
        rewrite Hsc.
        destruct (div_half_even_spec coeff (10 ^ j) ltac:(lia) Hpj) as [Hq _].
        apply (near_exact _ _ coeff); [lia|lia|exact Hq].
  - (* inexact quotient: the sticky digit *)
    set (c' := if coeff mod 5 =? 0 then coeff + 1 else coeff).
    pose proof (Z.div_mod coeff 5 ltac:(lia)) as H5.
    pose proof (Z.mod_pos_bound coeff 5 ltac:(lia)) as H5b.
    assert (Hc5 : c' mod 5 <> 0 /\ coeff <= c' <= coeff + 1 /\ c' < 10 ^ (28 + j)).
    { unfold c'. destruct (Z.eqb_spec (coeff mod 5) 0) as [E5|E5].
      - split; [|split; [lia|]].
        + replace (coeff + 1) with (1 + (coeff / 5) * 5) by lia.
          rewrite Z.mod_add by lia. discriminate.
        + destruct (pow10_j j Hj) as [Hp|Hp];
            rewrite Z.pow_add_r, Hp in * by lia;
            change (10 ^ 28) with 10000000000000000000000000000 in *; lia.
      - split; [exact E5|lia]. }
    destruct Hc5 as (Hc5 & Hcc & Hc'hi).
    assert (Hc'pos : 0 < c') by lia.
    assert (Hndc' : ndigits c' = prec + j).
    { apply ndigits_unique; [unfold prec; lia|]. rewrite Z.abs_eq by lia.
      replace (prec + j - 1) with (27 + j) by (unfold prec; lia).
      unfold prec. lia. }
    destruct (fix_round (mkdec (Z.sgn (dcoeff a) * c') exp) j) as (H1 & H2 & H3 & _).
    + lia.
    + cbn [dcoeff]. rewrite ndigits_sgn_mul by lia. exact Hndc'.
    + cbn [dcoeff dexp] in H1, H2, H3.
      rewrite abs_sgn_mul in H2, H3 by lia.
      rewrite sgn_sgn_mul in H2 by lia.
      exists (div_half_even c' (10 ^ j)).
      split; [exact Hj|]. split; [exact H1|]. split; [exact H2|]. split; [exact H3|].
      split; [|exact Hlow].
      destruct (div_half_even_spec c' (10 ^ j) ltac:(lia) Hpj) as [Hq _].
      set (m := div_half_even c' (10 ^ j)) in *.
      pose proof (Z.div_mod c' 5 ltac:(lia)) as H5'.
      pose proof (Z.mod_pos_bound c' 5 ltac:(lia)) as H5b'.
      assert (Hstrict : Z.abs (2 * (m * 10 ^ j - c')) <= 10 ^ j - 2).
      { destruct (pow10_j j Hj) as [Hp|Hp]; rewrite Hp in *; lia. }
      assert (Hr' : 0 < r < B) by lia.
      apply (near_sticky m (10 ^ j) coeff c' r); [lia|exact Hr'|exact Hcc|exact Hstrict].
Qed.

Lemma units_shift E E' a :
  E <= E' -> E' <= dexp a -> units E a = units E' a * 10 ^ (E' - E).
Proof.
  intros H1 H2. unfold units. rewrite <- Z.mul_assoc, <- Z.pow_add_r by lia.
  f_equal. f_equal. lia.
Qed.

(** Multiplying a rounded quotient by [Decimal("100")] is exact. *)
Lemma dmul_hundred_units E q :
  E <= dexp q -> dcoeff q <> 0 -> ndigits (dcoeff q) <= prec ->
  E <= dexp (dmul q dec_hundred)
  /\ units E (dmul q dec_hundred) = 100 * units E q.
Proof.
  intros HE Hq Hnd. unfold dmul, dec_hundred; cbn [dcoeff dexp].
  rewrite Z.add_0_r.
  assert (Hd : ndigits (dcoeff q * 100) = ndigits (dcoeff q) + 2).
  { change 100 with (10 ^ 2). apply ndigits_mul_pow10; lia. }
  destruct (Z.le_gt_cases (ndigits (dcoeff q * 100)) prec) as [Hs|Hb].
  - rewrite fix_small by exact Hs. cbn [dexp]. split; [exact HE|].
    unfold units; cbn [dcoeff dexp]. lia.
  - set (j := ndigits (dcoeff q) + 2 - prec).
    destruct (fix_round (mkdec (dcoeff q * 100) (dexp q)) j) as (H1 & H2 & _).
    + unfold j. lia.
    + cbn [dcoeff]. unfold j. lia.
    + cbn [dcoeff dexp] in H1, H2.
      assert (Hj : 1 <= j <= 2) by (unfold j; lia).
      split; [lia|].
      rewrite (units_shift E (dexp q + j)) by lia. rewrite H2.
      assert (Hex : div_half_even (Z.abs (dcoeff q * 100)) (10 ^ j)
                    = Z.abs (dcoeff q) * 10 ^ (2 - j)).
      { rewrite Z.abs_mul. change (Z.abs 100) with (10 ^ 2).
        replace (10 ^ 2) with (10 ^ (2 - j) * 10 ^ j)
          by (rewrite <- Z.pow_add_r by lia; f_equal; lia).
        rewrite Z.mul_assoc. apply div_half_even_exact.
        apply Z.pow_pos_nonneg; lia. }
      rewrite Hex. unfold units.
      replace (Z.sgn (dcoeff q * 100)) with (Z.sgn (dcoeff q)) by (destruct (dcoeff q); reflexivity).
      replace (dexp q + j - E) with (j + (dexp q - E)) by lia.
      rewrite Z.pow_add_r by lia.
      assert (H10 : 10 ^ (2 - j) * 10 ^ j = 100).
      { rewrite <- Z.pow_add_r by lia. replace (2 - j + j) with 2 by lia. reflexivity. }
      assert (Hsa : Z.sgn (dcoeff q) * Z.abs (dcoeff q) = dcoeff q) by lia.
      nia.
Qed.

(** [_rescale] in terms of the coefficient at a lower exponent. *)
Lemma rescale_round E p exp :
  E <= dexp p -> E <= exp ->
  dcoeff (rescale p exp)
  = Z.sgn (dcoeff p) * div_half_even (Z.abs (units E p)) (10 ^ (exp - E)).
Proof.
  intros H1 H2. unfold rescale, units. rewrite Z.abs_mul.
  pose proof (Z.pow_pos_nonneg 10 (dexp p - E) ltac:(lia) ltac:(lia)) as Hp1.
  pose proof (Z.pow_pos_nonneg 10 (exp - E) ltac:(lia) ltac:(lia)) as Hp2.
  rewrite (Z.abs_eq (10 ^ (dexp p - E))) by lia.
  destruct (Z.leb_spec exp (dexp p)) as [H|H]; cbn [dcoeff].
  - replace (10 ^ (dexp p - E)) with (10 ^ (dexp p - exp) * 10 ^ (exp - E))
      by (rewrite <- Z.pow_add_r by lia; f_equal; lia).
    rewrite Z.mul_assoc, div_half_even_exact by lia.
    rewrite Z.mul_assoc. f_equal. lia.
  - f_equal.
    replace (10 ^ (exp - E)) with (10 ^ (exp - dexp p) * 10 ^ (dexp p - E))
      by (rewrite <- Z.pow_add_r by lia; f_equal; lia).
    symmetry. apply div_half_even_scale; lia.
Qed.

Lemma even_pow10 k : 1 <= k -> Z.even (10 ^ k) = true.
Proof.
  intros Hk. replace k with (Z.succ (k - 1)) by lia.
  rewrite Z.pow_succ_r by lia. rewrite Z.even_mul. reflexivity.
Qed.

(** The quotient has 28 digits and the numerator fewer than 23, so the
    exponent of the quotient lies below the hundredths by more digits than
    the denominator has. *)
Lemma exponent_gap A B alpha shift j :
  0 < A -> 0 < B -> 0 <= alpha -> 0 <= shift -> 0 <= j ->
  A * 10 ^ alpha < 10 ^ 22 ->
  10 ^ (27 + j) * B <= A * 10 ^ shift ->
  27 + j + alpha < 22 + shift /\ B < 10 ^ (shift - 5 - j - alpha).
Proof.
  intros HA HB Hal Hsh Hj HN Hlow.
  pose proof (Z.pow_pos_nonneg 10 alpha ltac:(lia) Hal) as Hpa.
  pose proof (Z.pow_pos_nonneg 10 shift ltac:(lia) Hsh) as Hps.
  pose proof (Z.pow_pos_nonneg 10 (27 + j) ltac:(lia) ltac:(lia)) as Hpj.
  assert (Hgap : 10 ^ (27 + j + alpha) * B < 10 ^ (22 + shift)).
  { rewrite (Z.pow_add_r 10 (27 + j) alpha), (Z.pow_add_r 10 22 shift) by lia.
    set (x := 10 ^ (27 + j)) in *. set (y := 10 ^ alpha) in *.
    set (z := 10 ^ shift) in *. set (w := 10 ^ 22) in *.
    clearbody x y z w. clear - HA HB Hpa Hps Hpj HN Hlow.
    apply Z.le_lt_trans with (A * z * y).
    - replace (x * y * B) with (x * B * y) by ring.
      apply Z.mul_le_mono_nonneg_r; lia.
    - replace (A * z * y) with (A * y * z) by ring.
      apply Z.mul_lt_mono_pos_r; lia. }
  pose proof (Z.pow_pos_nonneg 10 (27 + j + alpha) ltac:(lia) ltac:(lia)) as Hpq.
  assert (Hdelta : 27 + j + alpha < 22 + shift).
  { apply (Z.pow_lt_mono_r_iff 10); [lia|lia|].
    apply Z.le_lt_trans with (10 ^ (27 + j + alpha) * B); [|exact Hgap].
    set (x := 10 ^ (27 + j + alpha)) in *. clearbody x.
    clear - HB Hpq. rewrite <- (Z.mul_1_r x) at 1.
    apply Z.mul_le_mono_nonneg_l; lia. }
  split; [exact Hdelta|].
  replace (22 + shift) with ((27 + j + alpha) + (shift - 5 - j - alpha)) in Hgap by lia.
  rewrite (Z.pow_add_r 10 (27 + j + alpha)) in Hgap by lia.
  apply Z.mul_lt_mono_pos_l in Hgap; [exact Hgap|exact Hpq].
Qed.

(** A coefficient whose value at a lower exponent is at most 10^30 has few
    enough digits for [quantize] to accept it. *)
Lemma digits_gap c t kappa :
  1 <= c -> 0 <= t -> 1 <= kappa -> c * 10 ^ t <= 10 ^ 30 ->
  t <= 30 /\ c < 10 ^ (30 + kappa - t).
Proof.
  intros Hc Ht Hk H.
  pose proof (Z.pow_pos_nonneg 10 t ltac:(lia) Ht) as Hpt.
  assert (Ht30 : t <= 30).
  { apply (Z.pow_le_mono_r_iff 10); [lia|lia|].
    apply Z.le_trans with (c * 10 ^ t); [|exact H].
    set (x := 10 ^ t) in *. clearbody x. clear - Hc Hpt.
    rewrite <- (Z.mul_1_l x) at 1. apply Z.mul_le_mono_nonneg_r; lia. }
  split; [exact Ht30|].
  apply (Z.mul_lt_mono_pos_r (10 ^ t)); [exact Hpt|].
  rewrite <- Z.pow_add_r by lia.
  replace (30 + kappa - t + t) with (30 + kappa) by lia.
  apply Z.le_lt_trans with (10 ^ 30); [exact H|].
  apply Z.pow_lt_mono_r; lia.
Qed.

(** [round(p, 2)] for a product [p] of 28 to 30 digits whose last digit lies
    at least one place below the ten-thousandths: it succeeds, and rounds
    the leading 28 digits half-even. *)
Lemma round_two_places p E kappa m :
  E = -4 - kappa -> 1 <= kappa -> E <= dexp p -> dcoeff p <> 0 ->
  Z.abs (units E p) = m * 100 -> 10 ^ 27 <= m <= 10 ^ 28 ->
  round_ p 2 = Ok (rescale p (-2))
  /\ dcoeff (rescale p (-2))
     = Z.sgn (dcoeff p) * div_half_even m (10 ^ kappa).
Proof.
  intros HE Hk HEp Hcp Habsu Hm.
  pose proof (Z.pow_pos_nonneg 10 kappa ltac:(lia) ltac:(lia)) as HK.
  assert (HK10 : 10 <= 10 ^ kappa).
  { change 10 with (10 ^ 1) at 1. apply Z.pow_le_mono_r; lia. }
  assert (Hres : dcoeff (rescale p (-2))
                 = Z.sgn (dcoeff p) * div_half_even m (10 ^ kappa)).
  { rewrite (rescale_round E p (-2)) by lia. rewrite Habsu. f_equal.
    replace (-2 - E) with (kappa + 2) by lia.
    rewrite Z.pow_add_r by lia. change (10 ^ 2) with 100.
    apply div_half_even_scale; lia. }
  assert (Hdhe : 0 <= div_half_even m (10 ^ kappa) <= 10 ^ 27).
  { split.
    - apply div_half_even_ge; lia.
    - apply div_half_even_le; [lia|lia|].
      apply Z.le_trans with (10 ^ 27 * 10); [lia|].
      apply Z.mul_le_mono_nonneg_l; lia. }
  split; [|exact Hres].
  unfold round_, quantize. change (- (2)) with (-2).
  destruct (Z.eqb_spec (dcoeff p) 0) as [?|_]; [contradiction|].
  assert (Hadj : adjusted p - -2 + 1 <= prec).
  { unfold adjusted, prec.
    assert (Hc1 : 1 <= Z.abs (dcoeff p)) by lia.
    assert (Hle : Z.abs (dcoeff p) * 10 ^ (dexp p - E) <= 10 ^ 30).
    { unfold units in Habsu.
      rewrite Z.abs_mul, (Z.abs_eq (10 ^ _)) in Habsu
        by (apply Z.pow_nonneg; lia).
      rewrite Habsu. change (10 ^ 30) with (10 ^ 28 * 100). clear - Hm. lia. }
    destruct (digits_gap _ (dexp p - E) kappa Hc1 ltac:(lia) Hk Hle) as [Ht30 Hlt].
    assert (ndigits (dcoeff p) <= 26 - dexp p); [|lia].
    apply ndigits_le_iff; [lia|].
    replace (26 - dexp p) with (30 + kappa - (dexp p - E)) by lia.
    exact Hlt. }
  destruct (Z.ltb_spec prec (adjusted p - -2 + 1)) as [?|_]; [lia|].
  assert (Hnd2 : ndigits (dcoeff (rescale p (-2))) <= prec).
  { rewrite Hres. rewrite ndigits_sgn_mul by exact Hcp.
    apply ndigits_le_iff; [unfold prec; lia|]. unfold prec.
    clear - Hdhe. lia. }
  destruct (Z.ltb_spec prec (ndigits (dcoeff (rescale p (-2))))) as [?|_]; [lia|].
  rewrite fix_small by exact Hnd2. reflexivity.
Qed.

(** A quotient with a denominator below [K] is never within [P] of an odd
    multiple of [P * K / 2], unless it is one. *)
Lemma far_from_midpoints n P K C Dc :
  0 < P -> 0 < Dc -> Dc < K -> n * Dc = C * (P * K) ->
  forall t, 2 * n <> (2 * t + 1) * (P * K) ->
            P < Z.abs (2 * n - (2 * t + 1) * (P * K)).
Proof.
  intros HPpos HDpos HKDc Hratio t Hne.
  assert (HKpos : 0 < K) by lia.
  assert (HPK : 0 < P * K) by (apply Z.mul_pos_pos; assumption).
  set (PK := P * K) in *.
  assert (Hnz : 2 * C - (2 * t + 1) * Dc <> 0).
  { intros Hz. apply Hne.
    assert (Hx : (2 * n) * Dc = ((2 * t + 1) * PK) * Dc).
    { replace (2 * n * Dc) with (2 * (n * Dc)) by ring. rewrite Hratio.
      replace (2 * (C * PK)) with ((2 * C) * PK) by ring.
      replace (2 * C) with ((2 * t + 1) * Dc) by lia. ring. }
    apply Z.mul_cancel_r in Hx; lia. }
  assert (Hid : (2 * n - (2 * t + 1) * PK) * Dc
                = PK * (2 * C - (2 * t + 1) * Dc)).
  { replace ((2 * n - (2 * t + 1) * PK) * Dc)
      with (2 * (n * Dc) - (2 * t + 1) * PK * Dc) by ring.
    rewrite Hratio. ring. }
  assert (Habs : PK <= Z.abs (2 * n - (2 * t + 1) * PK) * Dc).
  { replace (Z.abs (2 * n - (2 * t + 1) * PK) * Dc)
      with (Z.abs ((2 * n - (2 * t + 1) * PK) * Dc))
      by (rewrite Z.abs_mul, (Z.abs_eq Dc) by lia; reflexivity).
    rewrite Hid, Z.abs_mul, (Z.abs_eq PK) by lia.
    assert (H1 : 1 <= Z.abs (2 * C - (2 * t + 1) * Dc)) by lia.
    rewrite <- (Z.mul_1_r PK) at 1.
    apply Z.mul_le_mono_nonneg_l; lia. }
  set (X := Z.abs (2 * n - (2 * t + 1) * PK)) in *.
  assert (HX : 0 <= X) by (unfold X; lia).
  destruct (Z_lt_le_dec P X) as [?|HXP]; [assumption|exfalso].
  assert (X * Dc < PK); [|lia].
  apply Z.le_lt_trans with (P * Dc).
  - apply Z.mul_le_mono_nonneg_r; lia.
  - unfold PK. apply Z.mul_lt_mono_pos_l; assumption.
Qed.

(** The ROI expression of [_rebuild_summary] and [round(roi, 2)], for a
    numerator [a] below 10^20 in value: the result is the quotient of the
    hundredths, times 100, rounded half-even to hundredths. *)
Lemma roi_rounded a d :
  -2 <= dexp a -> -2 <= dexp d -> 0 < dcoeff d ->
  Z.abs (units (-2) a) < 10 ^ 22 ->
  exists R,
    round_ (dmul (ddiv a d) dec_hundred) 2 = Ok R
    /\ dexp R = -2
    /\ dcoeff R
       = Z.sgn (dcoeff a)
         * div_half_even (10 ^ 4 * Z.abs (units (-2) a)) (units (-2) d).
Proof.
  intros Hea Hed Hd HN.
  destruct (Z.eq_dec (dcoeff a) 0) as [Ha0|Ha].
  - exists (mkdec 0 (-2)).
    unfold ddiv. rewrite Ha0. cbn [Z.eqb].
    rewrite fix_small by (cbn [dcoeff]; change (ndigits 0) with 1; unfold prec; lia).
    unfold dmul; cbn [dcoeff dexp]. rewrite Z.mul_0_l.
    rewrite fix_small by (cbn [dcoeff]; change (ndigits 0) with 1; unfold prec; lia).
    unfold round_, quantize; cbn [dcoeff Z.eqb].
    rewrite fix_small by (cbn [dcoeff]; change (ndigits 0) with 1; unfold prec; lia).
    split; [reflexivity|]. split; reflexivity.
  - remember (dexp a + 2) as alpha eqn:Halpha.
    remember (dexp d + 2) as beta eqn:Hbeta.
    remember (Z.abs (dcoeff a)) as A eqn:HAdef.
    remember (dcoeff d) as B eqn:HBdef.
    assert (Hal : 0 <= alpha) by lia.
    assert (Hbe : 0 <= beta) by lia.
    assert (HA : 0 < A) by lia.
    pose proof (Z.pow_pos_nonneg 10 alpha ltac:(lia) Hal) as Hpa.
    pose proof (Z.pow_pos_nonneg 10 beta ltac:(lia) Hbe) as Hpb.
    assert (HN' : Z.abs (units (-2) a) = A * 10 ^ alpha).
    { unfold units. rewrite Z.abs_mul, <- HAdef.
      replace (dexp a - -2) with alpha by lia.
      rewrite (Z.abs_eq (10 ^ alpha)) by lia. reflexivity. }
    assert (HDc : units (-2) d = B * 10 ^ beta).
    { unfold units. rewrite <- HBdef.
      replace (dexp d - -2) with beta by lia. reflexivity. }
    rewrite HN' in HN |- *. rewrite HDc.
    assert (HndA : ndigits (dcoeff a) <= 22).
    { apply ndigits_le_iff; [lia|]. rewrite <- HAdef.
      apply Z.le_lt_trans with (A * 10 ^ alpha); [|exact HN].
      rewrite <- (Z.mul_1_r A) at 1. apply Z.mul_le_mono_nonneg_l; lia. }
    pose proof (ndigits_pos B) as HndB.
    remember (ndigits (dcoeff d) - ndigits (dcoeff a) + prec + 1) as shift eqn:Hsh.
    assert (Hshift : 0 <= shift) by (rewrite Hsh, <- HBdef; unfold prec; lia).
    assert (Hd' : 0 < dcoeff d) by lia.
    destruct (ddiv_round a d shift Ha Hd' Hsh Hshift)
      as (j & m & Hj & HE & Hu & Hm & Hnear & Hlow).
    rewrite <- HAdef, <- HBdef in Hnear, Hlow.
    destruct (exponent_gap A B alpha shift j HA Hd Hal Hshift ltac:(lia) HN Hlow)
      as [Hdelta HBd].
    remember (shift - 5 - j - alpha) as delta eqn:Hdel.
    assert (Hde : 1 <= delta) by lia.
    remember (delta + 1 + beta) as kappa eqn:Hkap.
    assert (HEk : dexp a - dexp d - shift + j = -4 - kappa) by lia.
    assert (Hk1 : 1 <= kappa) by lia.
    pose proof (Z.pow_pos_nonneg 10 delta ltac:(lia) ltac:(lia)) as Hpd.
    assert (HK : 10 ^ kappa = 10 * 10 ^ delta * 10 ^ beta).
    { rewrite Hkap. rewrite !Z.pow_add_r by lia. change (10 ^ 1) with 10. ring. }
    assert (HKD : B * 10 ^ beta < 10 ^ kappa).
    { rewrite HK. apply Z.mul_lt_mono_pos_r; [exact Hpb|]. lia. }
    assert (HKev : Z.even (10 ^ kappa) = true) by (apply even_pow10; exact Hk1).
    assert (HK2 : 2 <= 10 ^ kappa).
    { apply Z.le_trans with (10 ^ 1); [vm_compute; discriminate|].
      apply Z.pow_le_mono_r; lia. }
    (* the quotient, and the product with 100 *)
    remember (dexp a - dexp d - shift + j) as E eqn:HEdef.
    assert (Hcq : dcoeff (ddiv a d) <> 0).
    { intros H0. unfold units in Hu. rewrite H0 in Hu.
      assert (Hs : Z.sgn (dcoeff a) * m <> 0).
      { apply Z.neq_mul_0. split; [|lia]. destruct (dcoeff a); [contradiction| |]; discriminate. }
      apply Hs. rewrite <- Hu. reflexivity. }
    destruct (dmul_hundred_units E (ddiv a d) HE Hcq (ddiv_digits a d)) as [HEp Hup].
    rewrite Hu in Hup.
    remember (dmul (ddiv a d) dec_hundred) as p eqn:Hp.
    assert (Hm0 : 0 < m) by (clear - Hm; lia).
    assert (Habsu : Z.abs (units E p) = m * 100).
    { rewrite Hup. rewrite Z.abs_mul, abs_sgn_mul by lia. change (Z.abs 100) with 100. ring. }
    assert (Hcp : dcoeff p <> 0).
    { intros H0. unfold units in Habsu. rewrite H0 in Habsu. simpl in Habsu. lia. }
    assert (Hsp : Z.sgn (dcoeff p) = Z.sgn (dcoeff a)).
    { assert (Hs : Z.sgn (units E p) = Z.sgn (dcoeff a)).
      { rewrite Hup. rewrite Z.sgn_mul, sgn_sgn_mul by exact Hm0.
        change (Z.sgn 100) with 1. apply Z.mul_1_l. }
      unfold units in Hs. rewrite Z.sgn_mul in Hs.
      rewrite (Z.sgn_pos (10 ^ _)) in Hs by (apply Z.pow_pos_nonneg; lia).
      rewrite Z.mul_1_r in Hs. exact Hs. }
    destruct (round_two_places p E kappa m HEk Hk1 HEp Hcp Habsu Hm)
      as [Hround Hres].
    exists (rescale p (-2)).
    split; [exact Hround|]. split; [apply dexp_rescale|].
    rewrite Hres, Hsp. f_equal.
    assert (Hps : 0 < 10 ^ shift) by (apply Z.pow_pos_nonneg; lia).
    assert (Hpj : 0 < 10 ^ j) by (apply Z.pow_pos_nonneg; lia).
    assert (HPpos : 0 < 10 ^ j * B) by (apply Z.mul_pos_pos; assumption).
    assert (Hnpos : 0 <= A * 10 ^ shift) by (apply Z.mul_nonneg_nonneg; lia).
    assert (HDpos : 0 < B * 10 ^ beta) by (apply Z.mul_pos_pos; assumption).
    assert (HCpos : 0 <= 10 ^ 4 * (A * 10 ^ alpha)).
    { apply Z.mul_nonneg_nonneg; [lia|]. apply Z.mul_nonneg_nonneg; lia. }
    assert (HPK : 0 < 10 ^ j * B * 10 ^ kappa).
    { apply Z.mul_pos_pos; [exact HPpos|]. apply Z.pow_pos_nonneg; lia. }
    assert (Hratio : A * 10 ^ shift * (B * 10 ^ beta)
                     = 10 ^ 4 * (A * 10 ^ alpha) * (10 ^ j * B * 10 ^ kappa)).
    { rewrite HK.
      replace shift with (5 + j + alpha + delta) by lia.
      rewrite !Z.pow_add_r by lia.
      change (10 ^ 5) with 100000. change (10 ^ 4) with 10000. ring. }
    rewrite <- (double_rounding (A * 10 ^ shift) (10 ^ j * B) (10 ^ kappa) m
                  Hnpos HPpos (Z.lt_le_trans 0 2 _ eq_refl HK2) HKev
                  (Z.lt_le_incl _ _ Hm0) Hnear
                  (far_from_midpoints _ _ _ _ _ HPpos HDpos HKD Hratio)).
    apply div_half_even_ratio; assumption.
Qed.

End DivisionFacts.

(** ** Texts and the [Decimal] constructor *)

Module TextFacts.

Import PyStr PyDecimal Spec.

Lemma count_app c s t : count c (s ++ t) = (count c s + count c t)%nat.
Proof. induction s as [|x s IH]; simpl; [reflexivity|]. rewrite IH. lia. Qed.

Lemma count_rev c s : count c (rev s) = count c s.
Proof.
  induction s as [|x s IH]; simpl; [reflexivity|].
  rewrite count_app, IH. simpl. lia.
Qed.

Lemma count_In c s : In c s -> (1 <= count c s)%nat.
Proof.
  induction s as [|x s IH]; simpl; [tauto|]. intros [->|H].
  - rewrite Ascii.eqb_refl. lia.
  - specialize (IH H). lia.
Qed.

Lemma count_replace_comma s :
  count "." (replace_comma s) = (count "." s + count "," s)%nat.
Proof.
  induction s as [|x s IH]; simpl; [reflexivity|]. rewrite IH.
  destruct (Ascii.eqb_spec x ",") as [->|Hx]; simpl; [lia|].
  destruct (Ascii.eqb x "."); lia.
Qed.

Lemma isspace_not_dot c : isspace c = true -> Ascii.eqb c "." = false.
Proof.
  destruct (Ascii.eqb_spec c ".") as [->|]; [|reflexivity].
  vm_compute. discriminate.
Qed.

Lemma count_lstrip s : count "." (lstrip s) = count "." s.
Proof.
  induction s as [|x s IH]; simpl; [reflexivity|].
  destruct (isspace x) eqn:Hx; [|reflexivity].
  rewrite IH, (isspace_not_dot x Hx). reflexivity.
Qed.

Lemma count_strip s : count "." (strip s) = count "." s.
Proof.
  unfold strip, rstrip. rewrite count_rev, count_lstrip, count_rev.
  apply count_lstrip.
Qed.

Lemma count_no_underscore s :
  count "." (filter (fun c => c <> "_"%char) s) = count "." s.
Proof.
  induction s as [|x s IH]; [reflexivity|].
  rewrite filter_cons. destruct (decide (x <> "_"%char)) as [Hx|Hx]; simpl.
  - rewrite IH. reflexivity.
  - rewrite IH. assert (x = "_"%char) as -> by (destruct (decide (x = "_"%char)); tauto).
    reflexivity.
Qed.

Lemma count_split_sign s :
  count "." (split_sign s).2 = count "." s.
Proof.
  destruct s as [|c s]; [reflexivity|]. unfold split_sign.
  destruct (Ascii.eqb_spec c "-") as [->|H1]; [reflexivity|].
  destruct (Ascii.eqb_spec c "+") as [->|H2]; reflexivity.
Qed.

Lemma isdigit_not_dot c : isdigit c = true -> Ascii.eqb c "." = false.
Proof.
  destruct (Ascii.eqb_spec c ".") as [->|]; [|reflexivity].
  vm_compute. discriminate.
Qed.

Lemma span_digits_spec s :
  s = (span_digits s).1 ++ (span_digits s).2
  /\ forallb isdigit (span_digits s).1 = true.
Proof.
  induction s as [|c s [IH1 IH2]]; simpl; [auto|].
  destruct (isdigit c) eqn:Hc; simpl; [|auto].
  destruct (span_digits s) as [ds rest]; simpl in *.
  rewrite Hc, IH2. split; [congruence|reflexivity].
Qed.

Lemma count_digits ds : forallb isdigit ds = true -> count "." ds = O.
Proof.
  induction ds as [|c ds IH]; simpl; [reflexivity|].
  intros [Hc Hds]%andb_prop. rewrite (isdigit_not_dot c Hc), IH by exact Hds.
  reflexivity.
Qed.

Lemma count_span s :
  count "." s = count "." (span_digits s).2.
Proof.
  destruct (span_digits_spec s) as [H1 H2].
  rewrite H1 at 1. rewrite count_app, (count_digits _ H2). reflexivity.
Qed.

Lemma parse_exponent_no_dot s e :
  parse_exponent s = Some e -> count "." s = O.
Proof.
  unfold parse_exponent.
  pose proof (count_split_sign s) as Hs.
  destruct (split_sign s) as [neg s1]; simpl in Hs.
  pose proof (count_span s1) as Hc.
  destruct (span_digits s1) as [ds rest]; simpl in Hc.
  destruct ds as [|d ds]; [discriminate|].
  destruct rest; [|discriminate]. intros _. rewrite <- Hs, Hc. reflexivity.
Qed.

Lemma lower_e_not_dot c : Ascii.eqb (lower c) "e" = true -> Ascii.eqb c "." = false.
Proof.
  destruct (Ascii.eqb_spec c ".") as [->|]; [|reflexivity].
  vm_compute. discriminate.
Qed.

(** A number has at most one decimal point. *)
Lemma parse_number_dots s r :
  parse_number s = Some r -> (count "." s <= 1)%nat.
Proof.
  unfold parse_number.
  pose proof (count_span s) as H1.
  destruct (span_digits s) as [ip s1]; simpl in H1.
  assert (Htail : forall s2 ds frac,
    match s2 with
    | [] => Some (int_of_digits ds, - frac)
    | c :: r0 =>
        if Ascii.eqb (lower c) "e"
        then e ← parse_exponent r0; Some (int_of_digits ds, e - frac)
        else None
    end = Some r -> count "." s2 = O).
  { intros s2 ds frac. destruct s2 as [|c r0]; [reflexivity|].
    destruct (Ascii.eqb (lower c) "e") eqn:Hc; [|discriminate].
    destruct (parse_exponent r0) as [e|] eqn:He; [|discriminate].
    intros _. simpl. rewrite (lower_e_not_dot c Hc).
    apply (parse_exponent_no_dot r0 e He). }
  destruct s1 as [|c r0].
  - intros _. rewrite H1. simpl. lia.
  - destruct (Ascii.eqb_spec c ".") as [->|Hc].
    + pose proof (count_span r0) as H2.
      destruct (span_digits r0) as [fp s2]; simpl in H2.
      destruct (ip ++ fp) as [|d ds] eqn:Hds; [discriminate|].
      intros H. apply Htail in H.
      rewrite H1. simpl. rewrite H2, H. lia.
    + destruct (ip ++ []) as [|d ds] eqn:Hds; [discriminate|].
      intros H. apply (Htail (c :: r0)) in H. rewrite H1, H. lia.
Qed.

Lemma lower_dot c : Ascii.eqb (lower c) "." = Ascii.eqb c ".".
Proof.
  destruct c as [[] [] [] [] [] [] [] []]; reflexivity.
Qed.

Lemma count_lower s : count "." (map lower s) = count "." s.
Proof.
  induction s as [|c s IH]; simpl; [reflexivity|].
  rewrite IH, lower_dot. reflexivity.
Qed.

Lemma list_ascii_eqb_eq a b : list_ascii_eqb a b = true -> a = b.
Proof. unfold list_ascii_eqb. apply bool_decide_eq_true_1. Qed.

Lemma inf_word_no_dot s : is_inf_word s = true -> count "." s = O.
Proof.
  unfold is_inf_word. rewrite <- (count_lower s).
  intros [H|H]%orb_prop; apply list_ascii_eqb_eq in H; rewrite H; reflexivity.
Qed.

Lemma nan_word_no_dot s : is_nan_word s = true -> count "." s = O.
Proof.
  unfold is_nan_word. rewrite <- (count_lower s).
  set (low := map lower s).
  intros [H|H]%orb_prop; apply andb_prop in H as [Hw Hd];
    apply list_ascii_eqb_eq in Hw.
  - rewrite <- (take_drop 3 low), count_app, Hw, (count_digits _ Hd). reflexivity.
  - rewrite <- (take_drop 4 low), count_app, Hw, (count_digits _ Hd). reflexivity.
Qed.

(** No numeric string has two decimal points. *)
Lemma Decimal_two_dots text :
  (2 <= count "." text)%nat -> Decimal text = None.
Proof.
  intros H. unfold Decimal.
  set (s := filter (fun c => c <> "_"%char) (strip text)).
  assert (Hs : count "." s = count "." text).
  { unfold s. rewrite count_no_underscore. apply count_strip. }
  pose proof (count_split_sign s) as Hb.
  destruct (split_sign s) as [neg body]; simpl in Hb.
  destruct (parse_number body) as [[c e]|] eqn:Hn.
  - apply parse_number_dots in Hn. lia.
  - destruct (is_inf_word body) eqn:Hi.
    + apply inf_word_no_dot in Hi. lia.
    + destruct (is_nan_word body) eqn:Hnan; [|reflexivity].
      apply nan_word_no_dot in Hnan. lia.
Qed.

End TextFacts.

(** ** The amount gate *)

Module Amounts.

Import PyStr PyDecimal Spec DecimalFacts TextFacts.

Lemma dec_leb_zero v : dec_leb v dec_zero = true <-> dcoeff v <= 0.
Proof.
  unfold dec_leb, dcompare, dec_zero; cbn [dcoeff dexp].
  set (e := Z.min (dexp v) 0).
  pose proof (Z.pow_pos_nonneg 10 (dexp v - e) ltac:(lia) ltac:(unfold e; lia)) as Hp.
  rewrite Z.mul_0_l.
  destruct (Z.compare_spec (dcoeff v * 10 ^ (dexp v - e)) 0) as [H|H|H];
    split; intros; try discriminate; try reflexivity; nia.
Qed.

Lemma replace_comma_idem s : replace_comma (replace_comma s) = replace_comma s.
Proof.
  unfold replace_comma. rewrite map_map. apply map_ext. intros c.
  destruct (Ascii.eqb_spec c ","); [reflexivity|].
  destruct (Ascii.eqb_spec c ","); [contradiction|reflexivity].
Qed.

(** What [parse_amount] returns, in terms of the parsed value. *)
Lemma parse_amount_finite raw v :
  Decimal (strip (replace_comma (list_ascii_of_string raw))) = Some (Finite v) ->
  parse_amount raw
  = if dec_leb v dec_zero then Raise ValueError else quantize v (-2).
Proof. intros H. unfold parse_amount. rewrite H. reflexivity. Qed.

Lemma parse_amount_ok_inv raw r :
  parse_amount raw = Ok r ->
  exists v,
    Decimal (strip (replace_comma (list_ascii_of_string raw))) = Some (Finite v)
    /\ 0 < dcoeff v /\ quantize v (-2) = Ok r.
Proof.
  unfold parse_amount.
  destruct (Decimal _) as [[v|[]|]|]; try discriminate.
  destruct (dec_leb v dec_zero) eqn:Hle; [discriminate|].
  intros H. exists v. split; [reflexivity|]. split; [|exact H].
  destruct (Z.le_gt_cases (dcoeff v) 0) as [Hc|Hc]; [|lia].
  apply dec_leb_zero in Hc. congruence.
Qed.



(** The positivity test precedes the rounding: a positive text below half
    a hundredth passes the test and is returned as 0.00. *)
Lemma parse_amount_rounds_to_zero :
  parse_amount "0.001"%string = Ok (mkdec 0 (-2))
  /\ parse_amount "0.005"%string = Ok (mkdec 0 (-2))
  /\ (dval (mkdec 0 (-2)) == 0)%Q.
Proof. repeat split; reflexivity. Qed.


(** C9.  Every comma is read as a decimal point: "1,000" is 1.00, not
    1000.00; a text is parsed as the text with its commas replaced by
    points; and a text that holds both a comma and a point is refused as
    no numeric string, "1,000.50" among them. *)
Theorem comma_is_decimal_point :
  parse_amount "1,000"%string = Ok (mkdec 100 (-2))
  /\ (dval (mkdec 100 (-2)) == 1)%Q
  /\ parse_amount "1,000.50"%string = Raise InvalidOperation
  /\ (forall raw : string,
        parse_amount raw
        = parse_amount (string_of_list_ascii
                          (replace_comma (list_ascii_of_string raw))))
  /\ (forall raw : string,
        In ","%char (list_ascii_of_string raw) ->
        In "."%char (list_ascii_of_string raw) ->
        parse_amount raw = Raise InvalidOperation).
Proof.
  split; [reflexivity|]. split; [reflexivity|]. split; [reflexivity|]. split.
  - intros raw. unfold parse_amount.
    rewrite list_ascii_of_string_of_list_ascii, replace_comma_idem. reflexivity.
  - intros raw Hc Hd. unfold parse_amount.
    rewrite Decimal_two_dots; [reflexivity|].
    rewrite count_strip, count_replace_comma.
    apply count_In in Hc, Hd. lia.
Qed.

Lemma comma_is_decimal_point_witness :
  parse_amount "12,5.0"%string = Raise InvalidOperation.
Proof.
  apply (proj2 (proj2 (proj2 (proj2 comma_is_decimal_point)))).
  - simpl. tauto.
  - simpl. tauto.
Defined.

End Amounts.

(** ** The ledger *)

Module LedgerFacts.

Import PyDecimal PyFloat Ledger Spec DecimalFacts.

Lemma total_snoc l a : total (l ++ [a]) = dadd (total l) a.
Proof. unfold total. rewrite fold_left_app. reflexivity. Qed.

Lemma amounts_of_snoc k u rows r :
  amounts_of k u (rows ++ [r])
  = amounts_of k u rows
    ++ (if decide (tx_user r = u /\ tx_kind r = k) then [row_amount r] else []).
Proof.
  unfold amounts_of. rewrite filter_app, map_app. f_equal.
  rewrite filter_cons, filter_nil.
  destruct (decide (tx_user r = u /\ tx_kind r = k)); reflexivity.
Qed.

Lemma amounts_of_absent k u rows : u ∉ users rows -> amounts_of k u rows = [].
Proof.
  unfold amounts_of, users. induction rows as [|r rows IH]; [reflexivity|].
  intros Hu. rewrite filter_cons.
  destruct (decide (tx_user r = u /\ tx_kind r = k)) as [[Hr _]|_].
  - exfalso. apply Hu. simpl. rewrite Hr. apply list_elem_of_here.
  - apply IH. intros H. apply Hu. simpl. apply list_elem_of_further. exact H.
Qed.

Lemma users_snoc rows r u :
  u ∈ users (rows ++ [r]) <-> u ∈ users rows \/ u = tx_user r.
Proof.
  unfold users. rewrite map_app, elem_of_app. simpl.
  rewrite list_elem_of_singleton. reflexivity.
Qed.

Lemma collect_snoc rows r : collect (rows ++ [r]) = accumulate (collect rows) r.
Proof. unfold collect. rewrite fold_left_app. reflexivity. Qed.

Lemma accumulate_skip m r : tx_user r = 0 -> accumulate m r = m.
Proof. intros H. unfold accumulate. rewrite H. reflexivity. Qed.

Lemma accumulate_insert m r :
  tx_user r <> 0 ->
  accumulate m r
  = let stats := default (dec_zero, dec_zero) (m !! tx_user r) in
    match tx_kind r with
    | deposit => <[tx_user r := (dadd stats.1 (row_amount r), stats.2)]> m
    | withdraw => <[tx_user r := (stats.1, dadd stats.2 (row_amount r))]> m
    end.
Proof.
  intros H. unfold accumulate.
  destruct (Z.eqb_spec (tx_user r) 0); [contradiction|reflexivity].
Qed.

(** The first loop of [_rebuild_summary] holds, for each user, the two
    sums of that user's own rows; user id 0 is skipped. *)
Lemma collect_lookup rows u : collect rows !! u = stats_of u rows.
Proof.
  revert u. induction rows as [|r rows IH] using rev_ind; intros u.
  - unfold collect, stats_of; simpl. rewrite lookup_empty.
    case_decide as H; [|reflexivity]. destruct H as [_ H]. inversion H.
  - rewrite collect_snoc.
    assert (Hst : forall v rows', stats_of v rows'
              = if decide (v <> 0 /\ v ∈ users rows')
                then Some (total (amounts_of deposit v rows'),
                           total (amounts_of withdraw v rows'))
                else None) by reflexivity.
    destruct (Z.eq_dec (tx_user r) 0) as [E0|E0].
    + rewrite (accumulate_skip _ r E0), IH, !Hst.
      rewrite !amounts_of_snoc.
      destruct (decide (u <> 0 /\ u ∈ users rows)) as [[H1 H2]|Hn];
        destruct (decide (u <> 0 /\ u ∈ users (rows ++ [r]))) as [[H3 H4]|Hn'].
      * repeat (destruct (decide _) as [[? ?]|_]; [congruence|]).
        rewrite !app_nil_r. reflexivity.
      * exfalso. apply Hn'. split; [exact H1|]. apply users_snoc. auto.
      * exfalso. apply users_snoc in H4 as [H4|H4]; [tauto|congruence].
      * reflexivity.
    + rewrite (accumulate_insert _ r E0). cbv zeta.
      set (v := tx_user r) in *.
      assert (Hdef : default (dec_zero, dec_zero) (collect rows !! v)
                     = (total (amounts_of deposit v rows),
                        total (amounts_of withdraw v rows))).
      { rewrite IH, Hst. destruct (decide (v <> 0 /\ v ∈ users rows)) as [_|Hn].
        - reflexivity.
        - assert (Hv : v ∉ users rows) by tauto.
          rewrite !(amounts_of_absent _ v rows Hv). reflexivity. }
      rewrite Hdef. cbn [fst snd].
      destruct (decide (u = v)) as [->|Huv].
      * assert (Hin : v <> 0 /\ v ∈ users (rows ++ [r])).
        { split; [exact E0|]. apply users_snoc. auto. }
        rewrite Hst. destruct (decide (v <> 0 /\ v ∈ users (rows ++ [r]))); [|tauto].
        rewrite !amounts_of_snoc.
        destruct (tx_kind r) eqn:Hk; rewrite lookup_insert_eq; f_equal.
        -- destruct (decide (tx_user r = v /\ deposit = deposit)); [|tauto].
           destruct (decide (tx_user r = v /\ deposit = withdraw)) as [[_ ?]|_]; [discriminate|].
           rewrite total_snoc, app_nil_r. reflexivity.
        -- destruct (decide (tx_user r = v /\ withdraw = withdraw)); [|tauto].
           destruct (decide (tx_user r = v /\ withdraw = deposit)) as [[_ ?]|_]; [discriminate|].
           rewrite total_snoc, app_nil_r. reflexivity.
      * assert (Hsame : collect rows !! u = stats_of u (rows ++ [r])).
        { rewrite IH, !Hst, !amounts_of_snoc.
          assert (Hno : forall k,
                    (if decide (tx_user r = u /\ tx_kind r = k)
                     then [row_amount r] else []) = []).
          { intros k. apply decide_False. intros [? _]. unfold v in Huv. congruence. }
          rewrite !Hno, !app_nil_r.
          destruct (decide (u <> 0 /\ u ∈ users rows)) as [[H1 H2]|Hn];
            destruct (decide (u <> 0 /\ u ∈ users (rows ++ [r]))) as [[H3 H4]|Hn'];
            try reflexivity.
          - exfalso. apply Hn'. split; [exact H1|]. apply users_snoc. auto.
          - exfalso. apply users_snoc in H4 as [H4|H4]; [tauto|].
            unfold v in Huv. congruence. }
        destruct (tx_kind r); rewrite lookup_insert_ne by congruence; exact Hsame.
Qed.

(** *** [sorted(user_stats.items())] *)

#[local] Instance key_le_trans : Transitive key_le.
Proof. intros a b c. unfold key_le. lia. Qed.

#[local] Instance key_le_total : Total key_le.
Proof. intros a b. unfold key_le. lia. Qed.

Lemma elem_of_sorted_items (m : gmap Z (dec * dec)) u st :
  (u, st) ∈ sorted_items m <-> m !! u = Some st.
Proof.
  unfold sorted_items. rewrite merge_sort_Permutation.
  apply elem_of_map_to_list.
Qed.

Lemma sorted_items_NoDup (m : gmap Z (dec * dec)) :
  NoDup (map fst (sorted_items m)).
Proof.
  unfold sorted_items. change (NoDup ((merge_sort key_le (map_to_list m)).*1)).
  rewrite merge_sort_Permutation. apply NoDup_fst_map_to_list.
Qed.

Lemma strictly_sorted (l : list Z) :
  StronglySorted Z.le l -> NoDup l -> StronglySorted Z.lt l.
Proof.
  induction 1 as [|x l Hs IH Hall]; intros Hnd; constructor.
  - apply IH. apply NoDup_cons in Hnd. tauto.
  - apply NoDup_cons in Hnd as [Hx _].
    rewrite Forall_forall in *. intros y Hy.
    specialize (Hall y Hy). assert (x <> y) by (intros ->; contradiction). lia.
Qed.

Lemma sorted_items_sorted (m : gmap Z (dec * dec)) :
  StronglySorted Z.lt (map fst (sorted_items m)).
Proof.
  apply strictly_sorted; [|apply sorted_items_NoDup].
  unfold sorted_items.
  change (StronglySorted Z.le (fst <$> merge_sort key_le (map_to_list m))).
  eapply StronglySorted_fmap; [|apply StronglySorted_merge_sort; apply _].
  intros x y H. exact H.
Qed.

(** *** The second loop *)

Lemma rmap_Forall2 {A B : Type} (f : A -> result B) l rows :
  rmap f l = Ok rows <-> Forall2 (fun x y => f x = Ok y) l rows.
Proof.
  revert rows. induction l as [|x l IH]; intros rows; simpl.
  - split; [intros [= <-]; constructor|inversion 1; reflexivity].
  - split.
    + destruct (f x) as [y|e] eqn:Hx; [|discriminate]. simpl.
      destruct (rmap f l) as [ys|e] eqn:Hl; [|discriminate]. simpl.
      intros [= <-]. constructor; [exact Hx|]. apply IH. reflexivity.
    + inversion 1 as [|? y ? ys Hx Hl]; subst.
      rewrite Hx. simpl. apply IH in Hl. rewrite Hl. reflexivity.
Qed.

Lemma rmap_is_ok {A B : Type} (f : A -> result B) l :
  is_ok (rmap f l) = true <-> Forall (fun x => is_ok (f x) = true) l.
Proof.
  induction l as [|x l IH]; simpl.
  - split; [constructor|reflexivity].
  - rewrite Forall_cons, <- IH.
    destruct (f x) as [y|e]; simpl; [|split; [discriminate|intros [? _]; discriminate]].
    destruct (rmap f l) as [ys|e]; simpl; tauto.
Qed.

Lemma summary_of_inv now item row :
  summary_of now item = Ok row ->
  exists rounded,
    round_ (roi_of item.2.1 item.2.2) 2 = Ok rounded
    /\ row = mk_summary item.1 (float_of_dec item.2.1) (float_of_dec item.2.2)
               (float_of_dec (dsub item.2.1 item.2.2))
               (float_of_dec rounded) now.
Proof.
  unfold summary_of.
  destruct (round_ (roi_of item.2.1 item.2.2) 2) as [rounded|e]; [|discriminate].
  simpl. intros [= <-]. exists rounded. auto.
Qed.

Lemma summary_of_restamp now now' item row :
  summary_of now item = Ok row ->
  summary_of now' item = Ok (restamp now' row).
Proof.
  intros H. destruct (summary_of_inv _ _ _ H) as (rounded & Hr & ->).
  unfold summary_of. rewrite Hr. reflexivity.
Qed.


Lemma rebuild_inv now wb wb' :
  _rebuild_summary now wb = Ok wb' ->
  Transactions wb' = Transactions wb
  /\ rmap (summary_of now) (sorted_items (collect (Transactions wb)))
     = Ok (Summary wb').
Proof.
  unfold _rebuild_summary.
  destruct (rmap _ _) as [rows|e]; [|discriminate]. simpl.
  intros [= <-]. auto.
Qed.

Lemma rebuild_consistent now wb wb' :
  _rebuild_summary now wb = Ok wb' -> consistent wb'.
Proof.
  intros H. exists now. destruct (rebuild_inv _ _ _ H) as [Ht Hs].
  unfold _rebuild_summary. rewrite Ht, Hs. simpl. destruct wb'; simpl in *.
  congruence.
Qed.

Lemma consistent_init : consistent init_workbook.
Proof. exists EmptyString. reflexivity. Qed.

Lemma step_consistent wb m : consistent wb -> consistent (step wb m).
Proof.
  intros Hc. unfold step.
  destruct (apply_mutation m wb) as [wb'|e] eqn:H; [|exact Hc].
  destruct m; simpl in H; eapply rebuild_consistent; exact H.
Qed.

Lemma run_consistent ms wb : consistent wb -> consistent (run ms wb).
Proof.
  revert wb. induction ms as [|m ms IH]; intros wb Hc; simpl; [exact Hc|].
  apply IH, step_consistent, Hc.
Qed.

(** *** Reading the summary sheet *)

Lemma find_summary now items rows u :
  Forall2 (fun x y => summary_of now x = Ok y) items rows ->
  u <> 0 ->
  match find (fun row => negb (s_user row =? 0) && (s_user row =? u)) rows with
  | Some row => exists st, (u, st) ∈ items /\ summary_of now (u, st) = Ok row
  | None => u ∉ map fst items
  end.
Proof.
  intros HF Hu. induction HF as [|x y items rows Hx HF IH]; simpl.
  - intros H. inversion H.
  - destruct (summary_of_inv _ _ _ Hx) as (rounded & _ & Hy).
    assert (Hk : s_user y = x.1) by (rewrite Hy; reflexivity).
    rewrite Hk. destruct (Z.eqb_spec x.1 u) as [E|E].
    + destruct (Z.eqb_spec x.1 0) as [E0|_]; [congruence|]. simpl.
      exists x.2. destruct x as [k st]; simpl in E |- *. rewrite <- E.
      split; [apply list_elem_of_here|exact Hx].
    + rewrite andb_false_r.
      destruct (find _ rows) as [row|].
      * destruct IH as (st & Hin & Hok). exists st.
        split; [apply list_elem_of_further; exact Hin|exact Hok].
      * intros H. apply elem_of_cons in H as [H|H]; [congruence|contradiction].
Qed.

Lemma get_user_stats_zero_id wb :
  get_user_stats 0 wb = (dec_zero, dec_zero, dec_zero, dec_zero).
Proof.
  unfold get_user_stats.
  assert (H : find (fun row => negb (s_user row =? 0) && (s_user row =? 0))
                   (Summary wb) = None).
  { induction (Summary wb) as [|r l IH]; simpl; [reflexivity|].
    destruct (s_user r =? 0); simpl; exact IH. }
  rewrite H. reflexivity.
Qed.

(** What [get_user_stats] returns on a stored workbook, from the two
    Decimal sums of the user's rows. *)
Lemma get_user_stats_spec wb u :
  consistent wb -> u <> 0 ->
  match stats_of u (Transactions wb) with
  | Some (D, W) =>
      exists rounded,
        round_ (roi_of D W) 2 = Ok rounded
        /\ get_user_stats u wb
           = (float_roundtrip D, float_roundtrip W,
              float_roundtrip (dsub D W), float_roundtrip rounded)
  | None => get_user_stats u wb = (dec_zero, dec_zero, dec_zero, dec_zero)
  end.
Proof.
  intros [now Hc] Hu. apply rebuild_inv in Hc as [_ Hs].
  apply rmap_Forall2 in Hs.
  pose proof (find_summary now _ _ u Hs Hu) as Hf.
  unfold get_user_stats.
  destruct (find _ (Summary wb)) as [row|].
  - destruct Hf as (st & Hin & Hok).
    apply elem_of_sorted_items in Hin. rewrite collect_lookup in Hin.
    rewrite Hin. destruct st as [D W].
    destruct (summary_of_inv _ _ _ Hok) as (rounded & Hr & ->). simpl in *.
    exists rounded. split; [exact Hr|reflexivity].
  - destruct (stats_of u (Transactions wb)) as [st|] eqn:Hst; [|reflexivity].
    exfalso. apply Hf.
    rewrite <- collect_lookup in Hst. apply elem_of_sorted_items in Hst.
    change (u ∈ (sorted_items (collect (Transactions wb))).*1).
    apply list_elem_of_fmap. exists (u, st). auto.
Qed.

Lemma summary_keys now items rows :
  Forall2 (fun x y => summary_of now x = Ok y) items rows ->
  map s_user rows = map fst items.
Proof.
  induction 1 as [|x y items rows Hx _ IH]; simpl; [reflexivity|].
  destruct (summary_of_inv _ _ _ Hx) as (rounded & _ & ->). simpl.
  rewrite IH. reflexivity.
Qed.

Lemma stats_of_is_Some u rows :
  is_Some (stats_of u rows) <-> u <> 0 /\ u ∈ users rows.
Proof.
  unfold stats_of.
  destruct (decide (u <> 0 /\ u ∈ users rows)) as [H|H].
  - split; [intros _; exact H|intros _; eexists; reflexivity].
  - split; [intros [x Hx]; discriminate|tauto].
Qed.

Lemma summary_users_of_consistent wb :
  consistent wb ->
  map s_user (Summary wb)
  = map fst (sorted_items (collect (Transactions wb))).
Proof.
  intros [now Hc]. apply rebuild_inv in Hc as [_ Hs].
  apply rmap_Forall2 in Hs. eapply summary_keys; exact Hs.
Qed.

Lemma elem_of_sorted_keys (m : gmap Z (dec * dec)) u :
  u ∈ map fst (sorted_items m) <-> is_Some (m !! u).
Proof.
  change (u ∈ (sorted_items m).*1 <-> is_Some (m !! u)).
  rewrite list_elem_of_fmap. split.
  - intros ([k st] & -> & Hin). apply elem_of_sorted_items in Hin.
    simpl. eauto.
  - intros [st Hst]. exists (u, st). split; [reflexivity|].
    apply elem_of_sorted_items. exact Hst.
Qed.

(** *** [reset_user] *)




Lemma summary_of_is_ok_now now now' item :
  is_ok (summary_of now item) = true -> is_ok (summary_of now' item) = true.
Proof.
  destruct (summary_of now item) as [row|e] eqn:H; [|discriminate].
  intros _. rewrite (summary_of_restamp _ now' _ _ H). reflexivity.
Qed.






End LedgerFacts.

(** ** Queries *)

Module Queries.

Import PyDecimal PyFloat Ledger Spec DecimalFacts LedgerFacts.

Lemma filter_user_nonzero u (rows : list tx_row) :
  u <> 0 ->
  filter (fun row => tx_user row <> 0 /\ tx_user row = u) rows
  = filter (fun row => tx_user row = u) rows.
Proof.
  intros Hu. apply list_filter_iff. intros row. split; [tauto|].
  intros H. split; [congruence|exact H].
Qed.

Lemma filter_user_zero (rows : list tx_row) :
  filter (fun row => tx_user row <> 0 /\ tx_user row = 0) rows = [].
Proof.
  induction rows as [|r rows IH]; [reflexivity|].
  rewrite filter_cons, IH.
  destruct (decide (tx_user r <> 0 /\ tx_user r = 0)) as [[? ?]|_]; [contradiction|reflexivity].
Qed.

Lemma filter_user_absent u (rows : list tx_row) :
  u ∉ users rows -> filter (fun row => tx_user row = u) rows = [].
Proof.
  unfold users. induction rows as [|r rows IH]; [reflexivity|].
  intros Hu. rewrite filter_cons.
  destruct (decide (tx_user r = u)) as [Hr|_].
  - exfalso. apply Hu. simpl. rewrite Hr. apply list_elem_of_here.
  - apply IH. intros H. apply Hu. simpl. apply list_elem_of_further. exact H.
Qed.

Lemma slice_from_drop {A : Type} start (rows : list A) :
  exists n, slice_from start rows = drop n rows.
Proof. unfold slice_from. eauto. Qed.

(** The history is the user's rows (none for user id 0) cut by the
    slice [rows[-limit:]] and reversed. *)
Lemma get_user_history_rows u limit wb :
  get_user_history u limit wb
  = rev (slice_from (- limit)
           (if decide (u = 0) then [] else history_rows u (Transactions wb))).
Proof.
  unfold get_user_history, history_rows. destruct (decide (u = 0)) as [->|Hu].
  - rewrite filter_user_zero. reflexivity.
  - rewrite filter_user_nonzero by exact Hu. reflexivity.
Qed.

(** For every limit the history is the reversal of a suffix of the
    user's rows. *)
Lemma history_is_reversed_suffix u limit wb :
  exists older,
    history_rows u (Transactions wb)
    = older ++ rev (get_user_history u limit wb).
Proof.
  rewrite get_user_history_rows, rev_involutive.
  destruct (decide (u = 0)) as [->|Hu].
  - exists (history_rows 0 (Transactions wb)).
    destruct (slice_from_drop (- limit) (@nil (tx_type * dec * string))) as [n ->].
    rewrite drop_nil, app_nil_r. reflexivity.
  - destruct (slice_from_drop (- limit) (history_rows u (Transactions wb))) as [n ->].
    exists (take n (history_rows u (Transactions wb))).
    symmetry. apply take_drop.
Qed.

(** A positive limit bounds the length of the history. *)
Lemma history_bounded u limit wb :
  0 < limit -> Z.of_nat (List.length (get_user_history u limit wb)) <= limit.
Proof.
  intros Hl. rewrite get_user_history_rows, length_rev.
  set (rows := if decide (u = 0) then [] else history_rows u (Transactions wb)).
  unfold slice_from. destruct (Z.ltb_spec (- limit) 0); [|lia].
  rewrite length_drop. lia.
Qed.

Lemma unknown_user wb u :
  consistent wb -> u ∉ users (Transactions wb) ->
  get_user_stats u wb = (dec_zero, dec_zero, dec_zero, dec_zero)
  /\ forall limit, get_user_history u limit wb = [].
Proof.
  intros Hc Hu. split.
  - destruct (decide (u = 0)) as [->|H0]; [apply get_user_stats_zero_id|].
    pose proof (get_user_stats_spec wb u Hc H0) as H.
    unfold stats_of in H.
    destruct (decide (u <> 0 /\ u ∈ users (Transactions wb))) as [[_ ?]|_];
      [contradiction|exact H].
  - intros limit. rewrite get_user_history_rows.
    unfold history_rows. rewrite (filter_user_absent u _ Hu). simpl.
    destruct (decide (u = 0)) as [?|?];
      destruct (slice_from_drop (- limit) (@nil (tx_type * dec * string))) as [k ->];
      rewrite drop_nil; reflexivity.
Qed.

(** C7.  A user without transactions in the log gets the zero tuple from
    [get_user_stats] and the empty list from [get_user_history], whatever
    the limit; both queries are total functions of the stored
    workbook, so neither raises. *)
Theorem unknown_user_queries (ms : list mutation) (u : Z) :
  let wb := run ms init_workbook in
  u ∉ users (Transactions wb) ->
  get_user_stats u wb = (dec_zero, dec_zero, dec_zero, dec_zero)
  /\ forall limit, get_user_history u limit wb = [].
Proof.
  intros wb Hu. apply unknown_user; [|exact Hu].
  apply run_consistent, consistent_init.
Qed.

Lemma unknown_user_queries_witness :
  get_user_stats 99 (run sample_log init_workbook)
  = (dec_zero, dec_zero, dec_zero, dec_zero)
  /\ forall limit, get_user_history 99 limit (run sample_log init_workbook) = [].
Proof.
  apply (unknown_user_queries sample_log 99).
  vm_compute. intros H. repeat (apply elem_of_cons in H as [H|H]; [discriminate H|]).
  inversion H.
Defined.

(** C5 at [limit = 0].  [rows[-0:]] is the whole list: with limit 0 the
    history holds every row of the user instead of none. *)
Theorem history_limit_zero :
  get_user_history 42 0 (run sample_log init_workbook)
  = [(withdraw, mkdec 3000 (-1), "2024-01-01 10:05:00"%string);
     (deposit, mkdec 10000 (-1), "2024-01-01 10:00:00"%string)]
  /\ ~ (Z.of_nat (List.length (get_user_history 42 0 (run sample_log init_workbook))) <= 0).
Proof. split; [vm_compute; reflexivity|vm_compute; intros H; apply H; reflexivity]. Qed.

End Queries.

(** ** Mutations *)

Module Mutations.

Import PyDecimal PyFloat Ledger Spec DecimalFacts LedgerFacts Queries.

(** C2, as amended.  After every sequence of mutations the summary sheet
    has a row for exactly the user ids of the log other than 0 (the
    first loop of [_rebuild_summary] skips a row whose user id is
    falsy), one row each, in ascending order of user id. *)
Theorem summary_rows_match_log (ms : list mutation) :
  let wb := run ms init_workbook in
  (forall u, u ∈ map s_user (Summary wb)
             <-> u <> 0 /\ u ∈ users (Transactions wb))
  /\ NoDup (map s_user (Summary wb))
  /\ StronglySorted Z.lt (map s_user (Summary wb)).
Proof.
  intros wb.
  pose proof (run_consistent ms _ consistent_init) as Hc. fold wb in Hc.
  rewrite (summary_users_of_consistent wb Hc).
  split; [|split].
  - intros u. rewrite elem_of_sorted_keys, collect_lookup.
    apply stats_of_is_Some.
  - apply sorted_items_NoDup.
  - apply sorted_items_sorted.
Qed.

(** A deposit of user id 0 is in the log and has no summary row. *)
Lemma summary_skips_user_zero :
  let wb := run [AddTransaction "2024-01-01 10:00:00"%string
                                "2024-01-01 10:00:00"%string
                                0 deposit (mkdec 500 (-2))] init_workbook in
  users (Transactions wb) = [0] /\ map s_user (Summary wb) = [].
Proof. split; vm_compute; reflexivity. Qed.





End Mutations.

(** ** Totals and the float cells *)

Module Totals.

Import PyDecimal PyFloat Ledger Spec DecimalFacts LedgerFacts Queries.

Lemma hundredths_total l :
  hundredths l ->
  -2 <= dexp (total l)
  /\ units (-2) (total l) = sum_units (-2) l
  /\ 0 <= sum_units (-2) l < 10 ^ 28
  /\ (dval (total l) == exact_sum l)%Q.
Proof.
  intros [Hl Hb].
  pose proof (sum_units_nonneg (-2) l Hl) as Hnn.
  rewrite (exact_sum_units (-2) l Hl), pow10_neg2 in Hb.
  assert (Hlt : sum_units (-2) l < 10 ^ 28).
  { rewrite Zlt_Qlt.
    replace (10 ^ 28) with (10 ^ 26 * 100) by reflexivity.
    rewrite inject_Z_mult. change (inject_Z 100) with 100%Q. lra. }
  destruct (total_units (-2) l ltac:(lia) Hl Hlt) as [He Hu].
  split; [exact He|]. split; [exact Hu|]. split; [lia|].
  rewrite (dval_units (-2) _ He), Hu, (exact_sum_units (-2) l Hl). reflexivity.
Qed.

Lemma dsub_hundredths a b :
  -2 <= dexp a -> -2 <= dexp b ->
  0 <= units (-2) a < 10 ^ 28 -> 0 <= units (-2) b < 10 ^ 28 ->
  (dval (dsub a b) == dval a - dval b)%Q.
Proof.
  intros Ha Hb Hua Hub.
  destruct (dsub_units (-2) a b Ha Hb) as [He Hu]; [unfold prec; lia|].
  rewrite (dval_units (-2) _ He), Hu, (dval_units (-2) a Ha), (dval_units (-2) b Hb).
  rewrite inject_Z_minus. ring.
Qed.



(** Two deposits, 49999999999999.99 and 50000000000000.00, are both read
    back from the log as deposited; their sum 99999999999999.99 is not
    a value a float cell gives back, and the stats show ...98. *)
Lemma float_total_drifts :
  let wb := run [AddTransaction "2024-01-01 10:00:00"%string
                                "2024-01-01 10:00:00"%string
                                5 deposit (mkdec 4999999999999999 (-2));
                 AddTransaction "2024-01-01 10:01:00"%string
                                "2024-01-01 10:01:00"%string
                                5 deposit (mkdec 5000000000000000 (-2))]
                init_workbook in
  amounts_of deposit 5 (Transactions wb)
  = [mkdec 4999999999999999 (-2); mkdec 500000000000000 (-1)]
  /\ total (amounts_of deposit 5 (Transactions wb))
     = mkdec 9999999999999999 (-2)
  /\ stats_deposits (get_user_stats 5 wb) = mkdec 9999999999999998 (-2).
Proof. repeat split; vm_compute; reflexivity. Qed.


Lemma slice_last {A : Type} (l : list A) (x : A) :
  slice_from (-1) (l ++ [x]) = [x].
Proof.
  unfold slice_from. rewrite length_app. simpl.
  destruct (Z.ltb_spec (-1) 0); [|lia].
  replace (Z.to_nat (Z.max (-1 + Z.of_nat (List.length l + 1)) 0))
    with (List.length l) by lia.
  rewrite drop_app_length. reflexivity.
Qed.

Lemma history_rows_snoc u (rows : list tx_row) r :
  history_rows u (rows ++ [r])
  = history_rows u rows
    ++ (if decide (tx_user r = u)
        then [(tx_kind r, row_amount r, tx_timestamp r)] else []).
Proof.
  unfold history_rows. rewrite filter_app, map_app. f_equal.
  rewrite filter_cons, filter_nil.
  destruct (decide (tx_user r = u)); reflexivity.
Qed.



End Totals.

(** ** Return on investment *)

Module Roi.

Import PyDecimal PyFloat Ledger Spec DecimalFacts LedgerFacts Queries.

Lemma dec_ltb_zero d : dec_ltb dec_zero d = true <-> 0 < dcoeff d.
Proof.
  unfold dec_ltb, dcompare, dec_zero; cbn [dcoeff dexp].
  set (e := Z.min 0 (dexp d)).
  pose proof (Z.pow_pos_nonneg 10 (dexp d - e) ltac:(lia) ltac:(unfold e; lia)) as Hp.
  rewrite Z.mul_0_l.
  destruct (Z.compare_spec 0 (dcoeff d * 10 ^ (dexp d - e))) as [H|H|H];
    split; intros; try discriminate; try reflexivity; nia.
Qed.

Lemma roi_of_guard D W : dcoeff D <= 0 -> roi_of D W = dec_zero.
Proof.
  intros H. unfold roi_of. destruct (dec_ltb dec_zero D) eqn:E; [|reflexivity].
  apply dec_ltb_zero in E. lia.
Qed.

Lemma roi_of_positive D W :
  0 < dcoeff D -> roi_of D W = dmul (ddiv (dsub W D) D) dec_hundred.
Proof.
  intros H. unfold roi_of. apply dec_ltb_zero in H. rewrite H. reflexivity.
Qed.



(** A deposit of 0.01 and a withdrawal of 10^25: the ROI has more than
    28 digits at two decimals, [round] raises, and [add_transaction]
    saves nothing. *)
Lemma roi_overflow_raises :
  let wb := run [AddTransaction "2024-01-01 10:00:00"%string
                                "2024-01-01 10:00:00"%string
                                5 deposit (mkdec 1 (-2))] init_workbook in
  add_transaction "2024-01-01 10:01:00"%string "2024-01-01 10:01:00"%string
                  5 withdraw (mkdec (10 ^ 27) (-2)) wb
  = Raise InvalidOperation.
Proof. vm_compute. reflexivity. Qed.


End Roi.

(** ** The texts [parse_amount] reads *)

Module AmountText.

Import PyStr PyDecimal PyFloat Spec DecimalFacts DivisionFacts TextFacts Amounts.

(** *** The two exceptions *)

Lemma quantize_raises a exp e : quantize a exp = Raise e -> e = InvalidOperation.
Proof.
  unfold quantize. destruct (dcoeff a =? 0); [discriminate|].
  destruct (prec <? adjusted a - exp + 1); [intros [= <-]; reflexivity|].
  destruct (prec <? ndigits (dcoeff (rescale a exp))); [intros [= <-]; reflexivity|].
  discriminate.
Qed.

Lemma dval_nonpos_iff a : (dval a <= 0)%Q <-> dcoeff a <= 0.
Proof.
  pose proof (dval_pos_iff a) as H. split; intros Hle.
  - destruct (Z_lt_le_dec 0 (dcoeff a)) as [Hc|Hc]; [|exact Hc].
    apply H in Hc. lra.
  - destruct (Qlt_le_dec 0 (dval a)) as [Hv|Hv]; [|exact Hv].
    apply H in Hv. lia.
Qed.

Lemma amount_bound_pos : (0 < amount_bound)%Q.
Proof. reflexivity. Qed.

Ltac other_text :=
  split; split; intros H;
  first [ reflexivity
        | discriminate H
        | repeat match type of H with _ \/ _ => destruct H as [H|H] end;
          first [ discriminate H | destruct H as (? & H & _); discriminate H ]
        | right; reflexivity
        | left; reflexivity
        | right; left; reflexivity
        | right; right; left; reflexivity ].

(** [parse_amount] raises [ValueError] exactly on the texts that
    [Decimal] reads as a finite number not above zero or as minus
    infinity, and [InvalidOperation] exactly on the texts that are no
    numeric string, a NaN, plus infinity, or a number of 10^26 - 0.005
    or more. *)
Theorem parse_amount_refusals (raw : string) :
  let text := strip (replace_comma (list_ascii_of_string raw)) in
  (parse_amount raw = Raise ValueError <->
     (exists v, Decimal text = Some (Finite v) /\ (dval v <= 0)%Q)
     \/ Decimal text = Some (Infinity true))
  /\ (parse_amount raw = Raise InvalidOperation <->
        Decimal text = None \/ Decimal text = Some NaN
        \/ Decimal text = Some (Infinity false)
        \/ exists v, Decimal text = Some (Finite v)
                     /\ (amount_bound <= dval v)%Q).
Proof.
  intros text. unfold parse_amount. fold text.
  destruct (Decimal text) as [[v|[|]|]|] eqn:Hd.
  - pose proof (dec_leb_zero v) as Hz. pose proof (dval_nonpos_iff v) as Hn.
    pose proof amount_bound_pos as Hb.
    destruct (dec_leb v dec_zero) eqn:Hle.
    + assert (Hc : dcoeff v <= 0) by (apply Hz; reflexivity).
      apply Hn in Hc. split; split.
      * intros _. left. exists v. split; [reflexivity|exact Hc].
      * reflexivity.
      * discriminate.
      * intros [H|[H|[H|(v' & [= <-] & H)]]]; try discriminate. lra.
    + assert (Hc : 0 < dcoeff v).
      { destruct (Z_lt_le_dec 0 (dcoeff v)) as [?|Hc]; [assumption|].
        apply Hz in Hc. congruence. }
      pose proof (quantize_cents_ok_iff v Hc) as Hq.
      split; split.
      * intros H. apply quantize_raises in H. discriminate.
      * intros [(v' & [= <-] & H)|H]; [|discriminate].
        apply Hn in H. lia.
      * intros H. right; right; right. exists v. split; [reflexivity|].
        destruct (Qlt_le_dec (dval v) amount_bound) as [Hlt|?]; [|assumption].
        apply Hq in Hlt. rewrite H in Hlt. discriminate.
      * intros [H|[H|[H|(v' & [= <-] & H)]]]; try discriminate.
        destruct (quantize v (-2)) as [r|e] eqn:Hr.
        -- assert (Hlt : (dval v < amount_bound)%Q) by (apply Hq; reflexivity). lra.
        -- apply quantize_raises in Hr. subst e. reflexivity.
  - other_text.
  - other_text.
  - other_text.
  - other_text.
Qed.

(** *** White space around the text *)

Lemma list_ascii_of_string_app s t :
  list_ascii_of_string (s ++ t)%string
  = list_ascii_of_string s ++ list_ascii_of_string t.
Proof. induction s as [|c s IH]; simpl; [reflexivity|]. rewrite IH. reflexivity. Qed.

Lemma replace_comma_space ws :
  Forall (fun c => isspace c = true) ws -> replace_comma ws = ws.
Proof.
  induction 1 as [|c ws Hc _ IH]; simpl; [reflexivity|]. f_equal; [|exact IH].
  destruct (Ascii.eqb_spec c ","); [subst c; discriminate Hc|reflexivity].
Qed.

Lemma lstrip_space ws s :
  Forall (fun c => isspace c = true) ws -> lstrip (ws ++ s) = lstrip s.
Proof. induction 1 as [|c ws Hc _ IH]; simpl; [reflexivity|]. rewrite Hc. exact IH. Qed.

Lemma Forall_rev_ascii (P : ascii -> Prop) (s : list ascii) :
  Forall P s -> Forall P (rev s).
Proof.
  apply List.Forall_rev.
Qed.

Lemma rstrip_space s ws :
  Forall (fun c => isspace c = true) ws -> rstrip (s ++ ws) = rstrip s.
Proof.
  intros H. unfold rstrip. rewrite rev_app_distr, lstrip_space; [reflexivity|].
  apply Forall_rev_ascii. exact H.
Qed.

Lemma lstrip_app_space s ws :
  Forall (fun c => isspace c = true) ws ->
  lstrip (s ++ ws) = match lstrip s with [] => [] | _ => lstrip s ++ ws end.
Proof.
  intros H. induction s as [|c s IH]; simpl.
  - rewrite <- (app_nil_r ws). rewrite lstrip_space by exact H. reflexivity.
  - destruct (isspace c); [exact IH|reflexivity].
Qed.

Lemma strip_padding ws1 s ws2 :
  Forall (fun c => isspace c = true) ws1 ->
  Forall (fun c => isspace c = true) ws2 ->
  strip (ws1 ++ s ++ ws2) = strip s.
Proof.
  intros H1 H2. unfold strip. rewrite lstrip_space by exact H1.
  rewrite lstrip_app_space by exact H2.
  destruct (lstrip s) as [|c t] eqn:E; [reflexivity|].
  apply rstrip_space. exact H2.
Qed.

(** White space before and after the text does not count:
    [parse_amount] gives for a padded text what it gives for the text. *)
Theorem parse_amount_ignores_padding (ws1 raw ws2 : string) :
  Forall (fun c => isspace c = true) (list_ascii_of_string ws1) ->
  Forall (fun c => isspace c = true) (list_ascii_of_string ws2) ->
  parse_amount (ws1 ++ raw ++ ws2)%string = parse_amount raw.
Proof.
  intros H1 H2. unfold parse_amount.
  rewrite !list_ascii_of_string_app. unfold replace_comma at 1.
  rewrite !map_app. fold (replace_comma (list_ascii_of_string ws1)).
  fold (replace_comma (list_ascii_of_string raw)).
  fold (replace_comma (list_ascii_of_string ws2)).
  rewrite (replace_comma_space _ H1), (replace_comma_space _ H2).
  rewrite (strip_padding _ _ _ H1 H2). reflexivity.
Qed.

Lemma parse_amount_ignores_padding_witness :
  parse_amount ("  " ++ "12,5" ++ " ")%string = parse_amount "12,5"%string.
Proof.
  apply (parse_amount_ignores_padding "  "%string "12,5"%string " "%string).
  - repeat constructor.
  - repeat constructor.
Defined.

(** *** Underscores *)

Lemma lstrip_no_space s :
  Forall (fun c => isspace c = false) s -> lstrip s = s.
Proof. destruct 1 as [|c s Hc _]; simpl; [reflexivity|]. rewrite Hc. reflexivity. Qed.

Lemma strip_no_space s :
  Forall (fun c => isspace c = false) s -> strip s = s.
Proof.
  intros H. unfold strip, rstrip. rewrite (lstrip_no_space s H).
  rewrite lstrip_no_space; [apply rev_involutive|].
  apply Forall_rev_ascii. exact H.
Qed.

Lemma replace_comma_filter s :
  replace_comma (filter (fun c => c <> "_"%char) s)
  = filter (fun c => c <> "_"%char) (replace_comma s).
Proof.
  induction s as [|c s IH]; [reflexivity|].
  simpl. rewrite !filter_cons.
  destruct (decide (c <> "_"%char)) as [Hc|Hc].
  - simpl. rewrite IH.
    destruct (Ascii.eqb_spec c ",") as [->|_].
    + destruct (decide ("."%char <> "_"%char)) as [_|H]; [reflexivity|].
      exfalso. apply H. discriminate.
    + destruct (decide (c <> "_"%char)); [reflexivity|contradiction].
  - assert (c = "_"%char) as ->
      by (destruct (Ascii.eqb_spec c "_"); [assumption|contradiction]).
    rewrite IH. simpl.
    destruct (decide ("_"%char <> "_"%char)) as [H|_]; [contradiction|reflexivity].
Qed.

Lemma filter_underscore_idem (s : list ascii) :
  filter (fun c => c <> "_"%char) (filter (fun c => c <> "_"%char) s)
  = filter (fun c => c <> "_"%char) s.
Proof. rewrite list_filter_filter. apply list_filter_iff. intros c. tauto. Qed.

Lemma replace_comma_no_space s :
  Forall (fun c => isspace c = false) s ->
  Forall (fun c => isspace c = false) (replace_comma s).
Proof.
  induction 1 as [|c s Hc _ IH]; simpl; constructor; [|exact IH].
  destruct (Ascii.eqb c ","); [reflexivity|exact Hc].
Qed.

(** In a text without white space (a command argument is one) the
    underscores do not count: "1_000" is read as "1000". *)
Theorem parse_amount_ignores_underscores (raw : string) :
  Forall (fun c => isspace c = false) (list_ascii_of_string raw) ->
  parse_amount
    (string_of_list_ascii
       (filter (fun c => c <> "_"%char) (list_ascii_of_string raw)))
  = parse_amount raw.
Proof.
  intros H. unfold parse_amount.
  rewrite list_ascii_of_string_of_list_ascii.
  assert (H1 : Forall (fun c => isspace c = false)
                      (replace_comma (list_ascii_of_string raw)))
    by (apply replace_comma_no_space; exact H).
  assert (H2 : Forall (fun c => isspace c = false)
                 (replace_comma (filter (fun c => c <> "_"%char)
                                        (list_ascii_of_string raw)))).
  { rewrite replace_comma_filter. apply Forall_forall. intros c Hc.
    apply list_elem_of_filter in Hc as [_ Hc].
    rewrite Forall_forall in H1. apply H1. exact Hc. }
  rewrite (strip_no_space _ H1), (strip_no_space _ H2).
  unfold Decimal. rewrite (strip_no_space _ H1), (strip_no_space _ H2).
  rewrite replace_comma_filter, filter_underscore_idem. reflexivity.
Qed.

Lemma parse_amount_ignores_underscores_witness :
  parse_amount "1000"%string = parse_amount "1_000"%string.
Proof.
  apply (parse_amount_ignores_underscores "1_000"%string).
  repeat constructor.
Defined.

(** *** The amount depends on the value of the text only *)

Lemma units_of_value E a b :
  E <= dexp a -> E <= dexp b -> (dval a == dval b)%Q -> units E a = units E b.
Proof.
  intros Ha Hb H.
  rewrite (dval_units E a Ha), (dval_units E b Hb) in H.
  pose proof (pow10_nonzero E) as Hp.
  apply Qmult_inj_r in H; [|exact Hp].
  unfold Qeq, inject_Z in H; simpl in H. lia.
Qed.

Lemma units_sgn E a : E <= dexp a -> Z.sgn (units E a) = Z.sgn (dcoeff a).
Proof.
  intros H. unfold units. rewrite Z.sgn_mul.
  rewrite (Z.sgn_pos (10 ^ _)) by (apply Z.pow_pos_nonneg; lia).
  apply Z.mul_1_r.
Qed.

Lemma units_zero_iff E a : E <= dexp a -> units E a = 0 <-> dcoeff a = 0.
Proof.
  intros H. rewrite <- (Z.sgn_null_iff (units E a)), <- (Z.sgn_null_iff (dcoeff a)).
  rewrite units_sgn by exact H. reflexivity.
Qed.

Lemma adjusted_units E a :
  E <= dexp a -> dcoeff a <> 0 -> adjusted a = E + ndigits (units E a) - 1.
Proof.
  intros H Hc. unfold adjusted, units.
  rewrite ndigits_mul_pow10 by lia. lia.
Qed.

Lemma rescale_of_value a b exp :
  (dval a == dval b)%Q -> rescale a exp = rescale b exp.
Proof.
  intros H. set (E := Z.min (dexp a) (Z.min (dexp b) exp)).
  assert (Hu : units E a = units E b) by (apply units_of_value; [lia|lia|exact H]).
  pose proof (rescale_round E a exp ltac:(lia) ltac:(lia)) as Ha.
  pose proof (rescale_round E b exp ltac:(lia) ltac:(lia)) as Hb.
  rewrite <- (units_sgn E a), Hu in Ha by lia.
  rewrite <- (units_sgn E b) in Hb by lia.
  pose proof (dexp_rescale a exp) as Ea. pose proof (dexp_rescale b exp) as Eb.
  destruct (rescale a exp) as [ca ea], (rescale b exp) as [cb eb].
  simpl in *. congruence.
Qed.

Lemma quantize_of_value a b exp :
  (dval a == dval b)%Q -> quantize a exp = quantize b exp.
Proof.
  intros H. set (E := Z.min (dexp a) (dexp b)).
  assert (Hu : units E a = units E b) by (apply units_of_value; [lia|lia|exact H]).
  pose proof (units_zero_iff E a ltac:(lia)) as Za.
  pose proof (units_zero_iff E b ltac:(lia)) as Zb.
  unfold quantize. rewrite (rescale_of_value a b exp H).
  destruct (Z.eqb_spec (dcoeff a) 0) as [Ha|Ha];
    destruct (Z.eqb_spec (dcoeff b) 0) as [Hb|Hb]; try reflexivity.
  - exfalso. apply Hb, Zb. rewrite <- Hu. apply Za. exact Ha.
  - exfalso. apply Ha, Za. rewrite Hu. apply Zb. exact Hb.
  - rewrite (adjusted_units E a), (adjusted_units E b), Hu
      by (try exact Ha; try exact Hb; lia).
    reflexivity.
Qed.

(** Two texts that [Decimal] reads as numbers of the same value get the
    same answer from [parse_amount], the same amount or the same
    exception, however the numbers are written ("1000", "1000.00",
    "1e3", "+1000,0"). *)
Theorem parse_amount_depends_on_value (raw1 raw2 : string) (v1 v2 : dec) :
  Decimal (strip (replace_comma (list_ascii_of_string raw1))) = Some (Finite v1) ->
  Decimal (strip (replace_comma (list_ascii_of_string raw2))) = Some (Finite v2) ->
  (dval v1 == dval v2)%Q ->
  parse_amount raw1 = parse_amount raw2.
Proof.
  intros H1 H2 Hv.
  rewrite (parse_amount_finite raw1 v1 H1), (parse_amount_finite raw2 v2 H2).
  rewrite (quantize_of_value v1 v2 (-2) Hv).
  assert (Hle : dec_leb v1 dec_zero = dec_leb v2 dec_zero).
  { pose proof (dec_leb_zero v1) as Z1. pose proof (dec_leb_zero v2) as Z2.
    pose proof (dval_nonpos_iff v1) as N1. pose proof (dval_nonpos_iff v2) as N2.
    rewrite Hv in N1.
    destruct (dec_leb v1 dec_zero), (dec_leb v2 dec_zero); try reflexivity.
    - assert (H : dcoeff v2 <= 0) by (apply N2, N1, Z1; reflexivity).
      apply Z2 in H. discriminate.
    - assert (H : dcoeff v1 <= 0) by (apply N1, N2, Z2; reflexivity).
      apply Z1 in H. discriminate. }
  rewrite Hle. reflexivity.
Qed.

Lemma parse_amount_depends_on_value_witness :
  parse_amount "1e3"%string = parse_amount "+1000,0"%string.
Proof.
  apply (parse_amount_depends_on_value "1e3"%string "+1000,0"%string
           (mkdec 1 3) (mkdec 10000 (-1))).
  - reflexivity.
  - reflexivity.
  - reflexivity.
Defined.

End AmountText.

(** ** The history window *)

Module HistoryWindow.

Import PyDecimal PyFloat Ledger Spec DecimalFacts LedgerFacts Queries.

Lemma slice_from_negative {A : Type} (limit : Z) (rows : list A) :
  0 < limit ->
  slice_from (- limit) rows
  = drop (List.length rows - Z.to_nat limit) rows.
Proof.
  intros Hl. unfold slice_from.
  destruct (Z.ltb_spec (- limit) 0) as [_|?]; [|lia].
  f_equal. lia.
Qed.

Lemma slice_from_nonnegative {A : Type} (start : Z) (rows : list A) :
  0 <= start -> slice_from start rows = drop (Z.to_nat start) rows.
Proof.
  intros Hs. unfold slice_from.
  destruct (Z.ltb_spec start 0) as [?|_]; [lia|reflexivity].
Qed.

(** With a positive limit, [get_user_history] returns the [limit] newest
    rows of the user, newest first: the first [limit] entries of the
    user's rows in reverse log order (all of them when there are fewer). *)
Theorem history_newest_first (u limit : Z) (wb : workbook) :
  u <> 0 -> 0 < limit ->
  get_user_history u limit wb
  = take (Z.to_nat limit) (rev (history_rows u (Transactions wb))).
Proof.
  intros Hu Hl. rewrite get_user_history_rows.
  destruct (decide (u = 0)) as [?|_]; [contradiction|].
  rewrite slice_from_negative by exact Hl.
  symmetry. apply firstn_rev.
Qed.

Lemma history_newest_first_witness :
  get_user_history 42 1 (run sample_log init_workbook)
  = take (Z.to_nat 1)
         (rev (history_rows 42 (Transactions (run sample_log init_workbook)))).
Proof.
  apply (history_newest_first 42 1 (run sample_log init_workbook)).
  - discriminate.
  - reflexivity.
Defined.

(** A limit of zero or below does not shorten the history from the new
    end: [rows[-limit:]] then drops the [-limit] oldest rows and keeps
    all the newer ones, so limit 0 returns every row of the user. *)
Theorem history_nonpositive_limit (u limit : Z) (wb : workbook) :
  u <> 0 -> limit <= 0 ->
  get_user_history u limit wb
  = rev (drop (Z.to_nat (- limit)) (history_rows u (Transactions wb))).
Proof.
  intros Hu Hl. rewrite get_user_history_rows.
  destruct (decide (u = 0)) as [?|_]; [contradiction|].
  rewrite slice_from_nonnegative by lia. reflexivity.
Qed.

Lemma history_nonpositive_limit_witness :
  get_user_history 42 (-1) (run sample_log init_workbook)
  = rev (drop (Z.to_nat (- -1))
              (history_rows 42 (Transactions (run sample_log init_workbook)))).
Proof.
  apply (history_nonpositive_limit 42 (-1) (run sample_log init_workbook)).
  - discriminate.
  - discriminate.
Defined.

(** User id 0 is falsy: whatever the workbook holds, the two queries
    give the zero tuple and the empty history for it. *)
Theorem user_zero_is_never_found (wb : workbook) (limit : Z) :
  get_user_stats 0 wb = (dec_zero, dec_zero, dec_zero, dec_zero)
  /\ get_user_history 0 limit wb = [].
Proof.
  split; [apply get_user_stats_zero_id|].
  rewrite get_user_history_rows. simpl.
  destruct (slice_from_drop (- limit) (@nil (tx_type * dec * string))) as [k ->].
  rewrite drop_nil. reflexivity.
Qed.

End HistoryWindow.

(** ** One user's mutations and the other users *)

Module Isolation.

Import PyDecimal PyFloat Ledger Spec DecimalFacts LedgerFacts Queries.



Lemma stats_of_snoc_other v rows r :
  tx_user r <> v -> stats_of v (rows ++ [r]) = stats_of v rows.
Proof.
  intros Hne. unfold stats_of. rewrite !amounts_of_snoc.
  destruct (decide (tx_user r = v /\ tx_kind r = deposit)) as [[? _]|_]; [contradiction|].
  destruct (decide (tx_user r = v /\ tx_kind r = withdraw)) as [[? _]|_]; [contradiction|].
  rewrite !app_nil_r.
  destruct (decide (v <> 0 /\ v ∈ users rows)) as [[H1 H2]|H];
    case_decide as H'; try reflexivity.
  - exfalso. apply H'. split; [exact H1|]. apply users_snoc. left. exact H2.
  - exfalso. destruct H' as [H1 H2]. apply users_snoc in H2 as [H2|H2]; [tauto|].
    congruence.
Qed.






End Isolation.

(** ** The summary sheet as stored *)

Module SummarySheet.

Import PyDecimal PyFloat Ledger Spec DecimalFacts LedgerFacts Queries.



Lemma rebuild_stamps now wb wb' :
  _rebuild_summary now wb = Ok wb' ->
  Forall (fun row => s_updated_at row = now) (Summary wb').
Proof.
  intros H. apply rebuild_inv in H as [_ Hs]. apply rmap_Forall2 in Hs.
  induction Hs as [|x y items rows Hx _ IH]; constructor; [|exact IH].
  destruct (summary_of_inv _ _ _ Hx) as (R & _ & ->). reflexivity.
Qed.

(** A mutation that is saved rewrites the whole summary sheet: every
    row, those of the users it was not called for included, carries the
    clock reading of that mutation in [updated_at]. *)
Theorem every_row_is_restamped (m : mutation) (wb wb' : workbook) :
  apply_mutation m wb = Ok wb' ->
  Forall (fun row => s_updated_at row = mutation_now m) (Summary wb').
Proof.
  destruct m as [ts now u k a|now u]; simpl; intros H.
  - unfold add_transaction in H. eapply rebuild_stamps; exact H.
  - unfold reset_user in H. eapply rebuild_stamps; exact H.
Qed.

Lemma every_row_is_restamped_witness :
  Forall (fun row => s_updated_at row = "2024-01-02 08:00:00"%string)
         (Summary (step (run sample_log init_workbook)
                        (ResetUser "2024-01-02 08:00:00"%string 7))).
Proof.
  apply (every_row_is_restamped (ResetUser "2024-01-02 08:00:00"%string 7)
           (run sample_log init_workbook)).
  vm_compute. reflexivity.
Defined.

End SummarySheet.

(** ** The ROI on exact sums *)

Module RoiExact.

Import PyDecimal PyFloat Ledger Spec DecimalFacts DivisionFacts
       LedgerFacts Queries.

(** The half-even quotient of the hundredths, against the exact ratio. *)
Lemma half_even_near n dd :
  0 < dd ->
  let c := Z.sgn n * div_half_even (10 ^ 4 * Z.abs n) dd in
  (inject_Z n / inject_Z dd * 100 - half_cent
   <= inject_Z c * (1 # 100)
   <= inject_Z n / inject_Z dd * 100 + half_cent)%Q.
Proof.
  intros Hdd c.
  assert (Hz : - dd <= 2 * (c * dd) - 20000 * n <= dd).
  { destruct (div_half_even_spec (10 ^ 4 * Z.abs n) dd ltac:(lia) Hdd) as [Hq _].
    unfold c. set (q := div_half_even (10 ^ 4 * Z.abs n) dd) in *. clearbody q.
    change (10 ^ 4) with 10000 in Hq.
    destruct n as [|n|n]; cbn [Z.sgn Z.abs] in *; lia. }
  clearbody c.
  assert (Hy : (0 < inject_Z dd)%Q) by (unfold Qlt, inject_Z; simpl; lia).
  destruct Hz as [Hlo Hhi].
  rewrite Zle_Qle in Hlo, Hhi.
  rewrite inject_Z_minus, !inject_Z_mult in Hlo, Hhi.
  change (inject_Z (- dd)) with (- inject_Z dd)%Q in Hlo.
  change (inject_Z 2) with 2%Q in *. change (inject_Z 20000) with 20000%Q in *.
  set (x := inject_Z n) in *. set (y := inject_Z dd) in *. set (z := inject_Z c) in *.
  assert (Hr : (x / y * y == x)%Q).
  { unfold Qdiv. rewrite <- Qmult_assoc, (Qmult_comm (/ y)), Qmult_inv_r; [ring|].
    intros H0. rewrite H0 in Hy. discriminate. }
  set (r := (x / y)%Q) in *. clearbody r x y z. unfold half_cent.
  split.
  - apply Qnot_lt_le. intros Hn.
    assert (H1 : (z * (1 # 100) * y < (r * 100 - (1 # 200)) * y)%Q)
      by (apply Qmult_lt_compat_r; assumption).
    assert (H2 : ((r * 100 - (1 # 200)) * y == 100 * x - (1 # 200) * y)%Q)
      by (rewrite <- Hr; ring).
    rewrite H2 in H1. lra.
  - apply Qnot_lt_le. intros Hn.
    assert (H1 : ((r * 100 + (1 # 200)) * y < z * (1 # 100) * y)%Q)
      by (apply Qmult_lt_compat_r; assumption).
    assert (H2 : ((r * 100 + (1 # 200)) * y == 100 * x + (1 # 200) * y)%Q)
      by (rewrite <- Hr; ring).
    rewrite H2 in H1. lra.
Qed.

Lemma round_zero_roi : round_ dec_zero 2 = Ok (mkdec 0 (-2)).
Proof. reflexivity. Qed.

(** The sums of the hundredths, from the bounds on the exact sums. *)
Lemma net_units_bound deposits withdrawals :
  hundredths deposits -> hundredths withdrawals ->
  (Qabs (exact_sum withdrawals - exact_sum deposits) < inject_Z (10 ^ 20))%Q ->
  Z.abs (sum_units (-2) withdrawals - sum_units (-2) deposits) < 10 ^ 22.
Proof.
  intros [Hfd _] [Hfw _] Hb.
  rewrite (exact_sum_units (-2) _ Hfd), (exact_sum_units (-2) _ Hfw) in Hb.
  rewrite pow10_neg2 in Hb.
  set (sd := sum_units (-2) deposits) in *.
  set (sw := sum_units (-2) withdrawals) in *.
  apply Qabs_Qlt_condition in Hb as [Hb1 Hb2].
  assert (H1 : - 10 ^ 22 < sw - sd).
  { rewrite Zlt_Qlt, inject_Z_minus.
    change (inject_Z (- 10 ^ 22)) with (- inject_Z (10 ^ 20) * 100)%Q. lra. }
  assert (H2 : sw - sd < 10 ^ 22).
  { rewrite Zlt_Qlt, inject_Z_minus.
    change (inject_Z (10 ^ 22)) with (inject_Z (10 ^ 20) * 100)%Q. lra. }
  clear - H1 H2. lia.
Qed.

Lemma exact_sum_pos_units deposits :
  hundredths deposits ->
  (0 < exact_sum deposits)%Q <-> 0 < sum_units (-2) deposits.
Proof.
  intros [Hfd _]. rewrite (exact_sum_units (-2) _ Hfd), pow10_neg2.
  set (sd := sum_units (-2) deposits).
  split; intros H.
  - destruct (Z_lt_le_dec 0 sd) as [?|Hle]; [assumption|exfalso].
    rewrite Zle_Qle in Hle. change (inject_Z 0) with 0%Q in Hle. lra.
  - rewrite Zlt_Qlt in H. change (inject_Z 0) with 0%Q in H. lra.
Qed.

(** [round(roi, 2)] of [_rebuild_summary] on amounts in hundredths with a
    net result below 10^20: it does not raise, and with positive
    deposits gives the half-even quotient of the hundredths. *)
Lemma roi_round deposits withdrawals :
  hundredths deposits -> hundredths withdrawals ->
  (Qabs (exact_sum withdrawals - exact_sum deposits) < inject_Z (10 ^ 20))%Q ->
  let sd := sum_units (-2) deposits in
  let sw := sum_units (-2) withdrawals in
  exists R,
    round_ (roi_of (total deposits) (total withdrawals)) 2 = Ok R
    /\ dexp R = -2
    /\ (0 < sd ->
        dcoeff R = Z.sgn (sw - sd) * div_half_even (10 ^ 4 * Z.abs (sw - sd)) sd).
Proof.
  intros Hd Hw Hb sd sw.
  pose proof (net_units_bound _ _ Hd Hw Hb) as Hn. fold sd in Hn. fold sw in Hn.
  destruct (Totals.hundredths_total _ Hd) as (Hed & Hud & Hbd & _).
  destruct (Totals.hundredths_total _ Hw) as (Hew & Huw & Hbw & _).
  fold sd in Hud, Hbd. fold sw in Huw, Hbw.
  set (D := total deposits) in *. set (W := total withdrawals) in *.
  destruct (Z_lt_le_dec 0 (dcoeff D)) as [HD|HD].
  - destruct (dsub_units (-2) W D Hew Hed) as [He Hu].
    { rewrite Huw, Hud. unfold prec. clear - Hn. lia. }
    rewrite Huw, Hud in Hu.
    destruct (roi_rounded (dsub W D) D He Hed HD) as (R & HR & HeR & HcR).
    { rewrite Hu. exact Hn. }
    exists R. rewrite (Roi.roi_of_positive D W HD).
    split; [exact HR|]. split; [exact HeR|]. intros _.
    rewrite Hu, Hud in HcR. rewrite HcR. f_equal.
    rewrite <- Hu. unfold units. rewrite Z.sgn_mul.
    rewrite (Z.sgn_pos (10 ^ _)) by (apply Z.pow_pos_nonneg; lia).
    symmetry. apply Z.mul_1_r.
  - exists (mkdec 0 (-2)). rewrite (Roi.roi_of_guard D W HD).
    split; [apply round_zero_roi|]. split; [reflexivity|].
    intros Hsd. exfalso. rewrite <- Hud in Hsd. unfold units in Hsd.
    assert (Hp : 0 < 10 ^ (dexp D - -2)) by (apply Z.pow_pos_nonneg; lia).
    clear - Hsd HD Hp. nia.
Qed.

(** The half-even quotient of the hundredths is the hundredth nearest
    to the exact ROI. *)
Lemma roi_round_nearest deposits withdrawals R :
  hundredths deposits -> hundredths withdrawals ->
  0 < sum_units (-2) deposits ->
  dexp R = -2 ->
  dcoeff R
  = Z.sgn (sum_units (-2) withdrawals - sum_units (-2) deposits)
    * div_half_even
        (10 ^ 4 * Z.abs (sum_units (-2) withdrawals - sum_units (-2) deposits))
        (sum_units (-2) deposits) ->
  nearest_hundredth (roi_exact deposits withdrawals) R.
Proof.
  intros [Hfd _] [Hfw _] Hpos HeR HcR. split; [exact HeR|].
  set (net := sum_units (-2) withdrawals - sum_units (-2) deposits) in *.
  assert (Hv : (dval R == inject_Z (dcoeff R) * (1 # 100))%Q).
  { rewrite (dval_units (-2) R) by lia. unfold units.
    rewrite HeR, Z.mul_1_r, pow10_neg2. reflexivity. }
  assert (Hx : (roi_exact deposits withdrawals
                == inject_Z net / inject_Z (sum_units (-2) deposits) * 100)%Q).
  { unfold roi_exact, net.
    rewrite (exact_sum_units (-2) _ Hfd), (exact_sum_units (-2) _ Hfw).
    rewrite pow10_neg2, inject_Z_minus.
    assert (Hs0 : ~ (inject_Z (sum_units (-2) deposits) == 0)%Q).
    { unfold Qeq, inject_Z; simpl. lia. }
    field. exact Hs0. }
  rewrite Hx, Hv, HcR. apply half_even_near. exact Hpos.
Qed.


Lemma sample_hundredths k :
  hundredths (amounts_of k 42 (Transactions (run sample_log init_workbook))).
Proof.
  destruct k;
    (split; [vm_compute; repeat constructor; discriminate|vm_compute; reflexivity]).
Qed.


(** Under the same conditions the rounded ROI is never below -100.00,
    is not negative when the withdrawals reach the deposits, is not
    positive when they do not exceed them, and is -100.00 exactly when
    nothing was withdrawn. *)
Theorem roi_range (deposits withdrawals : list dec) (R : dec) :
  hundredths deposits -> hundredths withdrawals ->
  (0 < exact_sum deposits)%Q ->
  (Qabs (exact_sum withdrawals - exact_sum deposits) < inject_Z (10 ^ 20))%Q ->
  round_ (roi_of (total deposits) (total withdrawals)) 2 = Ok R ->
  (-100 <= dval R)%Q
  /\ ((exact_sum deposits <= exact_sum withdrawals)%Q -> (0 <= dval R)%Q)
  /\ ((exact_sum withdrawals <= exact_sum deposits)%Q -> (dval R <= 0)%Q)
  /\ ((exact_sum withdrawals == 0)%Q -> R = mkdec (-10000) (-2)).
Proof.
  intros Hd Hw Hpos Hb HR.
  destruct (roi_round deposits withdrawals Hd Hw Hb) as (R' & HR' & HeR & HcR).
  rewrite HR in HR'. injection HR' as <-.
  apply (exact_sum_pos_units _ Hd) in Hpos. specialize (HcR Hpos).
  destruct (Totals.hundredths_total _ Hw) as (_ & _ & Hbw & _).
  destruct Hd as [Hfd _]. destruct Hw as [Hfw _].
  rewrite (exact_sum_units (-2) _ Hfd), (exact_sum_units (-2) _ Hfw), pow10_neg2.
  set (sd := sum_units (-2) deposits) in *.
  set (sw := sum_units (-2) withdrawals) in *.
  set (q := div_half_even (10 ^ 4 * Z.abs (sw - sd)) sd) in *.
  assert (Hq0 : 0 <= q).
  { apply div_half_even_ge; [lia|exact Hpos|lia]. }
  assert (Hv : (dval R == inject_Z (dcoeff R) * (1 # 100))%Q).
  { rewrite (dval_units (-2) R) by lia. unfold units.
    rewrite HeR, Z.mul_1_r, pow10_neg2. reflexivity. }
  assert (Hlow : sw <= sd -> - 10000 <= dcoeff R <= 0).
  { intros Hle.
    assert (Hq : q <= 10 ^ 4).
    { apply div_half_even_le; [lia|exact Hpos|].
      apply Z.mul_le_mono_nonneg_l; lia. }
    change (10 ^ 4) with 10000 in Hq. rewrite HcR. clearbody q.
    destruct (sw - sd) as [|p|p] eqn:E; cbn [Z.sgn]; lia. }
  assert (Hhigh : sd <= sw -> 0 <= dcoeff R).
  { intros Hle. rewrite HcR. clearbody q.
    destruct (sw - sd) as [|p|p] eqn:E; cbn [Z.sgn]; lia. }
  split; [|split; [|split]].
  - rewrite Hv.
    assert (H : - 10000 <= dcoeff R).
    { destruct (Z_le_gt_dec sw sd) as [Hle|Hgt]; [apply Hlow; exact Hle|].
      specialize (Hhigh ltac:(lia)). lia. }
    rewrite Zle_Qle in H. change (inject_Z (-10000)) with (-10000)%Q in H. lra.
  - intros Hle. rewrite Hv.
    assert (H : 0 <= dcoeff R).
    { apply Hhigh. rewrite Zle_Qle. lra. }
    rewrite Zle_Qle in H. change (inject_Z 0) with 0%Q in H. lra.
  - intros Hle. rewrite Hv.
    assert (H : dcoeff R <= 0).
    { apply Hlow. rewrite Zle_Qle. lra. }
    rewrite Zle_Qle in H. change (inject_Z 0) with 0%Q in H. lra.
  - intros H0.
    assert (Hsw : sw = 0).
    { destruct (Z.eq_dec sw 0) as [?|Hne]; [assumption|exfalso].
      assert (H1 : 1 <= sw) by lia. rewrite Zle_Qle in H1.
      change (inject_Z 1) with 1%Q in H1. lra. }
    assert (Hc : dcoeff R = -10000).
    { rewrite HcR. unfold q. rewrite Hsw.
      replace (0 - sd) with (- sd) by lia.
      rewrite Z.abs_opp, (Z.abs_eq sd) by lia.
      rewrite div_half_even_exact by exact Hpos.
      rewrite Z.sgn_neg by lia. reflexivity. }
    destruct R as [c e]. simpl in *. congruence.
Qed.

Lemma roi_range_witness :
  (-100 <= dval (mkdec (-7000) (-2)))%Q /\ (dval (mkdec (-7000) (-2)) <= 0)%Q.
Proof.
  destruct (roi_range
              (amounts_of deposit 42 (Transactions (run sample_log init_workbook)))
              (amounts_of withdraw 42 (Transactions (run sample_log init_workbook)))
              (mkdec (-7000) (-2))
              (sample_hundredths deposit) (sample_hundredths withdraw)
              ltac:(vm_compute; reflexivity) ltac:(vm_compute; reflexivity)
              ltac:(vm_compute; reflexivity)) as (H1 & _ & H3 & _).
  split; [exact H1|]. apply H3. vm_compute. discriminate.
Defined.

(** Each summary row of a stored workbook can be built again at any
    time. *)
Lemma stored_item_ok now wb v st :
  consistent wb -> collect (Transactions wb) !! v = Some st ->
  is_ok (summary_of now (v, st)) = true.
Proof.
  intros [now0 Hc] Hin. apply rebuild_inv in Hc as [_ Hs].
  apply rmap_Forall2 in Hs. apply elem_of_sorted_items in Hin.
  apply (summary_of_is_ok_now now0).
  induction Hs as [|x y items rows Hx _ IH].
  - inversion Hin.
  - apply elem_of_cons in Hin as [<-|Hin]; [rewrite Hx; reflexivity|auto].
Qed.

Lemma add_transaction_ok wb ts now u k a :
  let rows := Transactions wb ++ [mk_tx u k (float_of_dec a) ts] in
  consistent wb ->
  hundredths (amounts_of deposit u rows) ->
  hundredths (amounts_of withdraw u rows) ->
  (Qabs (exact_sum (amounts_of withdraw u rows)
         - exact_sum (amounts_of deposit u rows)) < inject_Z (10 ^ 20))%Q ->
  exists wb',
    add_transaction ts now u k a wb = Ok wb' /\ Transactions wb' = rows.
Proof.
  intros rows Hc Hd Hw Hb.
  unfold add_transaction, _rebuild_summary. cbn [Transactions]. fold rows.
  assert (Hok : is_ok (rmap (summary_of now) (sorted_items (collect rows))) = true).
  { apply rmap_is_ok. rewrite Forall_forall. intros [v st] Hin.
    apply elem_of_sorted_items in Hin. rewrite collect_lookup in Hin.
    destruct (decide (v = u)) as [->|Hne].
    - unfold stats_of in Hin. case_decide as Hu; [|discriminate].
      injection Hin as <-.
      destruct (roi_round _ _ Hd Hw Hb) as (R & HR & _).
      unfold summary_of. cbn [fst snd]. rewrite HR. reflexivity.
    - unfold rows in Hin. rewrite Isolation.stats_of_snoc_other in Hin
        by (cbn [tx_user]; congruence).
      rewrite <- collect_lookup in Hin.
      apply (stored_item_ok now wb v st Hc Hin). }
  destruct (rmap (summary_of now) (sorted_items (collect rows))) as [srows|e];
    [|discriminate].
  eexists. split; reflexivity.
Qed.



End RoiExact.

(** ** The float cells *)

Module FloatCells.

Import PyDecimal PyFloat Ledger Spec DecimalFacts DivisionFacts.

(** *** [float(Decimal)] *)

Lemma nearest_double_sign sign n d :
  nearest_double sign n d
  = mkfloat (sign * fmant (nearest_double 1 n d)) (fexp (nearest_double 1 n d)).
Proof.
  unfold nearest_double.
  set (p := Z.max _ emin).
  set (m := div_half_even _ _).
  destruct (m =? 0); [cbn [fmant fexp float_zero]; rewrite Z.mul_0_r; reflexivity|].
  destruct (m =? 2 ^ 53); cbn [fmant fexp]; rewrite Z.mul_1_l; reflexivity.
Qed.

(** The result of the conversion is within half a unit in the last place
    of the number converted. *)
Lemma nearest_double_near n d M P :
  0 < n -> 0 < d -> nearest_double 1 n d = mkfloat M P -> P < 0 ->
  Z.abs (2 * (M * d - n * 2 ^ (- P))) <= d.
Proof.
  intros Hn Hd H HP. unfold nearest_double in H.
  set (p := Z.max _ emin) in H.
  set (m := div_half_even _ _) in H.
  destruct (Z.eqb_spec m 0) as [_|_].
  { unfold float_zero in H. injection H as _ <-. lia. }
  destruct (Z.eqb_spec m (2 ^ 53)) as [Hm|_].
  - injection H as <- <-.
    assert (Hp : p < -1) by lia.
    unfold m in Hm. rewrite (Z.max_l (- p) 0), (Z.max_r p 0) in Hm by lia.
    destruct (div_half_even_spec (n * 2 ^ (- p)) (d * 2 ^ 0)) as [Hs _].
    { apply Z.mul_nonneg_nonneg; [lia|]. apply Z.pow_nonneg. lia. }
    { change (2 ^ 0) with 1. lia. }
    rewrite Hm in Hs. change (2 ^ 0) with 1 in Hs. rewrite Z.mul_1_r in Hs.
    replace (- p) with (Z.succ (- (p + 1))) in Hs by lia.
    rewrite Z.pow_succ_r in Hs by lia.
    change (2 ^ 53) with (2 * 2 ^ 52) in Hs.
    set (x := 2 ^ 52) in *. set (y := 2 ^ (- (p + 1))) in *.
    clearbody x y. clear - Hs Hd. lia.
  - injection H as <- <-.
    unfold m. rewrite (Z.max_l (- p) 0), (Z.max_r p 0) by lia.
    destruct (div_half_even_spec (n * 2 ^ (- p)) (d * 2 ^ 0)) as [Hs _].
    { apply Z.mul_nonneg_nonneg; [lia|]. apply Z.pow_nonneg. lia. }
    { change (2 ^ 0) with 1. lia. }
    change (2 ^ 0) with 1 in Hs |- *. rewrite !Z.mul_1_r in Hs |- *.
    rewrite Z.mul_1_l. exact Hs.
Qed.

Lemma pow2_log2_le n : 0 < n -> 2 ^ Z.log2 n <= n < 2 ^ (Z.log2 n + 1).
Proof.
  intros Hn. destruct (Z.log2_spec n Hn) as [H1 H2].
  split; [exact H1|]. replace (Z.log2 n + 1) with (Z.succ (Z.log2 n)) by lia.
  exact H2.
Qed.

(** Below 2^50, with a denominator up to 100, the conversion gives a
    normal double with a negative exponent. *)
Lemma nearest_double_normal n d M P :
  0 < n < 2 ^ 50 -> 0 < d <= 100 ->
  nearest_double 1 n d = mkfloat M P ->
  2 ^ 52 <= M /\ P < 0.
Proof.
  intros Hn Hd H. unfold nearest_double in H.
  pose proof (pow2_log2_le n ltac:(lia)) as [Hn1 Hn2].
  pose proof (pow2_log2_le d ltac:(lia)) as [Hd1 Hd2].
  pose proof (Z.log2_nonneg n) as Hln0. pose proof (Z.log2_nonneg d) as Hld0.
  assert (Hln : Z.log2 n < 50).
  { apply (Z.pow_lt_mono_r_iff 2); lia. }
  assert (Hld : Z.log2 d < 7).
  { apply (Z.pow_lt_mono_r_iff 2); [lia|lia|]. change (2 ^ 7) with 128. lia. }
  set (p0 := Z.log2 n - Z.log2 d - 52) in *.
  assert (Hp0 : -58 <= p0 <= -3) by (unfold p0; lia).
  destruct (Z.leb_spec 0 p0) as [?|_]; [lia|].
  set (quo := n * 2 ^ (- p0) / d) in *.
  set (p1 := if 2 ^ 52 <=? quo then p0 else p0 - 1) in *.
  assert (Hp1 : -59 <= p1 <= -3).
  { unfold p1. destruct (2 ^ 52 <=? quo); lia. }
  rewrite (Z.max_l p1 emin) in H by (unfold emin; lia).
  rewrite (Z.max_l (- p1) 0), (Z.max_r p1 0) in H by lia.
  change (2 ^ 0) with 1 in H. rewrite Z.mul_1_r in H.
  set (m := div_half_even (n * 2 ^ (- p1)) d) in *.
  assert (Hbig : 2 ^ 52 * d <= n * 2 ^ (- p1)).
  { unfold p1. destruct (Z.leb_spec (2 ^ 52) quo) as [Hq|Hq].
    - unfold quo in Hq.
      pose proof (Z.mul_div_le (n * 2 ^ (- p0)) d ltac:(lia)) as Hdiv.
      apply Z.le_trans with (d * (n * 2 ^ (- p0) / d)); [|exact Hdiv].
      rewrite (Z.mul_comm (2 ^ 52) d). apply Z.mul_le_mono_nonneg_l; lia.
    - replace (- (p0 - 1)) with (52 + Z.log2 d + 1 - Z.log2 n) by (unfold p0; lia).
      apply Z.le_trans with (2 ^ 52 * 2 ^ (Z.log2 d + 1)).
      + apply Z.mul_le_mono_nonneg_l; lia.
      + apply Z.le_trans with (2 ^ Z.log2 n * 2 ^ (52 + Z.log2 d + 1 - Z.log2 n)).
        * rewrite <- !Z.pow_add_r by lia.
          apply Z.pow_le_mono_r; lia.
        * apply Z.mul_le_mono_nonneg_r; [apply Z.pow_nonneg; lia|exact Hn1]. }
  assert (Hm : 2 ^ 52 <= m).
  { apply div_half_even_ge; [|lia|exact Hbig].
    apply Z.mul_nonneg_nonneg; [lia|apply Z.pow_nonneg; lia]. }
  destruct (Z.eqb_spec m 0) as [Hz|_].
  { exfalso. rewrite Hz in Hm. revert Hm. change (2 ^ 52) with 4503599627370496. lia. }
  destruct (Z.eqb_spec m (2 ^ 53)) as [_|_]; injection H as <- <-.
  - split; lia.
  - split; lia.
Qed.

(** *** [Decimal(str(float))] *)

Lemma shortest_digits_S fuel k f e10 :
  shortest_digits (S fuel) k f e10
  = let n := fnum f in
    let d := fden f in
    let s := e10 - k + 1 in
    let lo := scaled_floor n d s in
    let num2 := if 0 <=? s then 2 * (n - lo * d * 10 ^ s)
                else 2 * (n * 10 ^ (- s) - lo * d) in
    let unit := if 0 <=? s then d * 10 ^ s else d in
    let up := (unit <? num2) || ((unit =? num2) && Z.odd lo) in
    let first := if up then lo + 1 else lo in
    let second := if up then lo else lo + 1 in
    let back c := float_eqb (float_of_dec (mkdec c s))
                            (mkfloat (Z.abs (fmant f)) (fexp f)) in
    if back first then (first, s)
    else if back second then (second, s)
    else shortest_digits fuel (k + 1) f e10.
Proof. reflexivity. Qed.

Lemma float_eqb_eq f g : float_eqb f g = true -> f = g.
Proof.
  unfold float_eqb. intros H. apply andb_prop in H as [H1 H2].
  apply Z.eqb_eq in H1, H2. destruct f, g; simpl in *. congruence.
Qed.

Lemma float_eqb_refl f : float_eqb f f = true.
Proof. unfold float_eqb. rewrite !Z.eqb_refl. reflexivity. Qed.

(** The integer nearest to [X / Y] when [X / Y] is within less than a
    half of the integer [c]. *)
Lemma nearest_integer X Y c :
  0 < Y -> Z.abs (2 * (X - c * Y)) < Y ->
  let lo := X / Y in
  let num2 := 2 * (X - lo * Y) in
  (if (Y <? num2) || ((Y =? num2) && Z.odd lo) then lo + 1 else lo) = c.
Proof.
  intros HY H lo num2.
  pose proof (Z.div_mod X Y ltac:(lia)) as Hdm.
  pose proof (Z.mod_pos_bound X Y HY) as Hr.
  fold lo in Hdm. set (r := X mod Y) in *.
  assert (Hnum : num2 = 2 * r) by (unfold num2; lia).
  rewrite Hnum.
  assert (Hc : (lo = c /\ 2 * r < Y) \/ (lo = c - 1 /\ Y < 2 * r)).
  { clearbody lo r. clear num2 Hnum.
    assert (Hlo : lo = c \/ lo = c - 1 \/ lo < c - 1 \/ c < lo) by lia.
    destruct Hlo as [->|[->|[Hl|Hl]]].
    - left. split; [reflexivity|]. lia.
    - right. split; [reflexivity|]. lia.
    - exfalso. assert ((lo + 2) * Y <= c * Y) by (apply Z.mul_le_mono_nonneg_r; lia). lia.
    - exfalso. assert ((c + 1) * Y <= lo * Y) by (apply Z.mul_le_mono_nonneg_r; lia). lia. }
  destruct Hc as [[-> Hlt]|[-> Hgt]].
  - destruct (Z.ltb_spec Y (2 * r)); [lia|].
    destruct (Z.eqb_spec Y (2 * r)); [lia|]. reflexivity.
  - destruct (Z.ltb_spec Y (2 * r)); [|lia]. simpl. lia.
Qed.

Lemma fnum_normal f : fexp f < 0 -> fnum f = Z.abs (fmant f).
Proof.
  intros H. unfold fnum. rewrite (Z.max_r (fexp f) 0) by lia.
  change (2 ^ 0) with 1. lia.
Qed.

Lemma fden_normal f : fexp f < 0 -> fden f = 2 ^ (- fexp f).
Proof. intros H. unfold fden. rewrite (Z.max_l (- fexp f) 0) by lia. reflexivity. Qed.

Lemma scaled_floor_nonneg n d s : 0 <= n -> 0 < d -> 0 <= scaled_floor n d s.
Proof.
  intros Hn Hd. unfold scaled_floor. destruct (Z.leb_spec 0 s) as [Hs|Hs].
  - apply Z.div_pos; [lia|]. apply Z.mul_pos_pos; [lia|].
    apply Z.pow_pos_nonneg; lia.
  - apply Z.div_pos; [|lia]. apply Z.mul_nonneg_nonneg; [lia|].
    apply Z.pow_nonneg; lia.
Qed.

Section Search.

(** A double [M * 2 ^ P] within half a unit in the last place of
    [c * 10 ^ e], which is what [float_of_dec] gives for that number. *)
Variables M P c e : Z.
Hypothesis HM : 0 < M.
Hypothesis HP : P < 0.
Hypothesis Hc : 0 < c.
Hypothesis He : e <= 0.
Hypothesis Hnear : Z.abs (2 * (M * 10 ^ (- e) - c * 2 ^ (- P))) <= 10 ^ (- e).
Hypothesis Hulp : 10 ^ (- e) < 2 ^ (- P).
Hypothesis Hback : float_of_dec (mkdec c e) = mkfloat M P.

(** A candidate on a grid no finer than that of [c * 10 ^ e] that
    converts to the same double has the value [c * 10 ^ e]. *)
Lemma back_sound cand s :
  e <= s -> 0 <= cand ->
  float_eqb (float_of_dec (mkdec cand s)) (mkfloat M P) = true ->
  cand * 10 ^ (s - e) = c.
Proof using HM HP Hc He Hnear Hulp.
  intros Hs Hcand Hb. apply float_eqb_eq in Hb.
  pose proof (Z.pow_pos_nonneg 10 (- e) ltac:(lia) ltac:(lia)) as Hd.
  pose proof (Z.pow_pos_nonneg 2 (- P) ltac:(lia) ltac:(lia)) as HY.
  pose proof (Z.pow_pos_nonneg 10 (s - e) ltac:(lia) ltac:(lia)) as Ht.
  set (d := 10 ^ (- e)) in *. set (Y := 2 ^ (- P)) in *.
  unfold float_of_dec in Hb. cbn [dcoeff dexp] in Hb.
  destruct (Z.eqb_spec cand 0) as [->|Hnz].
  { unfold float_zero in Hb. injection Hb as Hb _. lia. }
  rewrite (Z.abs_eq cand), (Z.sgn_pos cand) in Hb by lia.
  assert (Hkey : forall n1 d1 t,
             0 < n1 -> 0 < d1 -> 0 < t -> d1 * t = d ->
             nearest_double 1 n1 d1 = mkfloat M P -> n1 * t = c).
  { intros n1 d1 t Hn1 Hd1 Ht1 Hdt Hnd.
    pose proof (nearest_double_near n1 d1 M P Hn1 Hd1 Hnd HP) as Hn.
    fold Y in Hn.
    assert (Hn' : Z.abs (2 * (M * d - n1 * t * Y)) <= d).
    { rewrite <- Hdt.
      replace (2 * (M * (d1 * t) - n1 * t * Y))
        with (2 * (M * d1 - n1 * Y) * t) by ring.
      rewrite Z.abs_mul, (Z.abs_eq t) by lia.
      apply Z.mul_le_mono_nonneg_r; lia. }
    set (z := n1 * t) in *.
    assert (Hz : Z.abs (2 * ((z - c) * Y)) <= 2 * d).
    { replace (2 * ((z - c) * Y))
        with (2 * (M * d - c * Y) - 2 * (M * d - z * Y)) by ring.
      clearbody z d Y. clear - Hn' Hnear. lia. }
    rewrite Z.abs_mul, Z.abs_mul, (Z.abs_eq Y) in Hz by lia.
    change (Z.abs 2) with 2 in Hz.
    destruct (Z.eq_dec z c) as [?|Hne]; [assumption|exfalso].
    assert (H1 : 1 <= Z.abs (z - c)) by lia.
    assert (H2 : Y <= Z.abs (z - c) * Y).
    { rewrite <- (Z.mul_1_l Y) at 1. apply Z.mul_le_mono_nonneg_r; lia. }
    clearbody z d Y. clear - Hz H2 Hulp. lia. }
  destruct (Z.leb_spec 0 s) as [Hs0|Hs0].
  - pose proof (Z.pow_pos_nonneg 10 s ltac:(lia) Hs0) as Hps.
    assert (Hn1 : 0 < cand * 10 ^ s) by (apply Z.mul_pos_pos; lia).
    specialize (Hkey (cand * 10 ^ s) 1 d Hn1 ltac:(lia) Hd ltac:(lia) Hb).
    rewrite <- Hkey. unfold d. rewrite <- Z.mul_assoc, <- Z.pow_add_r by lia.
    reflexivity.
  - pose proof (Z.pow_pos_nonneg 10 (- s) ltac:(lia) ltac:(lia)) as Hps.
    assert (Hdt : 10 ^ (- s) * 10 ^ (s - e) = d).
    { unfold d. rewrite <- Z.pow_add_r by lia. f_equal. lia. }
    exact (Hkey cand (10 ^ (- s)) (10 ^ (s - e)) ltac:(lia) Hps Ht Hdt Hb).
Qed.

Variable f : float.
Hypothesis Hfm : Z.abs (fmant f) = M.
Hypothesis Hfe : fexp f = P.

(** At the grid of [c * 10 ^ e] the first candidate is [c]. *)
Lemma first_candidate :
  let n := fnum f in
  let d := fden f in
  let lo := scaled_floor n d e in
  let num2 := if 0 <=? e then 2 * (n - lo * d * 10 ^ e)
              else 2 * (n * 10 ^ (- e) - lo * d) in
  let unit := if 0 <=? e then d * 10 ^ e else d in
  let up := (unit <? num2) || ((unit =? num2) && Z.odd lo) in
  (if up then lo + 1 else lo) = c.
Proof using HP He Hnear Hulp Hfm Hfe.
  rewrite (fnum_normal f), (fden_normal f), Hfm, Hfe by lia. unfold scaled_floor.
  pose proof (Z.pow_pos_nonneg 2 (- P) ltac:(lia) ltac:(lia)) as HY.
  assert (Hlt : Z.abs (2 * (M * 10 ^ (- e) - c * 2 ^ (- P))) < 2 ^ (- P)) by lia.
  destruct (Z.leb_spec 0 e) as [He0|He0].
  - assert (He' : e = 0) by lia. revert Hlt. rewrite He'.
    change (- 0) with 0. change (10 ^ 0) with 1. rewrite !Z.mul_1_r.
    intros Hlt. apply (nearest_integer M (2 ^ (- P)) c HY Hlt).
  - apply (nearest_integer (M * 10 ^ (- e)) (2 ^ (- P)) c HY Hlt).
Qed.

(** The search stops at the grid of [c * 10 ^ e] at the latest, on digits
    of that value. *)
Lemma shortest_digits_value fuel k e10 :
  1 <= k -> k <= e10 - e + 1 < k + Z.of_nat fuel ->
  e <= snd (shortest_digits fuel k f e10)
  /\ fst (shortest_digits fuel k f e10)
     * 10 ^ (snd (shortest_digits fuel k f e10) - e) = c.
Proof using HM HP Hc He Hnear Hulp Hback Hfm Hfe.
  revert k. induction fuel as [|fuel IH]; intros k Hk Hrange; [lia|].
  rewrite shortest_digits_S. cbv zeta.
  rewrite Hfm, Hfe.
  set (s := e10 - k + 1).
  assert (Hs : e <= s) by (unfold s; lia).
  assert (Hlo : 0 <= scaled_floor (fnum f) (fden f) s).
  { apply scaled_floor_nonneg.
    - rewrite (fnum_normal f), Hfm by lia. lia.
    - rewrite (fden_normal f), Hfe by lia. apply Z.pow_pos_nonneg; lia. }
  set (lo := scaled_floor (fnum f) (fden f) s) in *.
  set (up := (_ <? _) || _).
  set (first := if up then lo + 1 else lo).
  set (second := if up then lo else lo + 1).
  assert (Hf0 : 0 <= first) by (unfold first; destruct up; lia).
  assert (Hs0 : 0 <= second) by (unfold second; destruct up; lia).
  destruct (float_eqb (float_of_dec (mkdec first s)) (mkfloat M P)) eqn:Hb1.
  - cbn [fst snd]. split; [exact Hs|]. apply back_sound; assumption.
  - destruct (float_eqb (float_of_dec (mkdec second s)) (mkfloat M P)) eqn:Hb2.
    + cbn [fst snd]. split; [exact Hs|]. apply back_sound; assumption.
    + assert (Hk' : k < e10 - e + 1).
      { destruct (Z.eq_dec k (e10 - e + 1)) as [Heq|?]; [exfalso|lia].
        assert (Hse : s = e) by (unfold s; lia).
        pose proof first_candidate as Hfc. cbv zeta in Hfc.
        unfold first, up, lo in Hb1. rewrite Hse in Hb1. rewrite Hfc in Hb1.
        rewrite Hback, float_eqb_refl in Hb1. discriminate. }
      apply IH; lia.
Qed.

End Search.

Lemma drop_zeros_value fuel c e :
  e <= snd (drop_zeros fuel c e)
  /\ fst (drop_zeros fuel c e) * 10 ^ (snd (drop_zeros fuel c e) - e) = c.
Proof.
  revert c e. induction fuel as [|fuel IH]; intros c e; simpl.
  - rewrite Z.sub_diag. change (10 ^ 0) with 1. lia.
  - destruct (Z.eqb_spec (c mod 10) 0) as [Hm|Hm]; simpl.
    + destruct (Z.eqb_spec c 0) as [Hz|Hz]; simpl.
      * rewrite Z.sub_diag. change (10 ^ 0) with 1. lia.
      * destruct (IH (c / 10) (e + 1)) as [H1 H2]. split; [lia|].
        replace (snd (drop_zeros fuel (c / 10) (e + 1)) - e)
          with (Z.succ (snd (drop_zeros fuel (c / 10) (e + 1)) - (e + 1))) by lia.
        rewrite Z.pow_succ_r by lia.
        pose proof (Z.div_mod c 10 ltac:(lia)) as Hdm.
        set (x := fst _) in *. set (y := 10 ^ _) in *. clearbody x y. lia.
    + rewrite Z.sub_diag. change (10 ^ 0) with 1. lia.
Qed.

(** *** The round trip *)

Lemma ulp_below_grid M Y c d :
  2 ^ 52 <= M -> 0 < Y -> 0 < d <= 100 -> 0 < c < 10 ^ 13 * d ->
  Z.abs (2 * (M * d - c * Y)) <= d ->
  d < Y.
Proof.
  intros HM HY Hd Hc Hnear.
  destruct (Z_lt_le_dec 100 Y) as [?|HY100]; [lia|exfalso].
  assert (H1 : 2 ^ 52 * d <= M * d) by (apply Z.mul_le_mono_nonneg_r; lia).
  assert (H2 : c * Y <= 10 ^ 13 * d * Y) by (apply Z.mul_le_mono_nonneg_r; lia).
  assert (H3 : 10 ^ 13 * d * Y <= 10 ^ 13 * d * 100).
  { apply Z.mul_le_mono_nonneg_l; [|exact HY100].
    apply Z.mul_nonneg_nonneg; lia. }
  change (2 ^ 52) with 4503599627370496 in H1.
  change (10 ^ 13) with 10000000000000 in H2, H3.
  set (x := M * d) in *. set (y := c * Y) in *.
  set (z := 10000000000000 * d * Y) in *.
  clearbody x y z. clear - H1 H2 H3 Hnear Hd. lia.
Qed.

Lemma decimal_exponent_range M Y c d e :
  0 < M -> 0 < Y -> -2 <= e <= 0 -> d = 10 ^ (- e) ->
  2 <= c < 10 ^ 13 * d ->
  Z.abs (2 * (M * d - c * Y)) <= d -> d < Y ->
  e <= decimal_exponent M Y <= e + 15.
Proof.
  intros HM HY He Hd Hc Hnear Hulp.
  assert (Hd0 : 0 < d) by (rewrite Hd; apply Z.pow_pos_nonneg; lia).
  unfold decimal_exponent. destruct (Z.leb_spec Y M) as [Hge|Hlt].
  - pose proof (ndigits_pos (M / Y)) as Hnd.
    split; [lia|].
    assert (Hq : M / Y < 10 ^ 13).
    { apply Z.div_lt_upper_bound; [exact HY|].
      apply (Z.mul_lt_mono_pos_r d); [exact Hd0|].
      assert (H1 : M * d < (c + 1) * Y).
      { assert (c * Y + Y = (c + 1) * Y) by ring.
        set (x := M * d) in *. set (y := c * Y) in *. clearbody x y. lia. }
      apply Z.lt_le_trans with ((c + 1) * Y); [exact H1|].
      replace (Y * 10 ^ 13 * d) with (10 ^ 13 * d * Y) by ring.
      apply Z.mul_le_mono_nonneg_r; lia. }
    assert (Hq0 : 0 <= M / Y) by (apply Z.div_pos; lia).
    assert (ndigits (M / Y) <= 13); [|lia].
    apply ndigits_le_iff; [lia|]. rewrite Z.abs_eq by exact Hq0. exact Hq.
  - pose proof (ndigits_pos (Y / M)) as Hnd.
    split; [|lia].
    assert (He' : e < 0).
    { destruct (Z.eq_dec e 0) as [->|?]; [exfalso|lia].
      change (- 0) with 0 in Hd. change (10 ^ 0) with 1 in Hd. subst d.
      rewrite Z.mul_1_r in Hnear.
      assert (M = c * Y) by lia.
      assert (1 * Y <= c * Y) by (apply Z.mul_le_mono_nonneg_r; lia). lia. }
    assert (Hq : Y / M < d).
    { apply Z.div_lt_upper_bound; [exact HM|].
      assert (H1 : 2 * Y <= c * Y) by (apply Z.mul_le_mono_nonneg_r; lia).
      set (x := M * d) in *. set (y := c * Y) in *. clearbody x y. lia. }
    assert (Hq0 : 0 <= Y / M) by (apply Z.div_pos; lia).
    assert (ndigits (Y / M) <= - e); [|lia].
    apply ndigits_le_iff; [lia|]. rewrite Z.abs_eq by exact Hq0.
    rewrite <- Hd. exact Hq.
Qed.

Lemma float_of_dec_sign sg c e :
  sg = 1 \/ sg = -1 -> 0 < c ->
  float_of_dec (mkdec (sg * c) e)
  = mkfloat (sg * fmant (float_of_dec (mkdec c e))) (fexp (float_of_dec (mkdec c e))).
Proof.
  intros Hsg Hc. unfold float_of_dec. cbn [dcoeff dexp].
  assert (Habs : Z.abs (sg * c) = c) by (destruct Hsg as [->| ->]; lia).
  assert (Hsgn : Z.sgn (sg * c) = sg) by (destruct Hsg as [->| ->]; lia).
  rewrite Habs, Hsgn, (Z.abs_eq c), (Z.sgn_pos c) by lia.
  destruct (Z.eqb_spec (sg * c) 0) as [?|_]; [lia|].
  destruct (Z.eqb_spec c 0) as [?|_]; [lia|].
  destruct (0 <=? e); apply nearest_double_sign.
Qed.

(** The conversion of [c * 10 ^ e], for [-2 <= e <= 0] and a value below
    10^13: a normal double, near the number. *)
Lemma float_of_dec_near c e M P :
  -2 <= e <= 0 -> 0 < c -> c * 10 ^ (e + 2) < 10 ^ 15 ->
  float_of_dec (mkdec c e) = mkfloat M P ->
  2 ^ 52 <= M /\ P < 0
  /\ Z.abs (2 * (M * 10 ^ (- e) - c * 2 ^ (- P))) <= 10 ^ (- e)
  /\ 0 < 10 ^ (- e) <= 100 /\ c < 10 ^ 13 * 10 ^ (- e).
Proof.
  intros He Hc Hb H.
  assert (Hd : 10 ^ (- e) * 10 ^ (e + 2) = 100).
  { rewrite <- Z.pow_add_r by lia. replace (- e + (e + 2)) with 2 by lia. reflexivity. }
  pose proof (Z.pow_pos_nonneg 10 (- e) ltac:(lia) ltac:(lia)) as Hd0.
  pose proof (Z.pow_pos_nonneg 10 (e + 2) ltac:(lia) ltac:(lia)) as Hd1.
  set (d := 10 ^ (- e)) in *. set (t := 10 ^ (e + 2)) in *.
  assert (Hd100 : d <= 100).
  { rewrite <- Hd. rewrite <- (Z.mul_1_r d) at 1.
    apply Z.mul_le_mono_nonneg_l; lia. }
  assert (Hcd : c < 10 ^ 13 * d).
  { apply (Z.mul_lt_mono_pos_r t); [exact Hd1|].
    replace (10 ^ 13 * d * t) with (10 ^ 13 * (d * t)) by ring.
    rewrite Hd. exact Hb. }
  assert (Hc50 : c < 2 ^ 50).
  { apply Z.le_lt_trans with (c * t).
    - rewrite <- (Z.mul_1_r c) at 1. apply Z.mul_le_mono_nonneg_l; lia.
    - apply Z.lt_trans with (10 ^ 15); [exact Hb|reflexivity]. }
  unfold float_of_dec in H. cbn [dcoeff dexp] in H.
  destruct (Z.eqb_spec c 0) as [?|_]; [lia|].
  rewrite (Z.abs_eq c), (Z.sgn_pos c) in H by lia.
  destruct (Z.leb_spec 0 e) as [He0|He0].
  - assert (e = 0) by lia. subst e.
    change (10 ^ 0) with 1 in H. rewrite Z.mul_1_r in H.
    change (- 0) with 0 in d. change (10 ^ 0) with 1 in d. subst d.
    destruct (nearest_double_normal c 1 M P ltac:(lia) ltac:(lia) H) as [HM HP].
    pose proof (nearest_double_near c 1 M P Hc ltac:(lia) H HP) as Hn.
    repeat split; try lia.
  - fold d in H.
    destruct (nearest_double_normal c d M P ltac:(lia) ltac:(lia) H) as [HM HP].
    pose proof (nearest_double_near c d M P Hc Hd0 H HP) as Hn.
    repeat split; try lia.
Qed.

Lemma roundtrip_digits sg c e :
  sg = 1 \/ sg = -1 -> -2 <= e <= 0 -> 2 <= c -> c * 10 ^ (e + 2) < 10 ^ 15 ->
  -2 <= dexp (float_roundtrip (mkdec (sg * c) e)) <= -1
  /\ units (-2) (float_roundtrip (mkdec (sg * c) e)) = sg * (c * 10 ^ (e + 2)).
Proof.
  intros Hsg He Hc Hb. unfold float_roundtrip.
  rewrite (float_of_dec_sign sg c e Hsg ltac:(lia)).
  destruct (float_of_dec (mkdec c e)) as [M P] eqn:Hf. cbn [fmant fexp].
  destruct (float_of_dec_near c e M P He ltac:(lia) Hb Hf)
    as (HM & HP & Hnear & Hd & Hcd).
  assert (HM0 : 0 < M).
  { apply Z.lt_le_trans with (2 ^ 52); [reflexivity|exact HM]. }
  pose proof (Z.pow_pos_nonneg 2 (- P) ltac:(lia) ltac:(lia)) as HY.
  pose proof (ulp_below_grid M (2 ^ (- P)) c (10 ^ (- e)) HM HY Hd ltac:(lia) Hnear)
    as Hulp.
  set (f := mkfloat (sg * M) P).
  assert (Hfm : Z.abs (fmant f) = M) by (unfold f; cbn [fmant]; destruct Hsg as [->| ->]; lia).
  assert (Hfe : fexp f = P) by reflexivity.
  pose proof (fnum_normal f ltac:(rewrite Hfe; exact HP)) as Hfn.
  pose proof (fden_normal f ltac:(rewrite Hfe; exact HP)) as Hfd.
  rewrite Hfm in Hfn. rewrite Hfe in Hfd.
  pose proof (decimal_exponent_range M (2 ^ (- P)) c (10 ^ (- e)) e HM0 HY He eq_refl
                ltac:(lia) Hnear Hulp) as He10.
  unfold dec_of_float.
  destruct (Z.eqb_spec (fmant f) 0) as [Hz|_]; [rewrite Hz in Hfm; simpl in Hfm; lia|].
  rewrite Hfn, Hfd.
  set (e10 := decimal_exponent M (2 ^ (- P))) in *.
  pose proof (shortest_digits_value M P c e HM0 HP ltac:(lia) ltac:(lia) Hnear Hulp Hf
                f Hfm Hfe 16 1 e10 ltac:(lia) ltac:(lia)) as [Hs1 Hc1].
  destruct (shortest_digits 16 1 f e10) as [c1 s1]. cbn [fst snd] in Hs1, Hc1.
  pose proof (drop_zeros_value 17 c1 s1) as [Hs2 Hc2].
  destruct (drop_zeros 17 c1 s1) as [c2 s2]. cbn [fst snd] in Hs2, Hc2.
  assert (Hsgn : Z.sgn (fmant f) = sg).
  { unfold f; cbn [fmant]. destruct Hsg as [->| ->]; lia. }
  rewrite Hsgn.
  assert (Hval : c2 * 10 ^ (s2 - e) = c).
  { rewrite <- Hc1, <- Hc2, <- Z.mul_assoc, <- Z.pow_add_r by lia.
    f_equal. f_equal. lia. }
  pose proof (Z.pow_pos_nonneg 10 (s2 - e) ltac:(lia) ltac:(lia)) as Hp2.
  assert (Hc2pos : 0 < c2).
  { destruct (Z_lt_le_dec 0 c2) as [?|Hle]; [assumption|exfalso].
    assert (c2 * 10 ^ (s2 - e) <= 0) by (apply Z.mul_nonpos_nonneg; lia). lia. }
  assert (Hunits : c2 * 10 ^ (s2 + 2) = c * 10 ^ (e + 2)).
  { rewrite <- Hval, <- Z.mul_assoc, <- Z.pow_add_r by lia.
    f_equal. f_equal. lia. }
  pose proof (ndigits_bounds c2 ltac:(lia)) as [Hnd _].
  pose proof (ndigits_pos c2) as Hnd1.
  rewrite Z.abs_eq in Hnd by lia.
  assert (Hlead : s2 + ndigits c2 - 1 < 13).
  { assert (Hpw : 10 ^ (ndigits c2 - 1 + (s2 + 2)) < 10 ^ 15).
    { rewrite Z.pow_add_r by lia.
      apply Z.le_lt_trans with (c2 * 10 ^ (s2 + 2)).
      - apply Z.mul_le_mono_nonneg_r; [apply Z.pow_nonneg; lia|exact Hnd].
      - rewrite Hunits. exact Hb. }
    apply Z.pow_lt_mono_r_iff in Hpw; lia. }
  destruct (Z.leb_spec (-4) (s2 + ndigits c2 - 1)) as [_|?]; [|lia].
  destruct (Z.ltb_spec (s2 + ndigits c2 - 1) 16) as [_|?]; [|lia].
  cbn [andb].
  destruct (Z.leb_spec 0 s2) as [Hs0|Hs0]; cbn [dexp dcoeff]; unfold units;
    cbn [dexp dcoeff].
  - split; [lia|]. change (-1 - -2) with 1.
    rewrite <- Hunits.
    replace (s2 + 2) with (s2 + 1 + 1) by lia.
    rewrite (Z.pow_add_r 10 (s2 + 1) 1) by lia. ring.
  - split; [lia|]. rewrite <- Hunits.
    replace (s2 - -2) with (s2 + 2) by lia. ring.
Qed.

(** The round trip on the hundredths: the number read back has one or
    two decimals and as many hundredths as the number stored. *)
Lemma roundtrip_units (a : dec) :
  -2 <= dexp a <= 0 -> Z.abs (units (-2) a) < 10 ^ 15 ->
  -2 <= dexp (float_roundtrip a) <= -1
  /\ units (-2) (float_roundtrip a) = units (-2) a.
Proof.
  intros He Hb.
  destruct a as [c0 e]. cbn [dexp] in He.
  assert (Hu : forall x, units (-2) (mkdec x e) = x * 10 ^ (e + 2)).
  { intros x. unfold units. cbn [dcoeff dexp].
    replace (e - -2) with (e + 2) by lia. reflexivity. }
  rewrite Hu in Hb |- *.
  destruct (Z.eq_dec c0 0) as [->|Hnz].
  { change (float_roundtrip (mkdec 0 e)) with (mkdec 0 (-1)).
    unfold units. cbn [dcoeff dexp]. lia. }
  assert (Hdec : exists sg c, c0 = sg * c /\ (sg = 1 \/ sg = -1) /\ 1 <= c).
  { exists (Z.sgn c0), (Z.abs c0). lia. }
  destruct Hdec as (sg & c & -> & Hsg & Hc).
  pose proof (Z.pow_pos_nonneg 10 (e + 2) ltac:(lia) ltac:(lia)) as Hp.
  assert (Hb' : c * 10 ^ (e + 2) < 10 ^ 15).
  { rewrite Z.abs_mul, Z.abs_mul in Hb.
    rewrite (Z.abs_eq (10 ^ (e + 2))), (Z.abs_eq c) in Hb by lia.
    destruct Hsg as [-> | ->]; simpl in Hb; lia. }
  destruct (Z.eq_dec c 1) as [->|H1].
  - assert (Hes : e = 0 \/ e = -1 \/ e = -2) by lia.
    clear Hu Hb Hb' Hp He Hnz Hc.
    destruct Hsg as [-> | ->]; destruct Hes as [-> | [-> | ->]];
      vm_compute; repeat split; intros; discriminate.
  - destruct (roundtrip_digits sg c e Hsg He ltac:(lia) Hb') as [H2 H3].
    split; [exact H2|]. rewrite H3. ring.
Qed.

Lemma units_stable (a : dec) :
  -2 <= dexp a -> -2 <= dexp (float_roundtrip a) ->
  units (-2) (float_roundtrip a) = units (-2) a -> float_stable a.
Proof.
  intros H1 H2 H3. unfold float_stable.
  rewrite (dval_units (-2) (float_roundtrip a)), (dval_units (-2) a), H3 by lia.
  reflexivity.
Qed.



End FloatCells.

(** ** Ledgers of amounts below 10^13 *)

Module ExactLedger.

Import PyStr PyDecimal PyFloat Ledger Spec DecimalFacts DivisionFacts
       Amounts LedgerFacts Queries FloatCells.

(** *** What [parse_amount] returns *)

Lemma cents_bound r :
  dexp r = -2 -> (dval r < inject_Z (10 ^ 13))%Q -> dcoeff r < 10 ^ 15.
Proof.
  intros He Hv. rewrite (dval_units (-2) r) in Hv by lia.
  unfold units in Hv. rewrite He, Z.sub_diag in Hv.
  change (10 ^ 0) with 1 in Hv. rewrite Z.mul_1_r, pow10_neg2 in Hv.
  rewrite Zlt_Qlt. change (inject_Z (10 ^ 15)) with (inject_Z (10 ^ 13) * 100)%Q.
  lra.
Qed.

(** An amount that [parse_amount] returns, below 10^13, reaches the
    log unchanged in value: [add_transaction] stores it in a float
    cell, and the newest history entry of the user shows a number of the
    same value. *)
Theorem parsed_amount_is_logged_exactly
    (raw ts now : string) (u : Z) (k : tx_type) (a : dec) (wb wb' : workbook) :
  parse_amount raw = Ok a -> (dval a < inject_Z (10 ^ 13))%Q ->
  add_transaction ts now u k a wb = Ok wb' -> u <> 0 ->
  two_decimals a
  /\ exists r, get_user_history u 1 wb' = [(k, r, ts)]
               /\ (dval r == dval a)%Q.
Proof.
  intros Hp Hv Hadd Hu.
  destruct (parse_amount_ok_inv raw a Hp) as (v & _ & Hc & Hq).
  destruct (quantize_ok v (-2) a Hq) as (Hr & He & _).
  destruct (rescale_cents_near v Hc) as (_ & Hnn & _). rewrite <- Hr in Hnn.
  pose proof (cents_bound a He Hv) as Hlt.
  split; [split; [exact He|lia]|].
  exists (float_roundtrip a). split.
  - unfold add_transaction in Hadd. apply rebuild_inv in Hadd as [Ht _].
    cbn [Transactions] in Ht.
    rewrite get_user_history_rows. destruct (decide (u = 0)); [contradiction|].
    rewrite Ht, Totals.history_rows_snoc. cbn [tx_user tx_kind tx_timestamp].
    destruct (decide (u = u)); [|contradiction].
    rewrite Totals.slice_last. reflexivity.
  - assert (Hua : Z.abs (units (-2) a) < 10 ^ 15).
    { unfold units. rewrite He, Z.sub_diag. change (10 ^ 0) with 1. lia. }
    destruct (roundtrip_units a ltac:(lia) Hua) as [H1 H2].
    apply (units_stable a); [lia|lia|exact H2].
Qed.

Lemma parsed_amount_is_logged_exactly_witness :
  exists r,
    get_user_history 42 1
      (step init_workbook
            (AddTransaction "2024-01-01 10:00:00"%string
                            "2024-01-01 10:00:00"%string
                            42 deposit (mkdec 1050 (-2))))
    = [(deposit, r, "2024-01-01 10:00:00"%string)]
    /\ (dval r == dval (mkdec 1050 (-2)))%Q.
Proof.
  refine (proj2 (parsed_amount_is_logged_exactly
                   "10,5"%string "2024-01-01 10:00:00"%string
                   "2024-01-01 10:00:00"%string 42 deposit (mkdec 1050 (-2))
                   init_workbook _ _ _ _ _)).
  - reflexivity.
  - vm_compute. reflexivity.
  - vm_compute. reflexivity.
  - discriminate.
Defined.

(** *** The rows of the log *)

Lemma two_decimals_cell a :
  two_decimals a ->
  0 <= dcoeff (float_roundtrip a)
  /\ -2 <= dexp (float_roundtrip a) <= -1
  /\ units (-2) (float_roundtrip a) = dcoeff a.
Proof.
  intros [He Hc].
  assert (Hu : units (-2) a = dcoeff a).
  { unfold units. rewrite He, Z.sub_diag. change (10 ^ 0) with 1. lia. }
  destruct (roundtrip_units a) as (H2 & H3); [lia|lia|].
  split; [|split; [exact H2|lia]].
  apply (units_nonneg_inv (-2)); lia.
Qed.

Lemma run_snoc ms m wb : run (ms ++ [m]) wb = step (run ms wb) m.
Proof. unfold run. rewrite fold_left_app. reflexivity. Qed.

Lemma fed_rows (Q : tx_row -> Prop) (P : dec -> Prop) :
  (forall ts u k a, P a -> Q (mk_tx u k (float_of_dec a) ts)) ->
  forall ms, fed_with P ms -> Forall Q (Transactions (run ms init_workbook)).
Proof.
  intros HQ ms. induction ms as [|m ms IH] using rev_ind; intros Hfed.
  - constructor.
  - unfold fed_with in Hfed. apply Forall_app in Hfed as [Hms Hm].
    apply Forall_inv in Hm. specialize (IH Hms). rewrite run_snoc.
    set (wb := run ms init_workbook) in *.
    unfold step. destruct (apply_mutation m wb) as [wb'|e] eqn:H; [|exact IH].
    destruct m as [ts now u k a|now u]; simpl in H.
    + unfold add_transaction in H. apply rebuild_inv in H as [Ht _].
      rewrite Ht. cbn [Transactions]. apply Forall_app. split; [exact IH|].
      constructor; [|constructor]. apply HQ. exact Hm.
    + unfold reset_user in H. apply rebuild_inv in H as [Ht _].
      rewrite Ht. cbn [Transactions]. apply Forall_forall. intros r Hr.
      apply list_elem_of_filter in Hr as [_ Hr].
      rewrite Forall_forall in IH. apply IH. exact Hr.
Qed.


(** The same rows, as the sums need them. *)
Lemma log_cells (ms : list mutation) :
  fed_with two_decimals ms ->
  Forall (fun row => 0 <= dcoeff (row_amount row)
                     /\ -2 <= dexp (row_amount row) <= 0)
         (Transactions (run ms init_workbook)).
Proof.
  apply fed_rows. intros ts u k a Ha.
  unfold row_amount. cbn [tx_amount]. fold (float_roundtrip a).
  destruct (two_decimals_cell a Ha) as (H1 & H2 & _). split; lia.
Qed.

Lemma sample_amounts_fed : fed_with two_decimals sample_amounts.
Proof.
  unfold fed_with, sample_amounts, two_decimals.
  repeat constructor; cbn [dcoeff]; lia.
Qed.


(** *** The totals *)

Lemma dadd_exp_le m a b :
  m <= dexp a -> m <= dexp b ->
  Z.abs (units m a + units m b) < 10 ^ prec ->
  dexp (dadd a b) <= Z.max (dexp a) (dexp b).
Proof.
  intros Ha Hb Hsum. unfold dadd.
  destruct (Z.eqb_spec (dcoeff a) 0) as [Ea|Ea];
    destruct (Z.eqb_spec (dcoeff b) 0) as [Eb|Eb]; cbn [andb].
  - rewrite fix_small by (simpl; change (ndigits 0) with 1; unfold prec; lia).
    simpl. lia.
  - set (e := Z.max (Z.min (dexp a) (dexp b)) (dexp b - prec - 1)).
    assert (He1 : m <= e) by (unfold e; lia).
    assert (He2 : e <= dexp b) by (unfold e, prec; lia).
    assert (Hu : units m (rescale b e) = units m a + units m b).
    { rewrite units_rescale by lia. unfold units at 2. rewrite Ea. lia. }
    assert (He3 : dexp (rescale b e) = e) by (rewrite rescale_down by lia; reflexivity).
    rewrite (fix_units m) by (rewrite ?He3, ?Hu; lia).
    rewrite He3. lia.
  - set (e := Z.max (Z.min (dexp a) (dexp b)) (dexp a - prec - 1)).
    assert (He1 : m <= e) by (unfold e; lia).
    assert (He2 : e <= dexp a) by (unfold e, prec; lia).
    assert (Hu : units m (rescale a e) = units m a + units m b).
    { rewrite units_rescale by lia. unfold units at 3. rewrite Eb. lia. }
    assert (He3 : dexp (rescale a e) = e) by (rewrite rescale_down by lia; reflexivity).
    rewrite (fix_units m) by (rewrite ?He3, ?Hu; lia).
    rewrite He3. lia.
  - set (e := Z.min (dexp a) (dexp b)).
    set (s := mkdec (dcoeff a * 10 ^ (dexp a - e) + dcoeff b * 10 ^ (dexp b - e)) e).
    assert (He1 : m <= e) by (unfold e; lia).
    assert (Hu : units m s = units m a + units m b).
    { unfold units, s; simpl. rewrite Z.mul_add_distr_r.
      rewrite <- !Z.mul_assoc, <- !Z.pow_add_r by (unfold e; lia).
      f_equal; f_equal; f_equal; lia. }
    rewrite (fix_units m) by (rewrite ?Hu; simpl; lia).
    simpl. lia.
Qed.

Lemma fold_dadd_exp m l acc :
  Forall (fun a => 0 <= dcoeff a /\ m <= dexp a <= 0) l ->
  0 <= dcoeff acc -> m <= dexp acc <= 0 ->
  units m acc + sum_units m l < 10 ^ prec ->
  dexp (fold_left dadd l acc) <= 0.
Proof.
  intros Hl. revert acc.
  induction Hl as [|a l [Hc He] Hl IH]; intros acc Hacc Hea Hb.
  - simpl. lia.
  - simpl in Hb |- *.
    assert (Hl' : Forall (fun a => 0 <= dcoeff a /\ m <= dexp a) l).
    { eapply Forall_impl; [exact Hl|]. intros x [H1 H2]. split; lia. }
    pose proof (units_nonneg m a Hc ltac:(lia)) as Ha.
    pose proof (units_nonneg m acc Hacc ltac:(lia)) as Hu.
    pose proof (sum_units_nonneg m l Hl') as Hs.
    destruct (dadd_units m acc a ltac:(lia) ltac:(lia)) as [He' Hu']; [lia|].
    pose proof (dadd_exp_le m acc a ltac:(lia) ltac:(lia) ltac:(lia)) as Hle.
    apply IH.
    + apply (units_nonneg_inv m); [lia|exact He'].
    + lia.
    + lia.
Qed.

(** Rows read back with at most two decimals that add up to less than
    10^13: the Decimal total is the exact sum, and a number the float
    cell keeps. *)
Lemma small_total l :
  Forall (fun a => 0 <= dcoeff a /\ -2 <= dexp a <= 0) l ->
  (exact_sum l < inject_Z (10 ^ 13))%Q ->
  hundredths l
  /\ -2 <= dexp (total l) <= 0
  /\ units (-2) (total l) = sum_units (-2) l
  /\ 0 <= sum_units (-2) l < 10 ^ 15
  /\ (dval (total l) == exact_sum l)%Q.
Proof.
  intros Hl Hb.
  assert (Hl' : Forall (fun a => 0 <= dcoeff a /\ -2 <= dexp a) l).
  { eapply Forall_impl; [exact Hl|]. intros x [H1 H2]. split; lia. }
  assert (Hh : hundredths l).
  { split; [exact Hl'|].
    apply Qlt_trans with (inject_Z (10 ^ 13)); [exact Hb|reflexivity]. }
  destruct (Totals.hundredths_total l Hh) as (He & Hu & Hs & Hv).
  assert (Hs15 : sum_units (-2) l < 10 ^ 15).
  { rewrite (exact_sum_units (-2) l Hl'), pow10_neg2 in Hb.
    rewrite Zlt_Qlt.
    change (inject_Z (10 ^ 15)) with (inject_Z (10 ^ 13) * 100)%Q. lra. }
  split; [exact Hh|]. split; [|split; [exact Hu|split; [lia|exact Hv]]].
  split; [exact He|].
  unfold total. apply (fold_dadd_exp (-2)); [exact Hl| | |].
  - simpl. lia.
  - simpl. lia.
  - unfold units; simpl. unfold prec. lia.
Qed.

Lemma amounts_of_Forall (Q : dec -> Prop) k u (rows : list tx_row) :
  Forall (fun row => Q (row_amount row)) rows ->
  Forall Q (amounts_of k u rows).
Proof.
  intros H. unfold amounts_of. apply Forall_forall. intros a Ha.
  apply list_elem_of_fmap in Ha as (row & -> & Hr).
  apply list_elem_of_filter in Hr as [_ Hr].
  rewrite Forall_forall in H. apply H. exact Hr.
Qed.

(** The stats of a stored workbook whose rows read back with at most two
    decimals, for a user whose deposits and withdrawals each add up to
    less than 10^13. *)
Lemma exact_stats wb u :
  let deposits := amounts_of deposit u (Transactions wb) in
  let withdrawals := amounts_of withdraw u (Transactions wb) in
  let stats := get_user_stats u wb in
  consistent wb ->
  Forall (fun row => 0 <= dcoeff (row_amount row)
                     /\ -2 <= dexp (row_amount row) <= 0) (Transactions wb) ->
  u <> 0 ->
  (exact_sum deposits < inject_Z (10 ^ 13))%Q ->
  (exact_sum withdrawals < inject_Z (10 ^ 13))%Q ->
  (dval (stats_deposits stats) == exact_sum deposits)%Q
  /\ (dval (stats_withdrawals stats) == exact_sum withdrawals)%Q
  /\ (dval (stats_balance stats)
      == exact_sum deposits - exact_sum withdrawals)%Q.
Proof.
  intros deposits withdrawals stats Hc Hrows Hu Hbd Hbw.
  pose proof (amounts_of_Forall
                (fun a => 0 <= dcoeff a /\ -2 <= dexp a <= 0)
                deposit u _ Hrows) as Hfd.
  pose proof (amounts_of_Forall
                (fun a => 0 <= dcoeff a /\ -2 <= dexp a <= 0)
                withdraw u _ Hrows) as Hfw.
  destruct (small_total _ Hfd Hbd) as (Hhd & Hed & Hud & Hsd & Hvd).
  destruct (small_total _ Hfw Hbw) as (Hhw & Hew & Huw & Hsw & Hvw).
  fold deposits in Hhd, Hed, Hud, Hsd, Hvd.
  fold withdrawals in Hhw, Hew, Huw, Hsw, Hvw.
  set (D := total deposits) in *. set (W := total withdrawals) in *.
  assert (Hcell : forall x, -2 <= dexp x <= 0 -> Z.abs (units (-2) x) < 10 ^ 15 ->
                            float_stable x).
  { intros x Hx Hux. destruct (roundtrip_units x Hx Hux) as [H1 H2].
    apply units_stable; [lia|lia|exact H2]. }
  pose proof (Hcell D Hed ltac:(lia)) as HsD.
  pose proof (Hcell W Hew ltac:(lia)) as HsW.
  destruct (dsub_units (-2) D W ltac:(lia) ltac:(lia)) as [Heb Hub];
    [unfold prec; lia|].
  assert (Heb0 : dexp (dsub D W) <= 0).
  { unfold dsub.
    pose proof (dadd_exp_le (-2) D (dneg W) ltac:(lia) ltac:(simpl; lia)) as H.
    rewrite units_dneg in H. simpl in H. unfold prec in H. lia. }
  pose proof (Hcell (dsub D W) ltac:(lia) ltac:(lia)) as HsB.
  assert (Hvb : (dval (dsub D W) == dval D - dval W)%Q).
  { apply Totals.dsub_hundredths; lia. }
  pose proof (get_user_stats_spec wb u Hc Hu) as Hspec.
  unfold stats_of in Hspec.
  destruct (decide (u <> 0 /\ u ∈ users (Transactions wb))) as [_|Hn].
  - fold deposits in Hspec. fold withdrawals in Hspec.
    fold D in Hspec. fold W in Hspec.
    destruct Hspec as (R & _ & Hst). unfold stats. rewrite Hst.
    unfold stats_deposits, stats_withdrawals, stats_balance; cbn [fst snd].
    unfold float_stable in HsD, HsW, HsB.
    rewrite HsD, HsW, HsB, Hvb, Hvd, Hvw.
    repeat split; reflexivity.
  - assert (Hno : u ∉ users (Transactions wb)) by tauto.
    unfold stats. rewrite Hspec.
    unfold stats_deposits, stats_withdrawals, stats_balance; cbn [fst snd].
    unfold deposits, withdrawals. rewrite !(amounts_of_absent _ u _ Hno).
    repeat split; reflexivity.
Qed.

(** The same stats in hundredths: what [get_user_stats] returns for the
    deposits and for the withdrawals has the hundredths of the log. *)
Lemma read_back_units wb u :
  let deposits := amounts_of deposit u (Transactions wb) in
  let withdrawals := amounts_of withdraw u (Transactions wb) in
  let stats := get_user_stats u wb in
  consistent wb ->
  Forall (fun row => 0 <= dcoeff (row_amount row)
                     /\ -2 <= dexp (row_amount row) <= 0) (Transactions wb) ->
  u <> 0 ->
  (exact_sum deposits < inject_Z (10 ^ 13))%Q ->
  (exact_sum withdrawals < inject_Z (10 ^ 13))%Q ->
  (-2 <= dexp (stats_deposits stats)
   /\ units (-2) (stats_deposits stats) = sum_units (-2) deposits
   /\ 0 <= sum_units (-2) deposits < 10 ^ 15
   /\ (exact_sum deposits == inject_Z (sum_units (-2) deposits) * (1 # 100))%Q)
  /\ (-2 <= dexp (stats_withdrawals stats)
      /\ units (-2) (stats_withdrawals stats) = sum_units (-2) withdrawals
      /\ 0 <= sum_units (-2) withdrawals < 10 ^ 15
      /\ (exact_sum withdrawals
          == inject_Z (sum_units (-2) withdrawals) * (1 # 100))%Q).
Proof.
  intros deposits withdrawals stats Hc Hrows Hu Hbd Hbw.
  pose proof (amounts_of_Forall
                (fun a => 0 <= dcoeff a /\ -2 <= dexp a <= 0)
                deposit u _ Hrows) as Hfd.
  pose proof (amounts_of_Forall
                (fun a => 0 <= dcoeff a /\ -2 <= dexp a <= 0)
                withdraw u _ Hrows) as Hfw.
  destruct (small_total _ Hfd Hbd) as ([Hhd _] & Hed & Hud & Hsd & _).
  destruct (small_total _ Hfw Hbw) as ([Hhw _] & Hew & Huw & Hsw & _).
  pose proof (exact_sum_units (-2) _ Hhd) as Hxd.
  pose proof (exact_sum_units (-2) _ Hhw) as Hxw.
  rewrite pow10_neg2 in Hxd, Hxw.
  fold deposits in Hed, Hud, Hsd, Hxd. fold withdrawals in Hew, Huw, Hsw, Hxw.
  set (D := total deposits) in *. set (W := total withdrawals) in *.
  destruct (roundtrip_units D Hed ltac:(lia)) as [HeD HuD].
  destruct (roundtrip_units W Hew ltac:(lia)) as [HeW HuW].
  pose proof (get_user_stats_spec wb u Hc Hu) as Hspec.
  unfold stats_of in Hspec.
  destruct (decide (u <> 0 /\ u ∈ users (Transactions wb))) as [_|Hn].
  - fold deposits in Hspec. fold withdrawals in Hspec.
    fold D in Hspec. fold W in Hspec.
    destruct Hspec as (R & _ & Hst). unfold stats. rewrite Hst.
    unfold stats_deposits, stats_withdrawals; cbn [fst snd].
    fold (float_roundtrip D). fold (float_roundtrip W).
    split; (split; [lia|split; [lia|split; [lia|assumption]]]).
  - assert (Hno : u ∉ users (Transactions wb)) by tauto.
    unfold stats. rewrite Hspec.
    unfold stats_deposits, stats_withdrawals; cbn [fst snd].
    unfold deposits, withdrawals in *. rewrite !(amounts_of_absent _ u _ Hno) in *.
    split; (split; [simpl; lia|split; [reflexivity|split; [simpl; lia|reflexivity]]]).
Qed.

(** When every amount added is a two-decimal amount below 10^13 and the
    deposits and the withdrawals of a user each add up to less than
    10^13, [get_user_stats] returns the exact sums of the log and their
    exact difference: nothing is lost in the float cells or in the
    28-digit sums. *)
Theorem small_ledger_is_exact (ms : list mutation) (u : Z) :
  let wb := run ms init_workbook in
  let deposits := amounts_of deposit u (Transactions wb) in
  let withdrawals := amounts_of withdraw u (Transactions wb) in
  let stats := get_user_stats u wb in
  fed_with two_decimals ms -> u <> 0 ->
  (exact_sum deposits < inject_Z (10 ^ 13))%Q ->
  (exact_sum withdrawals < inject_Z (10 ^ 13))%Q ->
  (dval (stats_deposits stats) == exact_sum deposits)%Q
  /\ (dval (stats_withdrawals stats) == exact_sum withdrawals)%Q
  /\ (dval (stats_balance stats)
      == exact_sum deposits - exact_sum withdrawals)%Q.
Proof.
  intros wb deposits withdrawals stats Hfed Hu Hbd Hbw.
  pose proof (log_cells ms Hfed) as Hrows. fold wb in Hrows.
  pose proof (run_consistent ms _ consistent_init) as Hc. fold wb in Hc.
  destruct (exact_stats wb u Hc Hrows Hu Hbd Hbw) as (H1 & H2 & H3).
  split; [exact H1|]. split; [exact H2|exact H3].
Qed.

Lemma small_ledger_is_exact_witness :
  (dval (stats_deposits (get_user_stats 42 (run sample_amounts init_workbook)))
   == 101999 # 100)%Q
  /\ (dval (stats_balance (get_user_stats 42 (run sample_amounts init_workbook)))
      == 71999 # 100)%Q.
Proof.
  destruct (small_ledger_is_exact sample_amounts 42 sample_amounts_fed
              ltac:(discriminate) ltac:(vm_compute; reflexivity)
              ltac:(vm_compute; reflexivity)) as (H1 & _ & H3).
  split; [rewrite H1; vm_compute; reflexivity|].
  rewrite H3. vm_compute. reflexivity.
Defined.

(** Under the same conditions, with positive deposits and an exact ROI
    below 10^13 - 1 in absolute value, the ROI that [get_user_stats]
    returns is the exact ROI rounded to the nearest hundredth. *)
Theorem small_ledger_roi_is_exact (ms : list mutation) (u : Z) :
  let wb := run ms init_workbook in
  let deposits := amounts_of deposit u (Transactions wb) in
  let withdrawals := amounts_of withdraw u (Transactions wb) in
  fed_with two_decimals ms -> u <> 0 ->
  (exact_sum deposits < inject_Z (10 ^ 13))%Q ->
  (exact_sum withdrawals < inject_Z (10 ^ 13))%Q ->
  (0 < exact_sum deposits)%Q ->
  (Qabs (roi_exact deposits withdrawals) < inject_Z (10 ^ 13 - 1))%Q ->
  exists R,
    nearest_hundredth (roi_exact deposits withdrawals) R
    /\ (dval (stats_roi (get_user_stats u wb)) == dval R)%Q.
Proof.
  intros wb deposits withdrawals Hfed Hu Hbd Hbw Hpos Hroi.
  pose proof (log_cells ms Hfed) as Hrows. fold wb in Hrows.
  pose proof (amounts_of_Forall
                (fun a => 0 <= dcoeff a /\ -2 <= dexp a <= 0)
                deposit u _ Hrows) as Hfd.
  pose proof (amounts_of_Forall
                (fun a => 0 <= dcoeff a /\ -2 <= dexp a <= 0)
                withdraw u _ Hrows) as Hfw.
  destruct (small_total _ Hfd Hbd) as (Hhd & _ & _ & Hsd & Hvd).
  destruct (small_total _ Hfw Hbw) as (Hhw & _ & _ & Hsw & Hvw).
  fold deposits in Hhd, Hsd, Hvd. fold withdrawals in Hhw, Hsw, Hvw.
  assert (Hd0 : (0 <= exact_sum deposits)%Q) by lra.
  assert (Hw0 : (0 <= exact_sum withdrawals)%Q).
  { destruct Hhw as [Hf _]. rewrite (exact_sum_units (-2) _ Hf), pow10_neg2.
    destruct Hsw as [Hsw0 _]. rewrite Zle_Qle in Hsw0.
    change (inject_Z 0) with 0%Q in Hsw0. lra. }
  assert (Hnet : (Qabs (exact_sum withdrawals - exact_sum deposits)
                  < inject_Z (10 ^ 20))%Q).
  { apply Qabs_Qlt_condition.
    assert (H13 : (inject_Z (10 ^ 13) < inject_Z (10 ^ 20))%Q) by reflexivity.
    split; lra. }
  destruct (RoiExact.roi_round deposits withdrawals Hhd Hhw Hnet)
    as (R & HR & HeR & HcR).
  pose proof (proj1 (RoiExact.exact_sum_pos_units _ Hhd) Hpos) as Hpu.
  specialize (HcR Hpu).
  pose proof (RoiExact.roi_round_nearest deposits withdrawals R Hhd Hhw Hpu HeR HcR)
    as Hnear.
  assert (Hin : u ∈ users (Transactions wb)).
  { destruct (decide (u ∈ users (Transactions wb))) as [?|Hno]; [assumption|exfalso].
    unfold deposits in Hpos. rewrite (amounts_of_absent _ u _ Hno) in Hpos.
    simpl in Hpos. lra. }
  pose proof (run_consistent ms _ consistent_init) as Hc. fold wb in Hc.
  pose proof (get_user_stats_spec wb u Hc Hu) as Hspec.
  unfold stats_of in Hspec.
  destruct (decide (u <> 0 /\ u ∈ users (Transactions wb))) as [_|Hn]; [|tauto].
  fold deposits in Hspec. fold withdrawals in Hspec.
  destruct Hspec as (R' & HR' & Hst). rewrite HR in HR'. injection HR' as <-.
  exists R. split; [exact Hnear|].
  rewrite Hst. unfold stats_roi; cbn [snd].
  destruct Hnear as [He [Hlo Hhi]].
  assert (Hstable : float_stable R); [|exact Hstable].
  assert (Hub : Z.abs (units (-2) R) < 10 ^ 15);
    [|destruct (roundtrip_units R ltac:(lia) Hub) as [H1 H2];
      apply units_stable; [lia|lia|exact H2]].
  unfold units. rewrite He, Z.sub_diag. change (10 ^ 0) with 1. rewrite Z.mul_1_r.
  assert (Hv : (dval R == inject_Z (dcoeff R) * (1 # 100))%Q).
  { rewrite (dval_units (-2) R) by lia. unfold units.
    rewrite He, Z.sub_diag. change (10 ^ 0) with 1.
    rewrite Z.mul_1_r, pow10_neg2. reflexivity. }
  apply Qabs_Qlt_condition in Hroi as [Hr1 Hr2].
  unfold half_cent in Hlo, Hhi. rewrite Hv in Hlo, Hhi.
  rewrite inject_Z_minus in Hr1, Hr2. change (inject_Z 1) with 1%Q in Hr1, Hr2.
  assert (H1 : - 10 ^ 15 < dcoeff R).
  { rewrite Zlt_Qlt.
    change (inject_Z (- 10 ^ 15)) with (- (inject_Z (10 ^ 13) * 100))%Q. lra. }
  assert (H2 : dcoeff R < 10 ^ 15).
  { rewrite Zlt_Qlt.
    change (inject_Z (10 ^ 15)) with (inject_Z (10 ^ 13) * 100)%Q. lra. }
  lia.
Qed.

Lemma small_ledger_roi_is_exact_witness :
  exists R,
    nearest_hundredth
      (roi_exact (amounts_of deposit 42
                    (Transactions (run sample_amounts init_workbook)))
                 (amounts_of withdraw 42
                    (Transactions (run sample_amounts init_workbook)))) R
    /\ (dval (stats_roi (get_user_stats 42 (run sample_amounts init_workbook)))
        == dval R)%Q.
Proof.
  apply (small_ledger_roi_is_exact sample_amounts 42 sample_amounts_fed).
  - discriminate.
  - vm_compute. reflexivity.
  - vm_compute. reflexivity.
  - vm_compute. reflexivity.
  - vm_compute. reflexivity.
Defined.

End ExactLedger.

(** ** The chat handlers and the ledger *)

Module ChatFacts.

Import PyStr PyDecimal PyFloat Ledger Spec Bot DecimalFacts
       Amounts LedgerFacts Queries Isolation RoiExact FloatCells ExactLedger.

Lemma play_snoc evs ev st :
  play (evs ++ [ev]) st = fst (handle ev (play evs st)).
Proof. unfold play. rewrite fold_left_app. reflexivity. Qed.

(** What a handler call does to the stored file: nothing, or one
    mutation of the ledger for the sender, saved or not. *)
Lemma handle_file ev st :
  file (fst (handle ev st)) = file st
  \/ (exists ts now k a raw,
        raw ∈ amount_texts ev /\ parse_amount raw = Ok a
        /\ file (fst (handle ev st))
           = step (file st) (AddTransaction ts now (sender ev) k a))
  \/ (exists now,
        file (fst (handle ev st)) = step (file st) (ResetUser now (sender ev))).
Proof.
  destruct ev as [u|ts now u args|ts now u args|u|u|u|u|u|now u data|u label
                 |ts now u text]; cbn [handle sender amount_texts].
  - left. reflexivity.
  - unfold add_deposit. destruct args as [|raw args]; [left; reflexivity|].
    destruct (parse_amount raw) as [a|e] eqn:Hp; [|left; reflexivity].
    right; left. exists ts, now, deposit, a, raw.
    split; [apply list_elem_of_singleton; reflexivity|]. split; [exact Hp|].
    unfold step. cbn [apply_mutation].
    destruct (add_transaction ts now u deposit a (file st)); reflexivity.
  - unfold withdraw_. destruct args as [|raw args]; [left; reflexivity|].
    destruct (parse_amount raw) as [a|e] eqn:Hp; [|left; reflexivity].
    right; left. exists ts, now, withdraw, a, raw.
    split; [apply list_elem_of_singleton; reflexivity|]. split; [exact Hp|].
    unfold step. cbn [apply_mutation].
    destruct (add_transaction ts now u withdraw a (file st)); reflexivity.
  - left. reflexivity.
  - left. reflexivity.
  - left. unfold history.
    destruct (get_user_history u default_limit (file st)); reflexivity.
  - left. reflexivity.
  - left. reflexivity.
  - unfold button_callback.
    destruct (String.eqb data "reset_confirm"); [|left; reflexivity].
    right; right. exists now. unfold step. cbn [apply_mutation].
    destruct (reset_user now u (file st)); reflexivity.
  - left. unfold menu_router. destruct label as [[]|]; try reflexivity.
    unfold history.
    destruct (get_user_history u default_limit (file st)); reflexivity.
  - unfold amount_from_menu.
    destruct (user_data st !! u) as [mode|]; [|left; reflexivity].
    destruct (parse_amount text) as [a|e] eqn:Hp; [|left; reflexivity].
    right; left. exists ts, now, mode, a, text.
    split; [apply list_elem_of_singleton; reflexivity|]. split; [exact Hp|].
    unfold step. cbn [apply_mutation].
    destruct (add_transaction ts now u mode a (file st)); reflexivity.
Qed.

(** The pending choices after a handler call: a choice that is there
    was there before, or the sender has just made it in the menu; a
    choice that is gone was consumed by a text of its user. *)
Lemma handle_user_data ev st v :
  user_data (fst (handle ev st)) !! v = user_data st !! v
  \/ (exists k, ev = MenuRouter v (Some (button_of k))
                /\ user_data (fst (handle ev st)) !! v = Some k)
  \/ (exists ts now text, ev = AmountFromMenu ts now v text
                          /\ user_data (fst (handle ev st)) !! v = None).
Proof.
  destruct ev as [u|ts now u args|ts now u args|u|u|u|u|u|now u data|u label
                 |ts now u text]; cbn [handle].
  - left. reflexivity.
  - left. unfold add_deposit. destruct args as [|raw args]; [reflexivity|].
    destruct (parse_amount raw) as [a|e]; [|reflexivity].
    destruct (add_transaction ts now u deposit a (file st)); reflexivity.
  - left. unfold withdraw_. destruct args as [|raw args]; [reflexivity|].
    destruct (parse_amount raw) as [a|e]; [|reflexivity].
    destruct (add_transaction ts now u withdraw a (file st)); reflexivity.
  - left. reflexivity.
  - left. reflexivity.
  - left. unfold history.
    destruct (get_user_history u default_limit (file st)); reflexivity.
  - left. reflexivity.
  - left. reflexivity.
  - left. unfold button_callback.
    destruct (String.eqb data "reset_confirm"); [|reflexivity].
    destruct (reset_user now u (file st)); reflexivity.
  - unfold menu_router.
    destruct label as [[]|]; try (left; reflexivity).
    + cbn [fst user_data]. destruct (decide (u = v)) as [->|Hne].
      * right; left. exists deposit. split; [reflexivity|].
        apply lookup_insert_eq.
      * left. apply lookup_insert_ne. exact Hne.
    + cbn [fst user_data]. destruct (decide (u = v)) as [->|Hne].
      * right; left. exists withdraw. split; [reflexivity|].
        apply lookup_insert_eq.
      * left. apply lookup_insert_ne. exact Hne.
    + left. unfold history.
      destruct (get_user_history u default_limit (file st)); reflexivity.
  - unfold amount_from_menu.
    destruct (user_data st !! u) as [mode|] eqn:Hm; [|left; reflexivity].
    assert (Hd : forall w : workbook,
               user_data (mk_chat w (delete u (user_data st))) !! v
               = user_data st !! v
               \/ (exists ts0 now0 text0,
                     AmountFromMenu ts now u text = AmountFromMenu ts0 now0 v text0
                     /\ user_data (mk_chat w (delete u (user_data st))) !! v = None)).
    { intros w. cbn [user_data]. destruct (decide (u = v)) as [->|Hne].
      - right. exists ts, now, text. split; [reflexivity|apply lookup_delete_eq].
      - left. apply lookup_delete_ne. exact Hne. }
    destruct (parse_amount text) as [a|e].
    + destruct (add_transaction ts now u mode a (file st)) as [wb|e];
        cbn [fst user_data];
        [destruct (Hd wb) as [H|H]|destruct (Hd (file st)) as [H|H]];
        cbn [user_data] in H; tauto.
    + cbn [fst]. destruct (Hd (file st)) as [H|H]; cbn [user_data] in H; tauto.
Qed.

Lemma play_consistent evs : consistent (file (play evs init_chat)).
Proof.
  induction evs as [|ev evs IH] using rev_ind; [exact consistent_init|].
  rewrite play_snoc.
  destruct (handle_file ev (play evs init_chat))
    as [-> | [(ts & now & k & a & raw & _ & _ & ->) | (now & ->)]].
  - exact IH.
  - apply step_consistent. exact IH.
  - apply step_consistent. exact IH.
Qed.

Lemma typed_app evs evs' a : typed evs a -> typed (evs ++ evs') a.
Proof.
  intros (ev & raw & H1 & H2 & H3). exists ev, raw.
  split; [apply elem_of_app; left; exact H1|]. split; assumption.
Qed.

(** What [parse_amount] returns: two decimals, not negative. *)
Lemma typed_cents evs a : typed evs a -> dexp a = -2 /\ 0 <= dcoeff a.
Proof.
  intros (ev & raw & _ & _ & Hp).
  destruct (parse_amount_ok_inv raw a Hp) as (v & _ & Hc & Hq).
  destruct (quantize_ok v (-2) a Hq) as (Hr & He & _).
  destruct (rescale_cents_near v Hc) as (_ & Hnn & _). rewrite <- Hr in Hnn.
  split; [exact He|exact Hnn].
Qed.

Lemma play_run evs :
  exists ms,
    file (play evs init_chat) = run ms init_workbook /\ fed_with (typed evs) ms.
Proof.
  induction evs as [|ev evs IH] using rev_ind.
  - exists []. split; [reflexivity|constructor].
  - destruct IH as (ms & Hms & Hfed). rewrite play_snoc.
    assert (Hfed' : fed_with (typed (evs ++ [ev])) ms).
    { unfold fed_with in *. eapply Forall_impl; [exact Hfed|].
      intros [ts now u k a|now u]; [apply typed_app|trivial]. }
    destruct (handle_file ev (play evs init_chat))
      as [-> | [(ts & now & k & a & raw & Hin & Hp & ->) | (now & ->)]].
    + exists ms. split; [exact Hms|exact Hfed'].
    + exists (ms ++ [AddTransaction ts now (sender ev) k a]).
      rewrite run_snoc, <- Hms. split; [reflexivity|].
      apply Forall_app. split; [exact Hfed'|].
      constructor; [|constructor]. exists ev, raw.
      split; [apply elem_of_app; right; apply list_elem_of_singleton; reflexivity|].
      split; assumption.
    + exists (ms ++ [ResetUser now (sender ev)]).
      rewrite run_snoc, <- Hms. split; [reflexivity|].
      apply Forall_app. split; [exact Hfed'|]. constructor; [exact I|constructor].
Qed.

(** *** The handlers are the only writers *)


(** *** The menu and the commands *)

(** Choosing "deposit" or "withdraw" in the menu and then sending a text
    does to the stored file what the command does with that text as its
    first argument, raises when the command raises and reports the same
    amount and balance; afterwards no choice of the user is pending,
    whether the text was an amount or not. *)
Theorem menu_entry_is_the_command
    (ts now raw : string) (u : Z) (k : tx_type) (rest : list string) (st : chat) :
  let command := match k with
                 | deposit => AddDeposit ts now u (raw :: rest)
                 | withdraw => Withdraw ts now u (raw :: rest)
                 end in
  let chosen := fst (handle (MenuRouter u (Some (button_of k))) st) in
  let by_menu := handle (AmountFromMenu ts now u raw) chosen in
  let by_command := handle command st in
  file (fst by_menu) = file (fst by_command)
  /\ user_data (fst by_menu) = delete u (user_data st)
  /\ match snd by_command with
     | Ok [RecordedReply k' a b] => snd by_menu = Ok [MenuRecordedReply k' a b]
     | Ok [InvalidReply _] => snd by_menu = Ok [MenuInvalidReply]
     | Raise e => snd by_menu = Raise e
     | _ => False
     end.
Proof.
  intros command chosen by_menu by_command.
  assert (Hc : file chosen = file st
               /\ user_data chosen = <[u := k]> (user_data st)).
  { subst chosen. destruct k; split; reflexivity. }
  destruct Hc as [Hf Hd].
  assert (Hm : by_menu
               = match parse_amount raw with
                 | Raise _ => (mk_chat (file st) (delete u (user_data st)),
                               Ok [MenuInvalidReply])
                 | Ok a =>
                     match add_transaction ts now u k a (file st) with
                     | Raise e => (mk_chat (file st) (delete u (user_data st)),
                                   Raise e)
                     | Ok wb =>
                         (mk_chat wb (delete u (user_data st)),
                          Ok [MenuRecordedReply k a
                                (stats_balance (get_user_stats u wb))])
                     end
                 end).
  { subst by_menu. cbn [handle]. unfold amount_from_menu.
    rewrite Hd, lookup_insert_eq, Hf, delete_insert_eq. reflexivity. }
  rewrite Hm. subst by_command command.
  destruct k; cbn [handle]; unfold add_deposit, withdraw_;
    (destruct (parse_amount raw) as [a|e];
     [destruct (add_transaction ts now u _ a (file st)) as [wb|e]|]);
    cbn [fst snd file user_data]; repeat split; reflexivity.
Qed.

(** *** The pending choice is used once *)

(** A text answering the menu consumes the choice of its sender, whether
    the text is an amount or not and whether the ledger saves it or
    raises.  Until the sender chooses "deposit" or "withdraw" in the menu
    again, whatever the handlers are called for in between, a further
    text of the sender is ignored: no reply, no change. *)
Theorem pending_choice_is_used_once
    (evs : list event) (ts1 now1 text1 ts2 now2 text2 : string) (u : Z)
    (st : chat) :
  Forall (fun ev => ev <> MenuRouter u (Some BtnDeposit)
                    /\ ev <> MenuRouter u (Some BtnWithdraw)) evs ->
  let after := play evs (fst (handle (AmountFromMenu ts1 now1 u text1) st)) in
  user_data after !! u = None
  /\ handle (AmountFromMenu ts2 now2 u text2) after = (after, Ok []).
Proof.
  intros Hevs after.
  assert (H0 : user_data (fst (handle (AmountFromMenu ts1 now1 u text1) st)) !! u
               = None).
  { cbn [handle]. unfold amount_from_menu.
    destruct (user_data st !! u) as [mode|] eqn:Hm; [|exact Hm].
    destruct (parse_amount text1) as [a|e];
      [destruct (add_transaction ts1 now1 u mode a (file st))|];
      cbn [fst user_data]; apply lookup_delete_eq. }
  assert (Hnone : user_data after !! u = None).
  { subst after. revert H0.
    generalize (fst (handle (AmountFromMenu ts1 now1 u text1) st)). intros st0 H0.
    induction evs as [|ev evs IH] using rev_ind; [exact H0|].
    apply Forall_app in Hevs as [Hevs Hev]. apply Forall_inv in Hev.
    rewrite play_snoc. specialize (IH Hevs).
    destruct (handle_user_data ev (play evs st0) u)
      as [-> | [(k & -> & _) | (ts & now & text & _ & ->)]].
    - exact IH.
    - exfalso. destruct k; tauto.
    - reflexivity. }
  split; [exact Hnone|].
  cbn [handle]. unfold amount_from_menu. rewrite Hnone. reflexivity.
Qed.

Lemma pending_choice_is_used_once_witness :
  let st := fst (handle (MenuRouter 42 (Some BtnDeposit)) init_chat) in
  let after :=
    play [Balance 42; MenuRouter 7 (Some BtnWithdraw); MenuRouter 42 (Some BtnStats)]
         (fst (handle (AmountFromMenu "2024-01-01 10:00:00"%string
                                      "2024-01-01 10:00:00"%string
                                      42 "abc"%string) st)) in
  handle (AmountFromMenu "2024-01-01 10:01:00"%string
                         "2024-01-01 10:01:00"%string 42 "100"%string) after
  = (after, Ok []).
Proof.
  intros st after.
  refine (proj2 (pending_choice_is_used_once
                   [Balance 42; MenuRouter 7 (Some BtnWithdraw);
                    MenuRouter 42 (Some BtnStats)]
                   "2024-01-01 10:00:00"%string "2024-01-01 10:00:00"%string
                   "abc"%string
                   "2024-01-01 10:01:00"%string "2024-01-01 10:01:00"%string
                   "100"%string 42 st _)).
  repeat constructor; discriminate.
Defined.

(** *** Reset *)



(** *** One user's calls and the other users *)



(** *** Modest amounts *)

Lemma exact_sum_snoc l x : (exact_sum (l ++ [x]) == exact_sum l + dval x)%Q.
Proof. induction l as [|y l IH]; simpl; [ring|rewrite IH; ring]. Qed.

Lemma exact_sum_nonneg l :
  Forall (fun a => 0 <= dcoeff a) l -> (0 <= exact_sum l)%Q.
Proof.
  induction 1 as [|a l Ha _ IH]; simpl; [apply Qle_refl|].
  apply dval_nonneg_iff in Ha. lra.
Qed.

(** An amount of the chat below 10^13 is kept by its float cell. *)
Lemma modest_cell a :
  dexp a = -2 -> 0 <= dcoeff a -> (dval a < inject_Z (10 ^ 13))%Q ->
  0 <= dcoeff (float_roundtrip a)
  /\ -2 <= dexp (float_roundtrip a) <= 0
  /\ (dval (float_roundtrip a) == dval a)%Q.
Proof.
  intros He Hc Hv.
  assert (Ha : two_decimals a).
  { split; [exact He|]. split; [exact Hc|apply cents_bound; assumption]. }
  destruct (two_decimals_cell a Ha) as (H1 & H2 & H3).
  split; [exact H1|]. split; [lia|].
  apply (units_stable a); [lia|lia|].
  rewrite H3. unfold units. rewrite He, Z.sub_diag. change (10 ^ 0) with 1. lia.
Qed.

Lemma modest_rows evs :
  (forall a, typed evs a -> (dval a < inject_Z (10 ^ 13))%Q) ->
  Forall (fun row => 0 <= dcoeff (row_amount row)
                     /\ -2 <= dexp (row_amount row) <= 0)
         (Transactions (file (play evs init_chat))).
Proof.
  intros Hmod. destruct (play_run evs) as (ms & -> & Hfed). revert ms Hfed.
  apply fed_rows. intros ts u k a Ha.
  unfold row_amount. cbn [tx_amount]. fold (float_roundtrip a).
  destruct (typed_cents evs a Ha) as [He Hc].
  destruct (modest_cell a He Hc (Hmod a Ha)) as (H1 & H2 & _).
  split; assumption.
Qed.

(** The sums of a user after one more row. *)
Lemma amounts_after k' u rows r :
  Forall (fun row => 0 <= dcoeff (row_amount row)
                     /\ -2 <= dexp (row_amount row) <= 0) (rows ++ [r]) ->
  (dval (row_amount r) < inject_Z (10 ^ 13))%Q ->
  (exact_sum (amounts_of k' u rows) < inject_Z (10 ^ 13))%Q ->
  hundredths (amounts_of k' u (rows ++ [r]))
  /\ (0 <= exact_sum (amounts_of k' u (rows ++ [r])) < inject_Z (2 * 10 ^ 13))%Q.
Proof.
  intros Hcells Hr Hb.
  pose proof (amounts_of_Forall
                (fun a => 0 <= dcoeff a /\ -2 <= dexp a <= 0) k' u _ Hcells) as Hf.
  assert (Hf' : Forall (fun a => 0 <= dcoeff a /\ -2 <= dexp a)
                       (amounts_of k' u (rows ++ [r]))).
  { eapply Forall_impl; [exact Hf|]. intros x [H1 H2]. split; lia. }
  assert (Hnn : (0 <= exact_sum (amounts_of k' u (rows ++ [r])))%Q).
  { apply exact_sum_nonneg. eapply Forall_impl; [exact Hf|]. intros x [H1 _]. exact H1. }
  assert (Hnr : (0 <= dval (row_amount r))%Q).
  { apply dval_nonneg_iff. apply Forall_app in Hcells as [_ Hc].
    apply Forall_inv in Hc. tauto. }
  assert (Hlt : (exact_sum (amounts_of k' u (rows ++ [r])) < inject_Z (2 * 10 ^ 13))%Q).
  { rewrite amounts_of_snoc.
    change (inject_Z (2 * 10 ^ 13)) with (inject_Z (10 ^ 13) + inject_Z (10 ^ 13))%Q.
    destruct (decide (tx_user r = u /\ tx_kind r = k')) as [_|_].
    - rewrite exact_sum_snoc. lra.
    - rewrite app_nil_r.
      assert (H0 : (0 < inject_Z (10 ^ 13))%Q) by reflexivity. lra. }
  split; [|split; [exact Hnn|exact Hlt]].
  split; [exact Hf'|].
  apply Qlt_trans with (inject_Z (2 * 10 ^ 13)); [exact Hlt|reflexivity].
Qed.

(** In a chat whose amounts are all below 10^13, a command with an
    amount, sent by a user whose deposits and whose withdrawals add up
    to less than 10^13 once it is logged, does not raise, appends its
    row and reports the amount and the exact balance of the log: the
    sum of the user's deposits minus the sum of the withdrawals. *)
Theorem modest_command_is_exact
    (evs : list event) (ts now raw : string) (u : Z) (k : tx_type) (a : dec) :
  let st := play evs init_chat in
  let command := match k with
                 | deposit => AddDeposit ts now u [raw]
                 | withdraw => Withdraw ts now u [raw]
                 end in
  let st' := fst (handle command st) in
  let deposits := amounts_of deposit u (Transactions (file st')) in
  let withdrawals := amounts_of withdraw u (Transactions (file st')) in
  (forall a', typed (evs ++ [command]) a' -> (dval a' < inject_Z (10 ^ 13))%Q) ->
  parse_amount raw = Ok a -> u <> 0 ->
  (exact_sum deposits < inject_Z (10 ^ 13))%Q ->
  (exact_sum withdrawals < inject_Z (10 ^ 13))%Q ->
  exists b,
    snd (handle command st) = Ok [RecordedReply k a b]
    /\ (dval b == exact_sum deposits - exact_sum withdrawals)%Q
    /\ Transactions (file st')
       = Transactions (file st) ++ [mk_tx u k (float_of_dec a) ts].
Proof.
  intros st command st' deposits withdrawals Hmod Hp Hu Hbd Hbw.
  assert (Hh : handle command st
               = match add_transaction ts now u k a (file st) with
                 | Ok wb =>
                     (mk_chat wb (user_data st),
                      Ok [RecordedReply k a (stats_balance (get_user_stats u wb))])
                 | Raise e => (st, Raise e)
                 end).
  { subst command. destruct k; cbn [handle]; unfold add_deposit, withdraw_;
      rewrite Hp; reflexivity. }
  assert (Hta : typed (evs ++ [command]) a).
  { exists command, raw.
    split; [apply elem_of_app; right; apply list_elem_of_singleton; reflexivity|].
    split; [|exact Hp].
    subst command. destruct k; apply list_elem_of_singleton; reflexivity. }
  destruct (typed_cents _ a Hta) as [He Hc].
  pose proof (Hmod a Hta) as Hva.
  destruct (modest_cell a He Hc Hva) as (Hc1 & Hc2 & Hc3).
  set (r := mk_tx u k (float_of_dec a) ts).
  assert (Hrows : Forall (fun row => 0 <= dcoeff (row_amount row)
                                     /\ -2 <= dexp (row_amount row) <= 0)
                         (Transactions (file st) ++ [r])).
  { apply Forall_app. split.
    - apply modest_rows. intros a' Ha'. apply Hmod. apply typed_app. exact Ha'.
    - constructor; [|constructor]. split; assumption. }
  assert (Hvr : (dval (row_amount r) < inject_Z (10 ^ 13))%Q).
  { change (row_amount r) with (float_roundtrip a). rewrite Hc3. exact Hva. }
  pose proof (play_consistent evs) as Hcons. fold st in Hcons.
  assert (Hadd : exists wb',
             add_transaction ts now u k a (file st) = Ok wb'
             /\ Transactions wb' = Transactions (file st) ++ [r]).
  { destruct (add_transaction ts now u k a (file st)) as [wb'|e] eqn:E.
    - exists wb'. split; [reflexivity|].
      unfold add_transaction in E. apply rebuild_inv in E as [Ht _]. exact Ht.
    - exfalso.
      assert (Hst : st' = st) by (subst st'; rewrite Hh; reflexivity).
      subst deposits withdrawals. rewrite Hst in Hbd, Hbw.
      destruct (amounts_after deposit u _ r Hrows Hvr Hbd) as (Hhd & Hd0 & Hd1).
      destruct (amounts_after withdraw u _ r Hrows Hvr Hbw) as (Hhw & Hw0 & Hw1).
      destruct (add_transaction_ok (file st) ts now u k a Hcons Hhd Hhw)
        as (wb' & Hok & _).
      + fold r. apply Qabs_Qlt_condition.
        assert (H20 : (inject_Z (2 * 10 ^ 13) < inject_Z (10 ^ 20))%Q) by reflexivity.
        fold r in Hd0, Hd1, Hw0, Hw1. split; lra.
      + rewrite E in Hok. discriminate. }
  destruct Hadd as (wb' & Hadd & Ht).
  rewrite Hadd in Hh.
  assert (Hf : file st' = wb') by (subst st'; rewrite Hh; reflexivity).
  subst deposits withdrawals. rewrite Hf in Hbd, Hbw |- *.
  assert (Hcw : consistent wb').
  { unfold add_transaction in Hadd. eapply rebuild_consistent. exact Hadd. }
  rewrite <- Ht in Hrows.
  destruct (exact_stats wb' u Hcw Hrows Hu Hbd Hbw) as (_ & _ & Hb).
  exists (stats_balance (get_user_stats u wb')).
  split; [rewrite Hh; reflexivity|]. split; [exact Hb|exact Ht].
Qed.

Lemma sample_chat_amounts :
  forall a, typed sample_chat a -> (dval a < inject_Z (10 ^ 13))%Q.
Proof.
  intros a (ev & raw & Hev & Hin & Hp). unfold sample_chat in Hev.
  repeat (apply elem_of_cons in Hev as [->|Hev]);
    try (apply elem_of_nil in Hev; contradiction);
    cbn [amount_texts] in Hin;
    try (apply elem_of_nil in Hin; contradiction);
    apply list_elem_of_singleton in Hin; subst raw;
    vm_compute in Hp; injection Hp as <-; reflexivity.
Qed.

Lemma sample_chat_modest (command : event) (raw : string) :
  amount_texts command = [raw] ->
  (forall a, parse_amount raw = Ok a -> (dval a < inject_Z (10 ^ 13))%Q) ->
  forall a', typed (sample_chat ++ [command]) a' ->
             (dval a' < inject_Z (10 ^ 13))%Q.
Proof.
  intros Hc Hraw a' (ev & raw' & Hev & Hin & Hp).
  apply elem_of_app in Hev as [Hev|Hev].
  - apply sample_chat_amounts. exists ev, raw'. repeat split; assumption.
  - apply list_elem_of_singleton in Hev. subst ev. rewrite Hc in Hin.
    apply list_elem_of_singleton in Hin. subst raw'. apply Hraw. exact Hp.
Qed.

Lemma modest_command_is_exact_witness :
  exists b,
    snd (handle (AddDeposit "2024-01-02 08:00:00"%string
                            "2024-01-02 08:00:00"%string 42 ["19,99"%string])
                (play sample_chat init_chat))
    = Ok [RecordedReply deposit (mkdec 1999 (-2)) b]
    /\ (dval b == 71949 # 100)%Q.
Proof.
  destruct (modest_command_is_exact
              sample_chat "2024-01-02 08:00:00"%string
              "2024-01-02 08:00:00"%string "19,99"%string 42 deposit
              (mkdec 1999 (-2))) as (b & H1 & H2 & _).
  - apply (sample_chat_modest _ "19,99"%string); [reflexivity|].
    intros a Ha. vm_compute in Ha. injection Ha as <-. reflexivity.
  - reflexivity.
  - discriminate.
  - vm_compute. reflexivity.
  - vm_compute. reflexivity.
  - exists b. split; [exact H1|]. rewrite H2. vm_compute. reflexivity.
Defined.

(** *** What [/stats] shows *)

Lemma dec_zero_leb d : dec_leb dec_zero d = true <-> 0 <= dcoeff d.
Proof.
  unfold dec_leb, dcompare, dec_zero; cbn [dcoeff dexp].
  set (e := Z.min 0 (dexp d)).
  pose proof (Z.pow_pos_nonneg 10 (dexp d - e) ltac:(lia) ltac:(unfold e; lia)) as Hp.
  rewrite Z.mul_0_l.
  destruct (Z.compare_spec 0 (dcoeff d * 10 ^ (dexp d - e))) as [H|H|H];
    split; intros; try discriminate; try reflexivity; nia.
Qed.

Lemma Qabs_hundredths z :
  (Qabs (inject_Z z * (1 # 100)) == inject_Z (Z.abs z) * (1 # 100))%Q.
Proof.
  destruct (Z.le_gt_cases 0 z) as [H|H].
  - rewrite Z.abs_eq by exact H. apply Qabs_pos.
    assert (H0 : (0 <= inject_Z z)%Q) by (rewrite Zle_Qle in H; exact H). lra.
  - rewrite Z.abs_neq by lia. rewrite inject_Z_opp.
    assert (H0 : (inject_Z z <= 0)%Q)
      by (apply Z.lt_le_incl in H; rewrite Zle_Qle in H; exact H).
    rewrite Qabs_neg by lra. ring.
Qed.

(** [abs(pnl)] of a difference of two read-back sums, in hundredths. *)
Lemma dabs_units w d :
  -2 <= dexp w -> -2 <= dexp d ->
  0 <= units (-2) w < 10 ^ 15 -> 0 <= units (-2) d < 10 ^ 15 ->
  let pnl := dsub w d in
  (dval (dabs pnl)
   == inject_Z (Z.abs (units (-2) w - units (-2) d)) * (1 # 100))%Q
  /\ (dec_leb dec_zero pnl = true <-> units (-2) d <= units (-2) w).
Proof.
  intros Hw Hd Huw Hud pnl.
  destruct (dsub_units (-2) w d Hw Hd) as [He Hu]; [unfold prec; lia|].
  fold pnl in He, Hu.
  assert (Hau : units (-2) (mkdec (Z.abs (dcoeff pnl)) (dexp pnl))
                = Z.abs (units (-2) pnl)).
  { unfold units; cbn [dcoeff dexp].
    pose proof (Z.pow_pos_nonneg 10 (dexp pnl - -2) ltac:(lia) ltac:(lia)) as Hp.
    rewrite Z.abs_mul, (Z.abs_eq (10 ^ _)) by lia. reflexivity. }
  split.
  - unfold dabs.
    rewrite (fix_units (-2)); [| cbn [dexp]; exact He
                               | rewrite Hau, Hu, Z.abs_idemp; unfold prec; lia].
    rewrite (dval_units (-2)) by (cbn [dexp]; exact He).
    rewrite Hau, Hu, pow10_neg2. reflexivity.
  - rewrite dec_zero_leb. split; intros H.
    + pose proof (units_nonneg (-2) pnl H He). lia.
    + apply (units_nonneg_inv (-2)); [lia|exact He].
Qed.

(** In a chat whose amounts are all below 10^13, for a user whose
    deposits and whose withdrawals in the log each add up to less than
    10^13, [/stats] shows the exact sums of the log, their exact
    difference as the balance and its absolute value as the result,
    labelled a profit exactly when the withdrawals are not below the
    deposits; [/balance] shows the same balance and ROI. *)
Theorem modest_stats_are_exact (evs : list event) (u : Z) :
  let st := play evs init_chat in
  let deposits := amounts_of deposit u (Transactions (file st)) in
  let withdrawals := amounts_of withdraw u (Transactions (file st)) in
  (forall a, typed evs a -> (dval a < inject_Z (10 ^ 13))%Q) ->
  u <> 0 ->
  (exact_sum deposits < inject_Z (10 ^ 13))%Q ->
  (exact_sum withdrawals < inject_Z (10 ^ 13))%Q ->
  exists d w b roi profit pnl,
    handle (Stats u) st = (st, Ok [StatsReply d w b roi profit pnl])
    /\ handle (Balance u) st = (st, Ok [BalanceReply b roi])
    /\ (dval d == exact_sum deposits)%Q
    /\ (dval w == exact_sum withdrawals)%Q
    /\ (dval b == exact_sum deposits - exact_sum withdrawals)%Q
    /\ (dval pnl == Qabs (exact_sum withdrawals - exact_sum deposits))%Q
    /\ (profit = true <-> (exact_sum deposits <= exact_sum withdrawals)%Q).
Proof.
  intros st deposits withdrawals Hmod Hu Hbd Hbw.
  pose proof (play_consistent evs) as Hc. fold st in Hc.
  pose proof (modest_rows evs Hmod) as Hrows. fold st in Hrows.
  destruct (exact_stats (file st) u Hc Hrows Hu Hbd Hbw) as (H1 & H2 & H3).
  destruct (read_back_units (file st) u Hc Hrows Hu Hbd Hbw)
    as ((Hed & Hud & Hsd & Hxd) & (Hew & Huw & Hsw & Hxw)).
  fold deposits in H1, H2, H3, Hud, Hsd, Hxd.
  fold withdrawals in H1, H2, H3, Huw, Hsw, Hxw.
  set (t := get_user_stats u (file st)) in *.
  destruct (dabs_units (stats_withdrawals t) (stats_deposits t) Hew Hed
              ltac:(lia) ltac:(lia)) as [Ha Hp].
  exists (stats_deposits t), (stats_withdrawals t), (stats_balance t), (stats_roi t),
         (dec_leb dec_zero (dsub (stats_withdrawals t) (stats_deposits t))),
         (dabs (dsub (stats_withdrawals t) (stats_deposits t))).
  split; [reflexivity|]. split; [reflexivity|].
  split; [exact H1|]. split; [exact H2|]. split; [exact H3|].
  split.
  - rewrite Ha, Huw, Hud, Hxw, Hxd, <- Qabs_hundredths, inject_Z_minus.
    apply Qabs_wd. ring.
  - rewrite Hp, Huw, Hud, Hxd, Hxw, Zle_Qle. split; intros H; lra.
Qed.

Lemma modest_stats_are_exact_witness :
  exists d w b roi profit pnl,
    handle (Stats 42) (play sample_chat init_chat)
    = (play sample_chat init_chat, Ok [StatsReply d w b roi profit pnl])
    /\ (dval b == 6995 # 10)%Q /\ (dval pnl == 6995 # 10)%Q
    /\ profit = false.
Proof.
  destruct (modest_stats_are_exact sample_chat 42 sample_chat_amounts)
    as (d & w & b & roi & profit & pnl & H1 & _ & _ & _ & H5 & H6 & H7).
  - discriminate.
  - vm_compute. reflexivity.
  - vm_compute. reflexivity.
  - exists d, w, b, roi, profit, pnl.
    split; [exact H1|]. split; [rewrite H5; vm_compute; reflexivity|].
    split; [rewrite H6; vm_compute; reflexivity|].
    destruct profit; [|reflexivity].
    exfalso. assert (Hle := proj1 H7 eq_refl). vm_compute in Hle.
    apply Hle. reflexivity.
Defined.

End ChatFacts.
